(** * fastfind: the parallel file search engine of limearch/sniper

    A shallow embedding of [tools/fastfind] (search.c, regex_utils.c,
    threadpool.c, utils.c, main.c) and the properties of its walker, entry
    filter, ignore sets, task pool and output sink.

    Conventions of the embedding.
    - C [int], [long long] and [time_t] values are [Z]; array indices and
      lengths that the code keeps non-negative are [nat].
    - The operating system is an [environment] record of functions
      ([opendir], [lstat], [fopen], ...): the walk sees a snapshot of the
      file system.
    - The mutable part of [search_config_t] (pool, counters, output
      stream) and the heap of ignore sets form the [world] that the
      functions thread through.
    - The task pool is run by one worker thread, the value
      [init_search_config] gives [num_threads]; with more workers this
      is one of the admissible schedules.
    - Allocations succeed, paths fit [PATH_MAX], files hold no NUL byte,
      and [time(NULL)] does not advance during a walk. *)

From Stdlib Require Import ZArith List String Ascii Lia Bool DecimalString.
From stdpp Require Import base list strings.
Import ListNotations.
Local Open Scope Z_scope.

(** ** The C library, as far as fastfind uses it *)

Module Libc.

(** [<ctype.h>] in the C locale. *)
Definition isspace (c : ascii) : bool :=
  let n := nat_of_ascii c in
  (n =? 32)%nat || ((9 <=? n)%nat && (n <=? 13)%nat).

Definition isdigit (c : ascii) : bool :=
  let n := nat_of_ascii c in (48 <=? n)%nat && (n <=? 57)%nat.

Definition toupper (c : ascii) : ascii :=
  let n := nat_of_ascii c in
  if (97 <=? n)%nat && (n <=? 122)%nat then ascii_of_nat (n - 32) else c.

Definition tolower (c : ascii) : ascii :=
  let n := nat_of_ascii c in
  if (65 <=? n)%nat && (n <=? 90)%nat then ascii_of_nat (n + 32) else c.

(** The character a [char *] points at: NUL at the end of the string. *)
Definition deref (s : string) : ascii :=
  match s with
  | EmptyString => zero
  | String c _ => c
  end.

(** The C string held by a buffer: the bytes before the first NUL.  This
    is what [strchr], [strlen] and [printf("%s")] see of the buffer. *)
Fixpoint c_str (buffer : string) : string :=
  match buffer with
  | EmptyString => EmptyString
  | String c rest =>
      if Ascii.eqb c zero then EmptyString else String c (c_str rest)
  end.

(** Two's complement ranges; [wrap64] is what [long long] arithmetic does
    on the supported targets when a product leaves the range. *)
Definition LLONG_MAX : Z := 9223372036854775807.
Definition LLONG_MIN : Z := -9223372036854775808.
Definition INT_MAX : Z := 2147483647.

Definition wrap64 (z : Z) : Z := (z + 2 ^ 63) mod 2 ^ 64 - 2 ^ 63.
Definition wrap32 (z : Z) : Z := (z + 2 ^ 31) mod 2 ^ 32 - 2 ^ 31.

Definition clamp64 (z : Z) : Z := Z.max LLONG_MIN (Z.min LLONG_MAX z).

(** Value of a digit in the given base, if it is one. *)
Definition digit_val (base : Z) (c : ascii) : option Z :=
  let d := Z.of_nat (nat_of_ascii c) - 48 in
  if isdigit c && (d <? base) then Some d else None.

Fixpoint skip_spaces (s : string) : string :=
  match s with
  | String c s' => if isspace c then skip_spaces s' else s
  | EmptyString => s
  end.

(** The digits of the subject sequence: accumulated value and the rest. *)
Fixpoint read_digits (base acc : Z) (s : string) : Z * string :=
  match s with
  | String c s' =>
      match digit_val base c with
      | Some d => read_digits base (acc * base + d) s'
      | None => (acc, s)
      end
  | EmptyString => (acc, s)
  end.

(** [strtoll(str, &endptr, base)] for base 8 and 10: [None] when no
    conversion is performed ([endptr == str]), otherwise the value,
    clamped to the range of the type, and the rest of the string. *)
Definition strtoll (base : Z) (str : string) : option (Z * string) :=
  let s := skip_spaces str in
  let '(neg, s1) :=
    match s with
    | String "-" s' => (true, s')
    | String "+" s' => (false, s')
    | _ => (false, s)
    end in
  match digit_val base (deref s1) with
  | None => None
  | Some _ =>
      let '(v, rest) := read_digits base 0 s1 in
      Some (clamp64 (if neg then - v else v), rest)
  end.

(** [atoi(s)] is [(int) strtol(s, NULL, 10)]. *)
Definition atoi (s : string) : Z :=
  match strtoll 10 s with
  | Some (v, _) => wrap32 v
  | None => 0
  end.

(** [printf("%d")], [("%ld")], [("%lld")]. *)
Definition dec (z : Z) : string := NilZero.string_of_int (Z.to_int z).

(** [strncmp(a, b, n) == 0] and [strncasecmp(a, b, n) == 0] where both
    strings have at least [n] characters left, as in [ends_with]. *)
Fixpoint strn_eq (fold : ascii -> ascii) (a b : string) : bool :=
  match a, b with
  | EmptyString, EmptyString => true
  | String x a', String y b' => Ascii.eqb (fold x) (fold y) && strn_eq fold a' b'
  | _, _ => false
  end.

Fixpoint drop_chars (n : nat) (s : string) : string :=
  match n, s with
  | S n', String _ s' => drop_chars n' s'
  | _, _ => s
  end.

(** *** Reading: [fgets]

    An open input file is the list of bytes not yet read.  [fgets(buf,
    size, fp)] stores at most [size - 1] bytes, stopping after a
    newline; it returns NULL at end of file. *)
Definition newline : ascii := "010".

Fixpoint fgets_aux (room : nat) (fp : string) : string * string :=
  match room, fp with
  | S r, String c rest =>
      if Ascii.eqb c newline then (String c EmptyString, rest)
      else let '(l, rest') := fgets_aux r rest in (String c l, rest')
  | _, _ => (EmptyString, fp)
  end.

Definition fgets (size : nat) (fp : string) : option (string * string) :=
  match fp with
  | EmptyString => None
  | _ => Some (fgets_aux (size - 1) fp)
  end.

(** *** Writing: [FILE] output streams

    The bytes of the file before the position (most recent first) and
    after it.  Writing overwrites what lies ahead; [fseek] moves the
    position on a seekable file and fails on a pipe or terminal. *)
Record FILE := mkFILE {
  behind : list ascii;
  ahead : list ascii;
  seekable : bool
}.

Definition fresh_stream (seek : bool) : FILE := mkFILE [] [] seek.

Definition fputs (s : string) (f : FILE) : FILE :=
  let bytes := list_ascii_of_string s in
  mkFILE (rev_append bytes (behind f)) (skipn (List.length bytes) (ahead f))
         (seekable f).

(** [fseek(f, -n, SEEK_CUR)]. *)
Definition fseek_back (n : nat) (f : FILE) : FILE :=
  if seekable f && (n <=? List.length (behind f))%nat
  then mkFILE (skipn n (behind f)) (rev_append (firstn n (behind f)) (ahead f))
              (seekable f)
  else f.

Definition contents (f : FILE) : string :=
  string_of_list_ascii (rev_append (behind f) (ahead f)).

End Libc.

Import Libc.

(** ** Data model (search.h, regex_utils.h, threadpool.h) *)

(** [struct stat], the fields fastfind reads. *)
Record stat := mkStat {
  st_mode : Z;
  st_nlink : Z;
  st_uid : Z;
  st_gid : Z;
  st_size : Z;
  st_mtime : Z
}.

(** [<sys/stat.h>]: the file type bits of [st_mode] (octal 0170000,
    0040000, 0100000, 0120000) and the permission bits. *)
Definition S_IFMT : Z := 61440.
Definition S_IFDIR : Z := 16384.
Definition S_IFREG : Z := 32768.
Definition S_IFLNK : Z := 40960.
Definition S_IXUSR : Z := 64.

Definition S_ISDIR (m : Z) : bool := Z.land m S_IFMT =? S_IFDIR.
Definition S_ISREG (m : Z) : bool := Z.land m S_IFMT =? S_IFREG.
Definition S_ISLNK (m : Z) : bool := Z.land m S_IFMT =? S_IFLNK.

Definition TYPE_FILE : Z := 1.
Definition TYPE_DIR : Z := 2.
Definition TYPE_LINK : Z := 4.

(** A compiled POSIX regular expression is its matcher: [regexec re text]
    holds when [regexec(&re->regex, text, 0, NULL, 0) == 0]. *)
Record Regex := mkRegex {
  compiled : bool;
  regexec : string -> bool
}.

Definition no_regex : Regex := mkRegex false (fun _ => false).

(** The system the program runs on. *)
Record environment := mkEnv {
  (** [opendir] and the sequence of names [readdir] returns *)
  opendir : string -> option (list string);
  lstat : string -> option stat;
  (** [fopen(path, "r")]: the bytes of the file *)
  fopen_r : string -> option string;
  (** [fopen(path, "w")]: whether the new stream is seekable *)
  fopen_w : string -> option bool;
  (** [time(NULL)] *)
  time_now : Z;
  (** [regcomp(pattern, REG_EXTENDED [| REG_ICASE])] *)
  regcomp : string -> bool -> option (string -> bool);
  (** [fnmatch(pattern, name, 0) == 0] *)
  fnmatch : string -> string -> bool;
  isatty_stdout : bool;
  stdout_seekable : bool;
  getpwnam : string -> option Z;
  geteuid : Z;
  (** [sysconf(_SC_NPROCESSORS_ONLN)] *)
  nprocs : Z;
  (** [strftime("%Y-%m-%d %H:%M", localtime(t))] *)
  strftime_local : Z -> string;
  (** the run time that [clock_gettime] measures, printed with "%.2f" *)
  elapsed : string
}.

(** [search_config_t], the fields fixed once the options are parsed. *)
Record search_config_t := mkConfig {
  root_dir : string;
  name_regex : Regex;
  content_regex : Regex;
  extension : option string;
  ignore_case : bool;
  max_depth : Z;
  type_mask : Z;
  use_colors : bool;
  output_format : string;
  output_file : option string;
  num_threads : Z;
  size_filter : Z;
  size_op : Z;
  mtime_filter : Z;
  mtime_op : Z;
  owner_filter : Z;
  owner_filter_enabled : bool;
  perms_filter : Z;
  perms_filter_enabled : bool;
  exclude_dirs : list string;
  ignore_vcs : bool;
  no_hidden : bool;
  exec_command : option string;
  delete_files : bool;
  interactive_delete : bool;
  long_listing : bool;
  with_line_number : bool
}.

(** [ignore_patterns_t]; [count] is the length of [patterns].  A set lives
    in the heap of the [world]; [freed] records that [free] was called on
    it. *)
Record ignore_patterns_t := mkIgnore {
  patterns : list string;
  refcount : Z;
  freed : bool
}.

(** [search_task_arg_t] (the config pointer is the same in all tasks);
    [parent_ignore] is a pointer into the heap or NULL. *)
Record search_task_arg_t := mkTask {
  path : string;
  current_depth : Z;
  parent_ignore : option nat
}.

(** [threadpool_t]: a ring buffer of [queue_size] slots.  Every task's
    function is [search_directory], so a slot holds its argument. *)
Record threadpool_t := mkPool {
  queue : list (option search_task_arg_t);
  queue_size : nat;
  head : nat;
  tail : nat;
  count : nat;
  shutdown : bool
}.

(** What the external hooks of [handle_match] were asked to do. *)
Inductive action :=
| Exec (command_template : string) (path : string)
| Delete (path : string) (type_char : ascii).

(** The mutable state of a run: the pool, the heap of ignore sets, the
    atomic counters of the config and the streams. *)
Record world := mkWorld {
  pool : threadpool_t;
  heap : list ignore_patterns_t;
  active_tasks : Z;
  files_scanned : Z;
  dirs_scanned : Z;
  matches_found : Z;
  out_stream : FILE;
  err_stream : FILE;
  actions : list action
}.

Definition set_pool (x : threadpool_t) (w : world) : world :=
  mkWorld x (heap w) (active_tasks w) (files_scanned w) (dirs_scanned w)
    (matches_found w) (out_stream w) (err_stream w) (actions w).
Definition set_heap (x : list ignore_patterns_t) (w : world) : world :=
  mkWorld (pool w) x (active_tasks w) (files_scanned w) (dirs_scanned w)
    (matches_found w) (out_stream w) (err_stream w) (actions w).
Definition set_active_tasks (x : Z) (w : world) : world :=
  mkWorld (pool w) (heap w) x (files_scanned w) (dirs_scanned w)
    (matches_found w) (out_stream w) (err_stream w) (actions w).
Definition set_files_scanned (x : Z) (w : world) : world :=
  mkWorld (pool w) (heap w) (active_tasks w) x (dirs_scanned w)
    (matches_found w) (out_stream w) (err_stream w) (actions w).
Definition set_dirs_scanned (x : Z) (w : world) : world :=
  mkWorld (pool w) (heap w) (active_tasks w) (files_scanned w) x
    (matches_found w) (out_stream w) (err_stream w) (actions w).
Definition set_matches_found (x : Z) (w : world) : world :=
  mkWorld (pool w) (heap w) (active_tasks w) (files_scanned w) (dirs_scanned
    w) x (out_stream w) (err_stream w) (actions w).
Definition set_out_stream (x : FILE) (w : world) : world :=
  mkWorld (pool w) (heap w) (active_tasks w) (files_scanned w) (dirs_scanned
    w) (matches_found w) x (err_stream w) (actions w).
Definition set_err_stream (x : FILE) (w : world) : world :=
  mkWorld (pool w) (heap w) (active_tasks w) (files_scanned w) (dirs_scanned
    w) (matches_found w) (out_stream w) x (actions w).
Definition add_action (a : action) (w : world) : world :=
  mkWorld (pool w) (heap w) (active_tasks w) (files_scanned w) (dirs_scanned
    w) (matches_found w) (out_stream w) (err_stream w) (actions w ++ [a]).

(** [fprintf(config->out_stream, ...)] *)
Definition fprintf (s : string) (w : world) : world :=
  set_out_stream (fputs s (out_stream w)) w.

(** ** threadpool.c *)

Module Threadpool.

(** [threadpool_create]: NULL unless both arguments are positive.  The
    slots of the fresh queue hold no task yet. *)
Definition threadpool_create (thread_count queue_size : Z)
  : option threadpool_t :=
  if (thread_count <=? 0) || (queue_size <=? 0) then None
  else Some (mkPool (replicate (Z.to_nat queue_size) None)
                    (Z.to_nat queue_size) 0 0 0 false).

(** [threadpool_add]: the new pool and 0, or the pool unchanged and -1
    when the queue is full or the pool is shutting down. *)
Definition threadpool_add (p : threadpool_t) (argument : search_task_arg_t)
  : threadpool_t * Z :=
  if (count p =? queue_size p)%nat || shutdown p then (p, -1)
  else (mkPool (<[tail p := Some argument]> (queue p)) (queue_size p)
               (head p) ((tail p + 1) mod queue_size p)%nat
               (S (count p)) (shutdown p), 0).

(** The dequeue of [threadpool_worker]: the task at [head]. *)
Definition take (p : threadpool_t)
  : option search_task_arg_t * threadpool_t :=
  (mjoin (queue p !! head p),
   mkPool (queue p) (queue_size p) ((head p + 1) mod queue_size p)%nat
          (tail p) (count p - 1)%nat (shutdown p)).

(** [threadpool_destroy], up to the joins: raise the shutdown flag. *)
Definition begin_shutdown (p : threadpool_t) : threadpool_t :=
  mkPool (queue p) (queue_size p) (head p) (tail p) (count p) true.

End Threadpool.
Import Threadpool.


(** ** regex_utils.c *)

(** [compile_regex]: the compiled [Regex], or [None] for the return
    value -1. *)
Definition compile_regex (env : environment) (pattern : string)
    (icase : bool) : option Regex :=
  match regcomp env pattern icase with
  | Some m => Some (mkRegex true m)
  | None => None
  end.

Definition match_regex (re : Regex) (text : string) : bool :=
  compiled re && regexec re text.

(** [*strchr(buffer, '\n') = '\0'] *)
Fixpoint cut_at_newline (s : string) : string :=
  match s with
  | EmptyString => EmptyString
  | String c s' =>
      if Ascii.eqb c newline then EmptyString else String c (cut_at_newline s')
  end.

(** The line of output for a content match ("%s:%d:%s\n").  [strchr]
    looks for the newline in the C string of the buffer and ["%s"] prints
    that C string: the text ends at the first newline or NUL byte of the
    buffer. *)
Definition content_line (path : string) (line_num : Z) (buffer : string)
  : string :=
  path +:+ ":" +:+ dec line_num +:+ ":" +:+ cut_at_newline (c_str buffer)
       +:+ String newline "".

(** The [while (fgets(buffer, sizeof(buffer), fp))] loop of
    [search_file_content] with its 4096-byte buffer.  Every [fgets]
    consumes a byte, so [String.length fp] rounds reach the end of the
    file.  [line_num] is an [int]: [line_num++] is [wrap32]. *)
Fixpoint scan_lines (rounds : nat) (cfg : search_config_t) (path fp : string)
    (line_num : Z) (match_found : bool) (w : world) : bool * world :=
  match rounds with
  | O => (match_found, w)
  | S rounds' =>
      match fgets 4096 fp with
      | None => (match_found, w)
      | Some (buffer, fp') =>
          if match_regex (content_regex cfg) buffer then
            if with_line_number cfg then
              scan_lines rounds' cfg path fp' (wrap32 (line_num + 1)) true
                         (fprintf (content_line path line_num buffer) w)
            else (true, w)
          else scan_lines rounds' cfg path fp' (wrap32 (line_num + 1))
                          match_found w
      end
  end.

(** [search_file_content]: -1 if the file cannot be read, else whether a
    line matched. *)
Definition search_file_content (env : environment) (cfg : search_config_t)
    (path : string) (w : world) : Z * world :=
  if negb (compiled (content_regex cfg)) then (-1, w)
  else match fopen_r env path with
       | None => (-1, w)
       | Some fp =>
           let '(match_found, w') :=
             scan_lines (String.length fp) cfg path fp 1 false w in
           (if match_found then 1 else 0, w')
       end.

(** ** utils.c *)

(** [parse_size_string]: bytes, or -1 on a parsing error. *)
Definition parse_size_string (str : string) : Z :=
  match strtoll 10 str with
  | None => -1
  | Some (size, endptr) =>
      let suffix := toupper (deref endptr) in
      if Ascii.eqb suffix "G" then
        wrap64 (wrap64 (wrap64 (size * 1024) * 1024) * 1024)
      else if Ascii.eqb suffix "M" then wrap64 (wrap64 (size * 1024) * 1024)
      else if Ascii.eqb suffix "K" then wrap64 (size * 1024)
      else if Ascii.eqb suffix zero then size
      else -1
  end.

(** [parse_time_string]: seconds, or -1 on a parsing error. *)
Definition parse_time_string (str : string) : Z :=
  match strtoll 10 str with
  | None => -1
  | Some (days, endptr) =>
      if negb (Ascii.eqb (toupper (deref endptr)) "D")
         && negb (Ascii.eqb (deref endptr) zero)
      then -1
      else wrap64 (days * 24 * 60 * 60)
  end.

(** [parse_permissions]: the mode, or [None] when [*ok] is set to 0. *)
Definition parse_permissions (perms_str : string) : option Z :=
  match strtoll 8 perms_str with
  | None =>
      (* endptr == perms_str and perms == 0 *)
      if Ascii.eqb (deref perms_str) zero then Some 0 else None
  | Some (perms, endptr) =>
      if negb (Ascii.eqb (deref endptr) zero) || (perms <? 0) || (511 <? perms)
      then None else Some perms
  end.

(** [get_uid_from_name]; [None] is [(uid_t)-1]. *)
Definition get_uid_from_name (env : environment) (username : string)
  : option Z :=
  if Ascii.eqb (deref username) zero then Some (geteuid env)
  else getpwnam env username.

Definition mode_bit (mode bit : Z) (c : ascii) : ascii :=
  if Z.land mode bit =? 0 then "-"%char else c.

(** [format_permissions] *)
Definition format_permissions (mode : Z) : string :=
  String (if S_ISLNK mode then "l" else if S_ISDIR mode then "d" else "-")%char
 (String (mode_bit mode 256 "r")
 (String (mode_bit mode 128 "w")
 (String (mode_bit mode 64 "x")
 (String (mode_bit mode 32 "r")
 (String (mode_bit mode 16 "w")
 (String (mode_bit mode 8 "x")
 (String (mode_bit mode 4 "r")
 (String (mode_bit mode 2 "w")
 (String (mode_bit mode 1 "x") EmptyString))))))))).

(** ** search.c *)

Definition ESC : string := String (ascii_of_nat 27) "".
Definition C_RESET : string := ESC +:+ "[0m".
Definition C_FILE : string := "".
Definition C_DIR : string := ESC +:+ "[1;34m".
Definition C_LINK : string := ESC +:+ "[1;36m".
Definition C_EXECUTABLE : string := ESC +:+ "[1;32m".
Definition C_TYPE : string := ESC +:+ "[90m".
Definition NL : string := String newline "".
Definition DQ : string := String (ascii_of_nat 34) "".

(** [init_search_config]: the configuration before the options are read. *)
Definition init_search_config : search_config_t :=
  {| root_dir := "."; name_regex := no_regex; content_regex := no_regex;
     extension := None; ignore_case := false; max_depth := -1;
     type_mask := 0; use_colors := true; output_format := "text";
     output_file := None; num_threads := 1;
     size_filter := -1; size_op := 0; mtime_filter := -1; mtime_op := 0;
     owner_filter := 0; owner_filter_enabled := false;
     perms_filter := 0; perms_filter_enabled := false;
     exclude_dirs := []; ignore_vcs := true; no_hidden := true;
     exec_command := None; delete_files := false;
     interactive_delete := false; long_listing := false;
     with_line_number := false |}.

Definition ends_with (str suffix : string) (icase : bool) : bool :=
  let len_str := String.length str in
  let len_suffix := String.length suffix in
  if (len_str <? len_suffix)%nat then false
  else strn_eq (if icase then tolower else (fun c => c))
               (drop_chars (len_str - len_suffix) str) suffix.

(** [line[strcspn(line, "\n\r")] = 0] *)
Fixpoint cut_at_eol (s : string) : string :=
  match s with
  | EmptyString => EmptyString
  | String c s' =>
      if Ascii.eqb c newline || Ascii.eqb c "013" then EmptyString
      else String c (cut_at_eol s')
  end.

(** Dropping the white space at the end of a string. *)
Fixpoint rstrip (s : string) : string :=
  match s with
  | EmptyString => EmptyString
  | String c s' =>
      match rstrip s' with
      | EmptyString => if isspace c then EmptyString else String c EmptyString
      | r => String c r
      end
  end.

(** The trimming loop of [load_ignore_file]: [end] moves left over white
    space but stops at the first character of the line. *)
Definition trim_line (line : string) : string :=
  match line with
  | EmptyString => EmptyString
  | String c s' => String c (rstrip s')
  end.

(** The [while (fgets(line, sizeof(line), fp))] loop of
    [load_ignore_file] with its 1024-byte buffer. *)
Fixpoint read_patterns (rounds : nat) (fp : string) : list string :=
  match rounds with
  | O => []
  | S rounds' =>
      match fgets 1024 fp with
      | None => []
      | Some (line, fp') =>
          let line := cut_at_eol line in
          if Ascii.eqb (deref line) "#" || Ascii.eqb (deref line) zero
          then read_patterns rounds' fp'
          else trim_line line :: read_patterns rounds' fp'
      end
  end.

(** [load_ignore_file]: the new set is allocated at the end of the heap
    with reference count 1; NULL if the file cannot be opened. *)
Definition load_ignore_file (env : environment) (dir_path : string)
    (w : world) : option nat * world :=
  match fopen_r env (dir_path +:+ "/.gitignore") with
  | None => (None, w)
  | Some fp =>
      let p := mkIgnore (read_patterns (String.length fp) fp) 1 false in
      (Some (List.length (heap w)), set_heap (heap w ++ [p]) w)
  end.

Definition is_ignored (env : environment) (name : string)
    (patterns_ptr : option nat) (w : world) : bool :=
  match patterns_ptr with
  | None => false
  | Some i =>
      match heap w !! i with
      | None => false
      | Some p => existsb (fun pattern => fnmatch env pattern name) (patterns p)
      end
  end.

(** [free_ignore_patterns]: drop one reference, free on the last one. *)
Definition free_ignore_patterns (patterns_ptr : option nat) (w : world)
  : world :=
  match patterns_ptr with
  | None => w
  | Some i =>
      match heap w !! i with
      | None => w
      | Some p =>
          let prev := refcount p in
          set_heap (<[i := mkIgnore (patterns p) (prev - 1)
                                    (if 1 <? prev then freed p else true)]>
                      (heap w)) w
      end
  end.

(** [atomic_fetch_add(&p->refcount, 1)] *)
Definition incr_refcount (i : nat) (w : world) : world :=
  match heap w !! i with
  | None => w
  | Some p =>
      set_heap (<[i := mkIgnore (patterns p) (refcount p + 1) (freed p)]>
                  (heap w)) w
  end.

Fixpoint spaces (n : nat) : string :=
  match n with
  | O => ""
  | S n' => String " " (spaces n')
  end.

(** [printf] with a field width: "%8lld" and "%-8d". *)
Definition pad_left (width : nat) (s : string) : string :=
  spaces (width - String.length s) +:+ s.
Definition pad_right (width : nat) (s : string) : string :=
  s +:+ spaces (width - String.length s).

Definition print_long_listing (env : environment) (path : string)
    (sb : stat) (w : world) : world :=
  fprintf (format_permissions (st_mode sb) +:+ " "
           +:+ pad_left 4 (dec (st_nlink sb)) +:+ " "
           +:+ pad_right 8 (dec (wrap32 (st_uid sb))) +:+ " "
           +:+ pad_right 8 (dec (wrap32 (st_gid sb))) +:+ " "
           +:+ pad_left 8 (dec (st_size sb)) +:+ " "
           +:+ strftime_local env (st_mtime sb) +:+ " " +:+ path +:+ NL) w.

Definition json_record (path : string) (type_char : ascii) (sb : stat)
  : string :=
  "{" +:+ DQ +:+ "path" +:+ DQ +:+ ":" +:+ DQ +:+ path +:+ DQ
      +:+ "," +:+ DQ +:+ "type" +:+ DQ +:+ ":" +:+ DQ
      +:+ String type_char "" +:+ DQ
      +:+ "," +:+ DQ +:+ "size" +:+ DQ +:+ ":" +:+ dec (st_size sb)
      +:+ "," +:+ DQ +:+ "mtime" +:+ DQ +:+ ":" +:+ dec (st_mtime sb) +:+ "}".

Definition csv_record (path : string) (type_char : ascii) (sb : stat)
  : string :=
  DQ +:+ path +:+ DQ +:+ "," +:+ String type_char "" +:+ ","
     +:+ dec (st_size sb) +:+ "," +:+ dec (st_mtime sb) +:+ NL.

Definition text_record (cfg : search_config_t) (path : string)
    (type_char : ascii) (sb : stat) : string :=
  let color :=
    if use_colors cfg then
      if Ascii.eqb type_char "d" then C_DIR
      else if Ascii.eqb type_char "l" then C_LINK
      else if negb (Z.land (st_mode sb) S_IXUSR =? 0) then C_EXECUTABLE
      else C_FILE
    else C_FILE in
  color +:+ path +:+ C_RESET +:+ " " +:+ C_TYPE +:+ "["
        +:+ String type_char "" +:+ "]" +:+ C_RESET +:+ NL.

Definition print_result (env : environment) (cfg : search_config_t)
    (path : string) (type_char : ascii) (sb : stat) (w : world) : world :=
  if long_listing cfg then print_long_listing env path sb w
  else if String.eqb (output_format cfg) "json" then
    let w := if 1 <? matches_found w then fprintf ("," +:+ NL) w else w in
    fprintf (json_record path type_char sb) w
  else if String.eqb (output_format cfg) "csv" then
    fprintf (csv_record path type_char sb) w
  else fprintf (text_record cfg path type_char sb) w.

(** [handle_match].  The exec and delete hooks act outside the program:
    on a child process, the terminal and the file system.  The model
    records the call as an action and does not follow it: the snapshot of
    the file system stays as it is, and what the hooks themselves write
    (the prompt of an interactive delete on stdout, the message of a
    failed [fork], [rmdir] or [remove] on stderr) is in neither stream of
    the world.  The streams are exact for the runs without these two
    options. *)
Definition handle_match (env : environment) (cfg : search_config_t)
    (path : string) (type_char : ascii) (sb : stat) (w : world) : world :=
  if with_line_number cfg && compiled (content_regex cfg) then w
  else match exec_command cfg with
       | Some command => add_action (Exec command path) w
       | None =>
           if delete_files cfg then add_action (Delete path type_char) w
           else print_result env cfg path type_char sb w
       end.

(** *** The entry filter (search.c lines 190-237)

    The condition of each [if] of the chain, named after its predicate. *)

(** lines 192-194: the type of the entry is in the type mask *)
Definition type_ok (cfg : search_config_t) (sb : stat) : bool :=
  (S_ISDIR (st_mode sb) && negb (Z.land (type_mask cfg) TYPE_DIR =? 0))
  || (S_ISREG (st_mode sb) && negb (Z.land (type_mask cfg) TYPE_FILE =? 0))
  || (S_ISLNK (st_mode sb) && negb (Z.land (type_mask cfg) TYPE_LINK =? 0)).

(** lines 203-206 *)
Definition size_rejects (cfg : search_config_t) (sb : stat) : bool :=
  negb (S_ISREG (st_mode sb))
  || ((0 <? size_op cfg) && (st_size sb <=? size_filter cfg))
  || ((size_op cfg <? 0) && (size_filter cfg <=? st_size sb))
  || ((size_op cfg =? 0) && negb (st_size sb =? size_filter cfg)).

(** lines 212-215 *)
Definition mtime_rejects (env : environment) (cfg : search_config_t)
    (sb : stat) : bool :=
  let now := time_now env in
  negb (S_ISREG (st_mode sb))
  || ((mtime_op cfg <? 0) && (mtime_filter cfg <=? now - st_mtime sb))
  || ((0 <? mtime_op cfg) && (now - st_mtime sb <=? mtime_filter cfg)).

(** line 221 *)
Definition extension_rejects (cfg : search_config_t) (ext name : string)
    (sb : stat) : bool :=
  negb (S_ISREG (st_mode sb)) || negb (ends_with name ext (ignore_case cfg)).

(** line 227 *)
Definition content_rejects (env : environment) (cfg : search_config_t)
    (full_path : string) (sb : stat) (w : world) : bool * world :=
  if negb (S_ISREG (st_mode sb)) then (true, w)
  else let '(r, w') := search_file_content env cfg full_path w in
       (negb (r =? 1), w').

(** line 232 and line 235 *)
Definition owner_rejects (cfg : search_config_t) (sb : stat) : bool :=
  negb (st_uid sb =? owner_filter cfg).
Definition perms_rejects (cfg : search_config_t) (sb : stat) : bool :=
  negb (Z.land (st_mode sb) 511 =? perms_filter cfg).

(** The chain as the code has it: [is_match] starts at 1 and each [if]
    may clear it. *)
Definition entry_filter (env : environment) (cfg : search_config_t)
    (name full_path : string) (sb : stat) (w : world) : bool * world :=
  let is_match := true in
  let is_match := if negb (type_ok cfg sb) then false else is_match in
  let is_match :=
    if is_match && negb (match_regex (name_regex cfg) name) then false
    else is_match in
  let is_match :=
    if is_match && (0 <=? size_filter cfg) then
      if size_rejects cfg sb then false else is_match
    else is_match in
  let is_match :=
    if is_match && (0 <=? mtime_filter cfg) then
      if mtime_rejects env cfg sb then false else is_match
    else is_match in
  let is_match :=
    match extension cfg with
    | Some ext =>
        if is_match then
          if extension_rejects cfg ext name sb then false else is_match
        else is_match
    | None => is_match
    end in
  let '(is_match, w) :=
    if is_match && compiled (content_regex cfg) then
      let '(rejected, w') := content_rejects env cfg full_path sb w in
      (if rejected then false else is_match, w')
    else (is_match, w) in
  let is_match :=
    if is_match && owner_filter_enabled cfg && owner_rejects cfg sb then false
    else is_match in
  let is_match :=
    if is_match && perms_filter_enabled cfg && perms_rejects cfg sb then false
    else is_match in
  (is_match, w).

(** *** The walker *)

Definition type_char_of (sb : stat) : ascii :=
  if S_ISDIR (st_mode sb) then "d"
  else if S_ISREG (st_mode sb) then "f" else "l".

(** lines 239-244 *)
Definition report_match (env : environment) (cfg : search_config_t)
    (full_path : string) (sb : stat) (w : world) : world :=
  let w := if S_ISREG (st_mode sb)
           then set_files_scanned (files_scanned w + 1) w else w in
  let w := set_matches_found (matches_found w + 1) w in
  handle_match env cfg full_path (type_char_of sb) sb w.

(** lines 246-271: the recursion gate is passed; build the child task,
    share an ignore set with it and submit it. *)
Definition spawn_child (task : search_task_arg_t) (local_ignore : option nat)
    (full_path : string) (w : world) : world :=
  let '(inherited, w) :=
    match local_ignore, parent_ignore task with
    | Some l, _ => (Some l, incr_refcount l w)
    | None, Some p => (Some p, incr_refcount p w)
    | None, None => (None, w)
    end in
  let new_task := mkTask full_path (current_depth task + 1) inherited in
  let w := set_active_tasks (active_tasks w + 1) w in
  let '(p, r) := threadpool_add (pool w) new_task in
  if r =? 0 then set_pool p w
  else free_ignore_patterns (parent_ignore new_task)
         (set_active_tasks (active_tasks w - 1) w).

Definition recursion_gate (cfg : search_config_t) (task : search_task_arg_t)
  : bool :=
  (max_depth cfg =? -1) || (current_depth task <? max_depth cfg).

(** The body of the [readdir] loop for one entry (lines 161-271). *)
Definition process_entry (env : environment) (cfg : search_config_t)
    (task : search_task_arg_t) (local_ignore : option nat)
    (w : world) (d_name : string) : world :=
  if String.eqb d_name "." || String.eqb d_name ".." then w
  else
    let full_path := path task +:+ "/" +:+ d_name in
    match lstat env full_path with
    | None => w
    | Some sb =>
        if no_hidden cfg && Ascii.eqb (deref d_name) "." then w
        else if existsb (String.eqb d_name) (exclude_dirs cfg) then w
        else if ignore_vcs cfg
                && (is_ignored env d_name local_ignore w
                    || is_ignored env d_name (parent_ignore task) w) then w
        else
          let '(is_match, w) := entry_filter env cfg d_name full_path sb w in
          let w := if is_match then report_match env cfg full_path sb w
                   else w in
          if S_ISDIR (st_mode sb) && recursion_gate cfg task
          then spawn_child task local_ignore full_path w
          else w
    end.

(** [search_directory]: one task, from the depth check to the final
    decrement of [active_tasks]. *)
Definition search_directory (env : environment) (cfg : search_config_t)
    (task : search_task_arg_t) (w : world) : world :=
  let w :=
    if negb (max_depth cfg =? -1) && (max_depth cfg <? current_depth task)
    then w
    else
      let w := set_dirs_scanned (dirs_scanned w + 1) w in
      match opendir env (path task) with
      | None => w
      | Some names =>
          let '(local_ignore, w) :=
            if ignore_vcs cfg then load_ignore_file env (path task) w
            else (None, w) in
          let w := fold_left (process_entry env cfg task local_ignore)
                             names w in
          free_ignore_patterns local_ignore w
      end in
  set_active_tasks (active_tasks w - 1) w.

(** ** main.c *)

(** Assignments to the fields of [config]. *)
Definition with_root_dir (x : string) (c : search_config_t) : search_config_t :=
  mkConfig x (name_regex c) (content_regex c) (extension c) (ignore_case c)
    (max_depth c) (type_mask c) (use_colors c) (output_format c)
    (output_file c) (num_threads c) (size_filter c) (size_op c)
    (mtime_filter c) (mtime_op c) (owner_filter c) (owner_filter_enabled c)
    (perms_filter c) (perms_filter_enabled c) (exclude_dirs c) (ignore_vcs
    c) (no_hidden c) (exec_command c) (delete_files c) (interactive_delete
    c) (long_listing c) (with_line_number c).
Definition with_name_regex (x : Regex) (c : search_config_t) : search_config_t :=
  mkConfig (root_dir c) x (content_regex c) (extension c) (ignore_case c)
    (max_depth c) (type_mask c) (use_colors c) (output_format c)
    (output_file c) (num_threads c) (size_filter c) (size_op c)
    (mtime_filter c) (mtime_op c) (owner_filter c) (owner_filter_enabled c)
    (perms_filter c) (perms_filter_enabled c) (exclude_dirs c) (ignore_vcs
    c) (no_hidden c) (exec_command c) (delete_files c) (interactive_delete
    c) (long_listing c) (with_line_number c).
Definition with_content_regex (x : Regex) (c : search_config_t) : search_config_t :=
  mkConfig (root_dir c) (name_regex c) x (extension c) (ignore_case c)
    (max_depth c) (type_mask c) (use_colors c) (output_format c)
    (output_file c) (num_threads c) (size_filter c) (size_op c)
    (mtime_filter c) (mtime_op c) (owner_filter c) (owner_filter_enabled c)
    (perms_filter c) (perms_filter_enabled c) (exclude_dirs c) (ignore_vcs
    c) (no_hidden c) (exec_command c) (delete_files c) (interactive_delete
    c) (long_listing c) (with_line_number c).
Definition with_extension (x : option string) (c : search_config_t) : search_config_t :=
  mkConfig (root_dir c) (name_regex c) (content_regex c) x (ignore_case c)
    (max_depth c) (type_mask c) (use_colors c) (output_format c)
    (output_file c) (num_threads c) (size_filter c) (size_op c)
    (mtime_filter c) (mtime_op c) (owner_filter c) (owner_filter_enabled c)
    (perms_filter c) (perms_filter_enabled c) (exclude_dirs c) (ignore_vcs
    c) (no_hidden c) (exec_command c) (delete_files c) (interactive_delete
    c) (long_listing c) (with_line_number c).
Definition with_ignore_case (x : bool) (c : search_config_t) : search_config_t :=
  mkConfig (root_dir c) (name_regex c) (content_regex c) (extension c) x
    (max_depth c) (type_mask c) (use_colors c) (output_format c)
    (output_file c) (num_threads c) (size_filter c) (size_op c)
    (mtime_filter c) (mtime_op c) (owner_filter c) (owner_filter_enabled c)
    (perms_filter c) (perms_filter_enabled c) (exclude_dirs c) (ignore_vcs
    c) (no_hidden c) (exec_command c) (delete_files c) (interactive_delete
    c) (long_listing c) (with_line_number c).
Definition with_max_depth (x : Z) (c : search_config_t) : search_config_t :=
  mkConfig (root_dir c) (name_regex c) (content_regex c) (extension c)
    (ignore_case c) x (type_mask c) (use_colors c) (output_format c)
    (output_file c) (num_threads c) (size_filter c) (size_op c)
    (mtime_filter c) (mtime_op c) (owner_filter c) (owner_filter_enabled c)
    (perms_filter c) (perms_filter_enabled c) (exclude_dirs c) (ignore_vcs
    c) (no_hidden c) (exec_command c) (delete_files c) (interactive_delete
    c) (long_listing c) (with_line_number c).
Definition with_type_mask (x : Z) (c : search_config_t) : search_config_t :=
  mkConfig (root_dir c) (name_regex c) (content_regex c) (extension c)
    (ignore_case c) (max_depth c) x (use_colors c) (output_format c)
    (output_file c) (num_threads c) (size_filter c) (size_op c)
    (mtime_filter c) (mtime_op c) (owner_filter c) (owner_filter_enabled c)
    (perms_filter c) (perms_filter_enabled c) (exclude_dirs c) (ignore_vcs
    c) (no_hidden c) (exec_command c) (delete_files c) (interactive_delete
    c) (long_listing c) (with_line_number c).
Definition with_use_colors (x : bool) (c : search_config_t) : search_config_t :=
  mkConfig (root_dir c) (name_regex c) (content_regex c) (extension c)
    (ignore_case c) (max_depth c) (type_mask c) x (output_format c)
    (output_file c) (num_threads c) (size_filter c) (size_op c)
    (mtime_filter c) (mtime_op c) (owner_filter c) (owner_filter_enabled c)
    (perms_filter c) (perms_filter_enabled c) (exclude_dirs c) (ignore_vcs
    c) (no_hidden c) (exec_command c) (delete_files c) (interactive_delete
    c) (long_listing c) (with_line_number c).
Definition with_output_format (x : string) (c : search_config_t) : search_config_t :=
  mkConfig (root_dir c) (name_regex c) (content_regex c) (extension c)
    (ignore_case c) (max_depth c) (type_mask c) (use_colors c) x
    (output_file c) (num_threads c) (size_filter c) (size_op c)
    (mtime_filter c) (mtime_op c) (owner_filter c) (owner_filter_enabled c)
    (perms_filter c) (perms_filter_enabled c) (exclude_dirs c) (ignore_vcs
    c) (no_hidden c) (exec_command c) (delete_files c) (interactive_delete
    c) (long_listing c) (with_line_number c).
Definition with_output_file (x : option string) (c : search_config_t) : search_config_t :=
  mkConfig (root_dir c) (name_regex c) (content_regex c) (extension c)
    (ignore_case c) (max_depth c) (type_mask c) (use_colors c)
    (output_format c) x (num_threads c) (size_filter c) (size_op c)
    (mtime_filter c) (mtime_op c) (owner_filter c) (owner_filter_enabled c)
    (perms_filter c) (perms_filter_enabled c) (exclude_dirs c) (ignore_vcs
    c) (no_hidden c) (exec_command c) (delete_files c) (interactive_delete
    c) (long_listing c) (with_line_number c).
Definition with_num_threads (x : Z) (c : search_config_t) : search_config_t :=
  mkConfig (root_dir c) (name_regex c) (content_regex c) (extension c)
    (ignore_case c) (max_depth c) (type_mask c) (use_colors c)
    (output_format c) (output_file c) x (size_filter c) (size_op c)
    (mtime_filter c) (mtime_op c) (owner_filter c) (owner_filter_enabled c)
    (perms_filter c) (perms_filter_enabled c) (exclude_dirs c) (ignore_vcs
    c) (no_hidden c) (exec_command c) (delete_files c) (interactive_delete
    c) (long_listing c) (with_line_number c).
Definition with_size_filter (x : Z) (c : search_config_t) : search_config_t :=
  mkConfig (root_dir c) (name_regex c) (content_regex c) (extension c)
    (ignore_case c) (max_depth c) (type_mask c) (use_colors c)
    (output_format c) (output_file c) (num_threads c) x (size_op c)
    (mtime_filter c) (mtime_op c) (owner_filter c) (owner_filter_enabled c)
    (perms_filter c) (perms_filter_enabled c) (exclude_dirs c) (ignore_vcs
    c) (no_hidden c) (exec_command c) (delete_files c) (interactive_delete
    c) (long_listing c) (with_line_number c).
Definition with_size_op (x : Z) (c : search_config_t) : search_config_t :=
  mkConfig (root_dir c) (name_regex c) (content_regex c) (extension c)
    (ignore_case c) (max_depth c) (type_mask c) (use_colors c)
    (output_format c) (output_file c) (num_threads c) (size_filter c) x
    (mtime_filter c) (mtime_op c) (owner_filter c) (owner_filter_enabled c)
    (perms_filter c) (perms_filter_enabled c) (exclude_dirs c) (ignore_vcs
    c) (no_hidden c) (exec_command c) (delete_files c) (interactive_delete
    c) (long_listing c) (with_line_number c).
Definition with_mtime_filter (x : Z) (c : search_config_t) : search_config_t :=
  mkConfig (root_dir c) (name_regex c) (content_regex c) (extension c)
    (ignore_case c) (max_depth c) (type_mask c) (use_colors c)
    (output_format c) (output_file c) (num_threads c) (size_filter c)
    (size_op c) x (mtime_op c) (owner_filter c) (owner_filter_enabled c)
    (perms_filter c) (perms_filter_enabled c) (exclude_dirs c) (ignore_vcs
    c) (no_hidden c) (exec_command c) (delete_files c) (interactive_delete
    c) (long_listing c) (with_line_number c).
Definition with_mtime_op (x : Z) (c : search_config_t) : search_config_t :=
  mkConfig (root_dir c) (name_regex c) (content_regex c) (extension c)
    (ignore_case c) (max_depth c) (type_mask c) (use_colors c)
    (output_format c) (output_file c) (num_threads c) (size_filter c)
    (size_op c) (mtime_filter c) x (owner_filter c) (owner_filter_enabled c)
    (perms_filter c) (perms_filter_enabled c) (exclude_dirs c) (ignore_vcs
    c) (no_hidden c) (exec_command c) (delete_files c) (interactive_delete
    c) (long_listing c) (with_line_number c).
Definition with_owner_filter (x : Z) (c : search_config_t) : search_config_t :=
  mkConfig (root_dir c) (name_regex c) (content_regex c) (extension c)
    (ignore_case c) (max_depth c) (type_mask c) (use_colors c)
    (output_format c) (output_file c) (num_threads c) (size_filter c)
    (size_op c) (mtime_filter c) (mtime_op c) x (owner_filter_enabled c)
    (perms_filter c) (perms_filter_enabled c) (exclude_dirs c) (ignore_vcs
    c) (no_hidden c) (exec_command c) (delete_files c) (interactive_delete
    c) (long_listing c) (with_line_number c).
Definition with_owner_filter_enabled (x : bool) (c : search_config_t) : search_config_t :=
  mkConfig (root_dir c) (name_regex c) (content_regex c) (extension c)
    (ignore_case c) (max_depth c) (type_mask c) (use_colors c)
    (output_format c) (output_file c) (num_threads c) (size_filter c)
    (size_op c) (mtime_filter c) (mtime_op c) (owner_filter c) x
    (perms_filter c) (perms_filter_enabled c) (exclude_dirs c) (ignore_vcs
    c) (no_hidden c) (exec_command c) (delete_files c) (interactive_delete
    c) (long_listing c) (with_line_number c).
Definition with_perms_filter (x : Z) (c : search_config_t) : search_config_t :=
  mkConfig (root_dir c) (name_regex c) (content_regex c) (extension c)
    (ignore_case c) (max_depth c) (type_mask c) (use_colors c)
    (output_format c) (output_file c) (num_threads c) (size_filter c)
    (size_op c) (mtime_filter c) (mtime_op c) (owner_filter c)
    (owner_filter_enabled c) x (perms_filter_enabled c) (exclude_dirs c)
    (ignore_vcs c) (no_hidden c) (exec_command c) (delete_files c)
    (interactive_delete c) (long_listing c) (with_line_number c).
Definition with_perms_filter_enabled (x : bool) (c : search_config_t) : search_config_t :=
  mkConfig (root_dir c) (name_regex c) (content_regex c) (extension c)
    (ignore_case c) (max_depth c) (type_mask c) (use_colors c)
    (output_format c) (output_file c) (num_threads c) (size_filter c)
    (size_op c) (mtime_filter c) (mtime_op c) (owner_filter c)
    (owner_filter_enabled c) (perms_filter c) x (exclude_dirs c) (ignore_vcs
    c) (no_hidden c) (exec_command c) (delete_files c) (interactive_delete
    c) (long_listing c) (with_line_number c).
Definition with_exclude_dirs (x : list string) (c : search_config_t) : search_config_t :=
  mkConfig (root_dir c) (name_regex c) (content_regex c) (extension c)
    (ignore_case c) (max_depth c) (type_mask c) (use_colors c)
    (output_format c) (output_file c) (num_threads c) (size_filter c)
    (size_op c) (mtime_filter c) (mtime_op c) (owner_filter c)
    (owner_filter_enabled c) (perms_filter c) (perms_filter_enabled c) x
    (ignore_vcs c) (no_hidden c) (exec_command c) (delete_files c)
    (interactive_delete c) (long_listing c) (with_line_number c).
Definition with_ignore_vcs (x : bool) (c : search_config_t) : search_config_t :=
  mkConfig (root_dir c) (name_regex c) (content_regex c) (extension c)
    (ignore_case c) (max_depth c) (type_mask c) (use_colors c)
    (output_format c) (output_file c) (num_threads c) (size_filter c)
    (size_op c) (mtime_filter c) (mtime_op c) (owner_filter c)
    (owner_filter_enabled c) (perms_filter c) (perms_filter_enabled c)
    (exclude_dirs c) x (no_hidden c) (exec_command c) (delete_files c)
    (interactive_delete c) (long_listing c) (with_line_number c).
Definition with_no_hidden (x : bool) (c : search_config_t) : search_config_t :=
  mkConfig (root_dir c) (name_regex c) (content_regex c) (extension c)
    (ignore_case c) (max_depth c) (type_mask c) (use_colors c)
    (output_format c) (output_file c) (num_threads c) (size_filter c)
    (size_op c) (mtime_filter c) (mtime_op c) (owner_filter c)
    (owner_filter_enabled c) (perms_filter c) (perms_filter_enabled c)
    (exclude_dirs c) (ignore_vcs c) x (exec_command c) (delete_files c)
    (interactive_delete c) (long_listing c) (with_line_number c).
Definition with_exec_command (x : option string) (c : search_config_t) : search_config_t :=
  mkConfig (root_dir c) (name_regex c) (content_regex c) (extension c)
    (ignore_case c) (max_depth c) (type_mask c) (use_colors c)
    (output_format c) (output_file c) (num_threads c) (size_filter c)
    (size_op c) (mtime_filter c) (mtime_op c) (owner_filter c)
    (owner_filter_enabled c) (perms_filter c) (perms_filter_enabled c)
    (exclude_dirs c) (ignore_vcs c) (no_hidden c) x (delete_files c)
    (interactive_delete c) (long_listing c) (with_line_number c).
Definition with_delete_files (x : bool) (c : search_config_t) : search_config_t :=
  mkConfig (root_dir c) (name_regex c) (content_regex c) (extension c)
    (ignore_case c) (max_depth c) (type_mask c) (use_colors c)
    (output_format c) (output_file c) (num_threads c) (size_filter c)
    (size_op c) (mtime_filter c) (mtime_op c) (owner_filter c)
    (owner_filter_enabled c) (perms_filter c) (perms_filter_enabled c)
    (exclude_dirs c) (ignore_vcs c) (no_hidden c) (exec_command c) x
    (interactive_delete c) (long_listing c) (with_line_number c).
Definition with_interactive_delete (x : bool) (c : search_config_t) : search_config_t :=
  mkConfig (root_dir c) (name_regex c) (content_regex c) (extension c)
    (ignore_case c) (max_depth c) (type_mask c) (use_colors c)
    (output_format c) (output_file c) (num_threads c) (size_filter c)
    (size_op c) (mtime_filter c) (mtime_op c) (owner_filter c)
    (owner_filter_enabled c) (perms_filter c) (perms_filter_enabled c)
    (exclude_dirs c) (ignore_vcs c) (no_hidden c) (exec_command c)
    (delete_files c) x (long_listing c) (with_line_number c).
Definition with_long_listing (x : bool) (c : search_config_t) : search_config_t :=
  mkConfig (root_dir c) (name_regex c) (content_regex c) (extension c)
    (ignore_case c) (max_depth c) (type_mask c) (use_colors c)
    (output_format c) (output_file c) (num_threads c) (size_filter c)
    (size_op c) (mtime_filter c) (mtime_op c) (owner_filter c)
    (owner_filter_enabled c) (perms_filter c) (perms_filter_enabled c)
    (exclude_dirs c) (ignore_vcs c) (no_hidden c) (exec_command c)
    (delete_files c) (interactive_delete c) x (with_line_number c).
Definition with_with_line_number (x : bool) (c : search_config_t) : search_config_t :=
  mkConfig (root_dir c) (name_regex c) (content_regex c) (extension c)
    (ignore_case c) (max_depth c) (type_mask c) (use_colors c)
    (output_format c) (output_file c) (num_threads c) (size_filter c)
    (size_op c) (mtime_filter c) (mtime_op c) (owner_filter c)
    (owner_filter_enabled c) (perms_filter c) (perms_filter_enabled c)
    (exclude_dirs c) (ignore_vcs c) (no_hidden c) (exec_command c)
    (delete_files c) (interactive_delete c) (long_listing c) x.

Definition is_Some_b {A : Type} (o : option A) : bool :=
  match o with
  | Some _ => true
  | None => false
  end.

(** The options as [getopt_long] hands them to the [switch]: the short
    options, the long-only options 1000 to 1014, and '?' for anything
    else. *)
Inductive opt :=
| OptPattern | OptDirectory | OptExt | OptType | OptIgnoreCase | OptMaxDepth
| OptLongListing | OptOutput | OptHelp | OptVersion | OptShowHidden
| OptContent | OptSize | OptMtime | OptOwner | OptPerms | OptNoHidden
| OptIgnoreVcs | OptNoIgnore | OptExclude | OptExec | OptDelete
| OptInteractive | OptWithLineNumber | OptFormat | OptThreads | OptUnknown.

(** The local variables of [main] while the options are read. *)
Record locals := mkLocals {
  config : search_config_t;
  name_pattern : option string;
  content_pattern : option string
}.

Definition on_config (f : search_config_t -> search_config_t) (l : locals)
  : locals :=
  mkLocals (f (config l)) (name_pattern l) (content_pattern l).

(** case 't': the loop over the characters of the argument *)
Fixpoint type_mask_of (optarg : string) (mask : Z) : Z :=
  match optarg with
  | EmptyString => mask
  | String c s =>
      type_mask_of s
        (if Ascii.eqb c "f" then Z.lor mask TYPE_FILE
         else if Ascii.eqb c "d" then Z.lor mask TYPE_DIR
         else if Ascii.eqb c "l" then Z.lor mask TYPE_LINK
         else mask)
  end.

(** The leading '+' or '-' of a size or mtime argument: the comparator
    and the rest of the argument ([*optarg++]). *)
Definition comparator_prefix (optarg : string) : Z * string :=
  match optarg with
  | String "+" rest => (1, rest)
  | String "-" rest => (-1, rest)
  | _ => (0, optarg)
  end.

(** One round of the [switch]: [inl code] when [main] returns. *)
Definition handle_option (env : environment) (o : opt) (optarg : string)
    (l : locals) : Z + locals :=
  match o with
  | OptPattern => inr (mkLocals (config l) (Some optarg) (content_pattern l))
  | OptDirectory => inr (on_config (with_root_dir optarg) l)
  | OptExt => inr (on_config (with_extension (Some optarg)) l)
  | OptType => inr (on_config (with_type_mask (type_mask_of optarg 0)) l)
  | OptIgnoreCase => inr (on_config (with_ignore_case true) l)
  | OptMaxDepth => inr (on_config (with_max_depth (atoi optarg)) l)
  | OptLongListing => inr (on_config (with_long_listing true) l)
  | OptOutput => inr (on_config (with_output_file (Some optarg)) l)
  | OptHelp => inl 0
  | OptVersion => inl 0
  | OptShowHidden => inr (on_config (with_no_hidden false) l)
  | OptContent => inr (mkLocals (config l) (name_pattern l) (Some optarg))
  | OptSize =>
      let '(op, arg) := comparator_prefix optarg in
      let size := parse_size_string arg in
      if size <? 0 then inl 1
      else inr (on_config (fun c => with_size_filter size (with_size_op op c)) l)
  | OptMtime =>
      let '(op, arg) := comparator_prefix optarg in
      let seconds := parse_time_string arg in
      if seconds <? 0 then inl 1
      else inr (on_config
                  (fun c => with_mtime_filter seconds (with_mtime_op op c)) l)
  | OptOwner =>
      match get_uid_from_name env optarg with
      | None => inl 1
      | Some uid =>
          inr (on_config (fun c => with_owner_filter_enabled true
                                     (with_owner_filter uid c)) l)
      end
  | OptPerms =>
      match parse_permissions optarg with
      | None => inl 1
      | Some perms =>
          inr (on_config (fun c => with_perms_filter_enabled true
                                     (with_perms_filter perms c)) l)
      end
  | OptNoHidden => inr (on_config (with_no_hidden true) l)
  | OptIgnoreVcs => inr (on_config (with_ignore_vcs true) l)
  | OptNoIgnore => inr (on_config (with_ignore_vcs false) l)
  | OptExclude =>
      inr (on_config (fun c => with_exclude_dirs (exclude_dirs c ++ [optarg]) c)
                     l)
  | OptExec => inr (on_config (with_exec_command (Some optarg)) l)
  | OptDelete => inr (on_config (with_delete_files true) l)
  | OptInteractive => inr (on_config (with_interactive_delete true) l)
  | OptWithLineNumber => inr (on_config (with_with_line_number true) l)
  | OptFormat => inr (on_config (with_output_format optarg) l)
  | OptThreads => inr (on_config (with_num_threads (atoi optarg)) l)
  | OptUnknown => inl 1
  end.

(** The [while ((opt = getopt_long(...)) != -1)] loop. *)
Fixpoint parse_options (env : environment) (opts : list (opt * string))
    (l : locals) : Z + locals :=
  match opts with
  | [] => inr l
  | (o, optarg) :: rest =>
      match handle_option env o optarg l with
      | inl code => inl code
      | inr l' => parse_options env rest l'
      end
  end.

(** How a run of [main] ends. *)
Inductive outcome :=
| SetupExit (code : Z)          (** [main] returned before the walk started *)
| Exit (code : Z) (w : world)   (** [main] returned after the walk *)
| Hang (w : world)              (** the seeder and the worker both wait *)
| Fault (w : world)             (** the worker called an unset queue slot *)
| OutOfFuel (w : world).        (** more worker rounds are needed *)

(** The worker thread of a pool with one worker and the seeder waiting
    for it, one task per round: the tasks run one at a time, in the order
    of the queue.  The seeder leaves its wait loop when [active_tasks] is
    no longer positive and destroys the pool; the worker then drains the
    queue and exits.  [inl w] is the world when [threadpool_destroy]
    returns.  With more workers (the threads option) the steps of
    several tasks interleave; those schedules are not part of the
    model. *)
Fixpoint run_pool (env : environment) (cfg : search_config_t) (fuel : nat)
    (w : world) : world + outcome :=
  match fuel with
  | O => inr (OutOfFuel w)
  | S fuel' =>
      if negb (shutdown (pool w)) && (active_tasks w <=? 0) then
        run_pool env cfg fuel' (set_pool (begin_shutdown (pool w)) w)
      else if (count (pool w) =? 0)%nat then
        if shutdown (pool w) then inl w else inr (Hang w)
      else
        match take (pool w) with
        | (Some task, p) =>
            run_pool env cfg fuel' (search_directory env cfg task (set_pool p w))
        | (None, _) => inr (Fault w)
        end
  end.

Definition GREY : string := ESC +:+ "[90m".

Definition summary (env : environment) (w : world) : string :=
  NL +:+ GREY +:+ "Searched " +:+ dec (dirs_scanned w) +:+ " directories and "
     +:+ dec (files_scanned w) +:+ " files. Found " +:+ dec (matches_found w)
     +:+ " matches in " +:+ elapsed env +:+ " seconds." +:+ C_RESET +:+ NL.

(** main.c lines 159-165: closing the JSON array. *)
Definition json_trailer (cfg : search_config_t) (w : world) : world :=
  if String.eqb (output_format cfg) "json" then
    let w := if 0 <? matches_found w
             then fprintf NL (set_out_stream (fseek_back 2 (out_stream w)) w)
             else w in
    fprintf ("]" +:+ NL) w
  else w.

(** main.c lines 116-133: what is left of the setup once the options are
    read: the final configuration and the empty world, or the exit code. *)
Definition setup (env : environment) (l : locals) (positional : option string)
  : Z + (search_config_t * world) :=
  let cfg := config l in
  let cfg := match positional with
             | Some dir => with_root_dir dir cfg
             | None => cfg
             end in
  match name_pattern l with
  | None => inl 1
  | Some pattern =>
      let cfg := if type_mask cfg =? 0
                 then with_type_mask (Z.lor (Z.lor TYPE_FILE TYPE_DIR) TYPE_LINK)
                                     cfg
                 else cfg in
      let cfg := if negb (isatty_stdout env) || is_Some_b (output_file cfg)
                 then with_use_colors false cfg else cfg in
      let out := match output_file cfg with
                 | Some file => option_map fresh_stream (fopen_w env file)
                 | None => Some (fresh_stream (stdout_seekable env))
                 end in
      match out with
      | None => inl 1
      | Some out =>
          match compile_regex env pattern (ignore_case cfg) with
          | None => inl 1
          | Some re =>
              let cfg := with_name_regex re cfg in
              let content :=
                match content_pattern l with
                | Some cp =>
                    option_map (fun re => with_content_regex re cfg)
                               (compile_regex env cp (ignore_case cfg))
                | None => Some cfg
                end in
              match content with
              | None => inl 1
              | Some cfg =>
                  match threadpool_create
                          (if 0 <? num_threads cfg then num_threads cfg
                           else nprocs env) 4096 with
                  | None => inl 1
                  | Some p =>
                      inr (cfg, mkWorld p [] 0 0 0 0 out (fresh_stream false) [])
                  end
              end
          end
      end
  end.

(** main.c lines 135-172: the seeder.  It opens the JSON array or prints
    the CSV header, submits the task of the starting directory, waits for
    the walk to end and closes the output. *)
Definition walk (env : environment) (cfg : search_config_t) (w : world)
    (fuel : nat) : outcome :=
  let w := if String.eqb (output_format cfg) "json"
           then fprintf ("[" +:+ NL) w else w in
  let w := if String.eqb (output_format cfg) "csv"
           then fprintf ("path,type,size,mtime" +:+ NL) w else w in
  let initial_task := mkTask (root_dir cfg) 0 None in
  let w := set_active_tasks 1 w in
  let w := set_pool (fst (threadpool_add (pool w) initial_task)) w in
  match run_pool env cfg fuel w with
  | inr o => o
  | inl w =>
      let w := json_trailer cfg w in
      let w := set_err_stream (fputs (summary env w) (err_stream w)) w in
      Exit 0 w
  end.

(** [main], from the options to the exit code. *)
Definition main (env : environment) (opts : list (opt * string))
    (positional : option string) (fuel : nat) : outcome :=
  match parse_options env opts (mkLocals init_search_config None None) with
  | inl code => SetupExit code
  | inr l =>
      match setup env l positional with
      | inl code => SetupExit code
      | inr (cfg, w) => walk env cfg w fuel
      end
  end.

(** * Inputs, invariants and relations for the properties *)

Definition assoc {A : Type} (l : list (string * A)) (k : string) : option A :=
  option_map snd (find (fun kv => String.eqb (fst kv) k) l).

(** A directory with mode 0755 and a regular file with mode 0644. *)
Definition dir_stat : stat := mkStat (Z.lor S_IFDIR 493) 2 1000 1000 4096 100.
Definition file_stat (size mtime : Z) : stat :=
  mkStat (Z.lor S_IFREG 420) 1 1000 1000 size mtime.
Definition link_stat : stat := mkStat (Z.lor S_IFLNK 511) 1 1000 1000 1 100.

(** A system with an empty file system whose [regcomp] knows the pattern
    ".*", which matches every string. *)
Definition bare_env : environment :=
  {| opendir := fun _ => None; lstat := fun _ => None;
     fopen_r := fun _ => None; fopen_w := fun _ => Some true;
     time_now := 1000000;
     regcomp := fun p _ => if String.eqb p ".*" then Some (fun _ => true)
                           else None;
     fnmatch := String.eqb;
     isatty_stdout := false; stdout_seekable := false;
     getpwnam := fun _ => None; geteuid := 1000; nprocs := 4;
     strftime_local := fun _ => "1970-01-01 00:00"; elapsed := "0.00" |}.

Definition with_files (dirs : list (string * list string))
    (stats : list (string * stat)) (files : list (string * string))
    (env : environment) : environment :=
  {| opendir := assoc dirs; lstat := assoc stats; fopen_r := assoc files;
     fopen_w := fopen_w env; time_now := time_now env;
     regcomp := regcomp env; fnmatch := fnmatch env;
     isatty_stdout := isatty_stdout env;
     stdout_seekable := stdout_seekable env;
     getpwnam := getpwnam env; geteuid := geteuid env; nprocs := nprocs env;
     strftime_local := strftime_local env; elapsed := elapsed env |}.

(** The configuration after "--mtime <optarg>" alone. *)
Definition mtime_config (optarg : string) : option search_config_t :=
  match handle_option bare_env OptMtime optarg
          (mkLocals init_search_config None None) with
  | inr l => Some (config l)
  | inl _ => None
  end.

(** The suffix table of the size argument as the help text gives it ("Use
    N, NK, NM, NG"): the factor selected by the character that follows the
    number, NUL standing for the end of the argument. *)
Definition size_suffix_factor (c : ascii) : option Z :=
  if Ascii.eqb c zero then Some 1
  else if Ascii.eqb c "K" || Ascii.eqb c "k" then Some 1024
  else if Ascii.eqb c "M" || Ascii.eqb c "m" then Some (1024 * 1024)
  else if Ascii.eqb c "G" || Ascii.eqb c "g" then Some (1024 * 1024 * 1024)
  else None.

Definition no_locals : locals := mkLocals init_search_config None None.

(** ** The entry filter as a list of predicates

    The filter as section 4.3 of the specification words it: eight
    predicates, evaluated in a fixed order, the evaluation stopping at the
    first one that fails. *)
Inductive predicate :=
| PType | PName | PSize | PMtime | PExtension | PContent | POwner | PPerms.

Definition spec_order : list predicate :=
  [PType; PName; PSize; PMtime; PExtension; PContent; POwner; PPerms].

(** Whether the user asked for the predicate; the type mask and the name
    pattern always apply. *)
Definition configured (cfg : search_config_t) (p : predicate) : bool :=
  match p with
  | PType | PName => true
  | PSize => 0 <=? size_filter cfg
  | PMtime => 0 <=? mtime_filter cfg
  | PExtension => is_Some_b (extension cfg)
  | PContent => compiled (content_regex cfg)
  | POwner => owner_filter_enabled cfg
  | PPerms => perms_filter_enabled cfg
  end.

(** One predicate on its own: whether the entry passes it and the world
    after evaluating it.  Only the content predicate touches the world. *)
Definition eval_predicate (env : environment) (cfg : search_config_t)
    (name full_path : string) (sb : stat) (p : predicate) (w : world)
  : bool * world :=
  if negb (configured cfg p) then (true, w)
  else match p with
       | PType => (type_ok cfg sb, w)
       | PName => (match_regex (name_regex cfg) name, w)
       | PSize => (negb (size_rejects cfg sb), w)
       | PMtime => (negb (mtime_rejects env cfg sb), w)
       | PExtension =>
           (match extension cfg with
            | Some ext => negb (extension_rejects cfg ext name sb)
            | None => true
            end, w)
       | PContent =>
           let '(rejected, w') := content_rejects env cfg full_path sb w in
           (negb rejected, w')
       | POwner => (negb (owner_rejects cfg sb), w)
       | PPerms => (negb (perms_rejects cfg sb), w)
       end.

(** Evaluation in order with short-circuit: the first predicate that
    fails, if any, and the world after the predicates evaluated. *)
Fixpoint eval_in_order (env : environment) (cfg : search_config_t)
    (name full_path : string) (sb : stat) (ps : list predicate) (w : world)
  : option predicate * world :=
  match ps with
  | [] => (None, w)
  | p :: ps' =>
      let '(ok, w') := eval_predicate env cfg name full_path sb p w in
      if ok then eval_in_order env cfg name full_path sb ps' w'
      else (Some p, w')
  end.

Definition regular_only (p : predicate) : bool :=
  match p with
  | PSize | PMtime | PExtension | PContent => true
  | _ => false
  end.

(** The pool, the heap and the task counter: the part of the world that
    scheduling depends on. *)
Definition same_tasks (w w' : world) : Prop :=
  pool w' = pool w /\ heap w' = heap w /\ active_tasks w' = active_tasks w.

(** A world with a four-slot pool and one running task. *)
Definition idle_world : world :=
  mkWorld (mkPool (replicate 4 None) 4 0 0 0 false) [] 1 0 0 0
          (fresh_stream false) (fresh_stream false) [].

(** Scenario 6: the directory a holds a symbolic link to itself;
    [opendir] follows the link, [lstat] does not. *)
Definition link_env : environment :=
  with_files [("a", ["."; ".."; "link"]); ("a/link", ["."; ".."; "link"])]
             [("a", dir_stat); ("a/link", link_stat)] [] bare_env.

Definition any_name : search_config_t :=
  with_type_mask 7 (with_name_regex (mkRegex true (fun _ => true))
                                    init_search_config).

(** Scenarios 1 and 2: the tree a/b/c.txt, a/b/d.log, a/e.txt. *)
Definition tree_env : environment :=
  with_files [("a", ["."; ".."; "b"; "e.txt"]);
              ("a/b", ["."; ".."; "c.txt"; "d.log"])]
             [("a", dir_stat); ("a/b", dir_stat); ("a/e.txt", file_stat 5 100);
              ("a/b/c.txt", file_stat 7 100); ("a/b/d.log", file_stat 0 100)]
             [("a/e.txt", "hello"); ("a/b/c.txt", "content"); ("a/b/d.log", "")]
             bare_env.

(** The text lines of the four entries, without colours. *)
Definition line_of (path : string) (sb : stat) : string :=
  text_record (with_use_colors false init_search_config) path
              (type_char_of sb) sb.

(** A run of the pool that did not stop for lack of rounds. *)
Definition finished (r : world + outcome) : Prop :=
  match r with
  | inr (OutOfFuel _) => False
  | _ => True
  end.

(** A string without its last two characters. *)
Fixpoint chop2 (s : string) : string :=
  match s with
  | String c ((String _ (String _ _)) as s') => String c (chop2 s')
  | _ => EmptyString
  end.

(** "--format json -o out.json" on the tree of scenario 1; [fopen_w] of
    [bare_env] opens a regular, seekable file. *)
Definition json_to_file : list (opt * string) :=
  [(OptPattern, ".*"); (OptDirectory, "a"); (OptFormat, "json");
   (OptOutput, "out.json")].
Definition json_to_pipe : list (opt * string) :=
  [(OptPattern, ".*"); (OptDirectory, "a"); (OptFormat, "json")].

(** ** Lines of a text file

    The lines of a file, each with its newline (the last one may lack
    it), and what the content scan is to print for them: one
    path:number:text line per line that matches. *)
Fixpoint lines_of (s : string) : list string :=
  match s with
  | EmptyString => []
  | String c s' =>
      if Ascii.eqb c newline then String c EmptyString :: lines_of s'
      else match lines_of s' with
           | [] => [String c EmptyString]
           | l :: ls => String c l :: ls
           end
  end.



(** [strstr(hay, needle) != NULL]: the matcher of a pattern without
    special characters. *)
Fixpoint contains (needle hay : string) : bool :=
  String.prefix needle hay
  || match hay with
     | EmptyString => false
     | String _ hay' => contains needle hay'
     end.

(** Scenario 5: a/secret.txt has three lines, the second one holds
    TOKEN=abc. *)
Definition secret_text : string :=
  "first line" +:+ NL +:+ "TOKEN=abc" +:+ NL +:+ "last line" +:+ NL.

Definition token_regcomp (p : string) (icase : bool)
  : option (string -> bool) :=
  if String.eqb p ".*" then Some (fun _ => true) else Some (contains p).

Definition secret_env (text : string) : environment :=
  let env := with_files [("a", ["."; ".."; "secret.txt"])]
                        [("a", dir_stat); ("a/secret.txt", file_stat 31 100)]
                        [("a/secret.txt", text)] bare_env in
  {| opendir := opendir env; lstat := lstat env; fopen_r := fopen_r env;
     fopen_w := fopen_w env; time_now := time_now env;
     regcomp := token_regcomp; fnmatch := fnmatch env;
     isatty_stdout := isatty_stdout env;
     stdout_seekable := stdout_seekable env;
     getpwnam := getpwnam env; geteuid := geteuid env; nprocs := nprocs env;
     strftime_local := strftime_local env; elapsed := elapsed env |}.

Definition with_line_numbers : list (opt * string) :=
  [(OptPattern, ".*"); (OptDirectory, "a"); (OptContent, "TOKEN=");
   (OptWithLineNumber, "")].


Definition token_config : search_config_t :=
  with_with_line_number true
    (with_content_regex (mkRegex true (contains "TOKEN=")) any_name).

(** Scenario 3: a/.gitignore lists node_modules, next to
    a/node_modules/x.js and a/src/y.js. *)
Definition ignore_env : environment :=
  with_files [("a", ["."; ".."; ".gitignore"; "node_modules"; "src"]);
              ("a/node_modules", ["."; ".."; "x.js"]);
              ("a/src", ["."; ".."; "y.js"])]
             [("a", dir_stat); ("a/.gitignore", file_stat 13 100);
              ("a/node_modules", dir_stat); ("a/src", dir_stat);
              ("a/node_modules/x.js", file_stat 1 100);
              ("a/src/y.js", file_stat 1 100)]
             [("a/.gitignore", "node_modules" +:+ NL);
              ("a/node_modules/x.js", "x"); ("a/src/y.js", "y")]
             bare_env.

(** A directory r with [n] subdirectories d0, d1, ...; the last one holds
    the file f.txt, the others are empty. *)
Definition subdir_name (i : nat) : string := "d" +:+ dec (Z.of_nat i).

Definition wide_env (n : nat) : environment :=
  let last := "r/" +:+ subdir_name (n - 1) in
  {| opendir := fun p =>
       if String.eqb p "r" then Some (map subdir_name (seq 0 n))
       else if String.eqb p last then Some ["f.txt"]
       else if String.prefix "r/d" p then Some []
       else None;
     lstat := fun p =>
       if String.eqb p (last +:+ "/f.txt") then Some (file_stat 0 100)
       else if String.prefix "r/d" p then Some dir_stat
       else None;
     fopen_r := fun p =>
       if String.eqb p (last +:+ "/f.txt") then Some "" else None;
     fopen_w := fopen_w bare_env; time_now := time_now bare_env;
     regcomp := regcomp bare_env; fnmatch := fnmatch bare_env;
     isatty_stdout := isatty_stdout bare_env;
     stdout_seekable := stdout_seekable bare_env;
     getpwnam := getpwnam bare_env; geteuid := geteuid bare_env;
     nprocs := nprocs bare_env;
     strftime_local := strftime_local bare_env; elapsed := elapsed bare_env |}.

(** The ignore set that [spawn_child] hands to the child: the local one
    if there is one, else the inherited one. *)
Definition shared_set (task : search_task_arg_t) (local_ignore : option nat)
  : option nat :=
  match local_ignore with
  | Some l => Some l
  | None => parent_ignore task
  end.

Definition just_pattern : list (opt * string) :=
  [(OptPattern, ".*"); (OptDirectory, "a")].

(** ** Invariants of the pool

    The ring buffer is well formed: the [count] slots from [head] on hold
    tasks and [tail] is the slot after them. *)
Definition ring_ok (p : threadpool_t) : Prop :=
  (0 < queue_size p)%nat
  /\ List.length (queue p) = queue_size p
  /\ (head p < queue_size p)%nat
  /\ tail p = ((head p + count p) mod queue_size p)%nat
  /\ (count p <= queue_size p)%nat
  /\ forall k, (k < count p)%nat ->
                exists t, queue p !! ((head p + k) mod queue_size p)%nat
                          = Some (Some t).

(** Tasks counted by [active_tasks] that are not in the queue: the ones
    being run. *)
Definition running (w : world) : Z := active_tasks w - Z.of_nat (count (pool w)).

(** A run that went wrong. *)
Definition stuck (o : outcome) : Prop :=
  match o with
  | Hang _ | Fault _ => True
  | _ => False
  end.

(** The pool and the task counter after a step of the walker: the ring
    stays well formed and no task is lost or counted twice. *)
Definition balanced (d : Z) (w w' : world) : Prop :=
  ring_ok (pool w) ->
  ring_ok (pool w') /\ shutdown (pool w') = shutdown (pool w)
  /\ running w' = running w + d.

(** The pool and the task counter are unchanged. *)
Definition same_tasks_but_heap (w w' : world) : Prop :=
  pool w' = pool w /\ active_tasks w' = active_tasks w.

(** What a finished run reports: the exit code, the directories scanned
    and whether a given text is in the output. *)
Definition report_of (needle : string) (o : outcome)
  : option (Z * Z * bool) :=
  match o with
  | Exit code w =>
      Some (code, dirs_scanned w, contains needle (contents (out_stream w)))
  | _ => None
  end.

Definition walk_r : list (opt * string) :=
  [(OptPattern, ".*"); (OptDirectory, "r")].

(** ** Comparing two walks

    [without_ignore_file dir env] is the system [env] with the file
    dir/.gitignore absent: [readdir] does not list it, [lstat] and [fopen]
    fail on it. *)
Definition gitignore_of (dir : string) : string := dir +:+ "/.gitignore".

Definition without_ignore_file (dir : string) (env : environment)
  : environment :=
  {| opendir := fun p =>
       if String.eqb p dir
       then option_map
              (List.filter (fun n => negb (String.eqb n ".gitignore")))
              (opendir env p)
       else opendir env p;
     lstat := fun p =>
       if String.eqb p (gitignore_of dir) then None else lstat env p;
     fopen_r := fun p =>
       if String.eqb p (gitignore_of dir) then None else fopen_r env p;
     fopen_w := fopen_w env; time_now := time_now env;
     regcomp := regcomp env; fnmatch := fnmatch env;
     isatty_stdout := isatty_stdout env;
     stdout_seekable := stdout_seekable env;
     getpwnam := getpwnam env; geteuid := geteuid env; nprocs := nprocs env;
     strftime_local := strftime_local env; elapsed := elapsed env |}.

(** The ignore file of a directory has no pattern (or there is none). *)
Definition empty_or_absent (env : environment) (dir : string) : Prop :=
  forall fp, fopen_r env (gitignore_of dir) = Some fp ->
             read_patterns (String.length fp) fp = [].

(** Names as [readdir] returns them hold no slash. *)
Definition no_slash (name : string) : Prop :=
  ~ In "/"%char (list_ascii_of_string name).
Definition names_ok (env : environment) : Prop :=
  forall p names, opendir env p = Some names -> Forall no_slash names.

(** [p] lies below [root]; [p] is [root] or below it; [p] is [dir] or a
    directory above it. *)
Definition under (root p : string) : Prop := exists s, p = root +:+ "/" +:+ s.
Definition reach (root p : string) : Prop := p = root \/ under root p.
Definition anc (dir p : string) : Prop := p = dir \/ under p dir.

(** The counters, streams and hook requests of two worlds agree. *)
Definition rest_eq (w1 w2 : world) : Prop :=
  files_scanned w1 = files_scanned w2 /\ dirs_scanned w1 = dirs_scanned w2
  /\ matches_found w1 = matches_found w2 /\ out_stream w1 = out_stream w2
  /\ err_stream w1 = err_stream w2 /\ actions w1 = actions w2.

(** Two runs end the same way with the same output. *)
Definition same_report (o1 o2 : outcome) : Prop :=
  match o1, o2 with
  | SetupExit c1, SetupExit c2 => c1 = c2
  | Exit c1 w1, Exit c2 w2 => c1 = c2 /\ rest_eq w1 w2
  | Hang w1, Hang w2 | Fault w1, Fault w2 | OutOfFuel w1, OutOfFuel w2 =>
      rest_eq w1 w2
  | _, _ => False
  end.

(** The world [w] with the pool, heap and task counter of [w0]. *)
Definition graft (w0 w : world) : world :=
  mkWorld (pool w0) (heap w0) (active_tasks w0) (files_scanned w)
          (dirs_scanned w) (matches_found w) (out_stream w) (err_stream w)
          (actions w).

(** The patterns behind a pointer, and pointers that point into the
    heap. *)
Definition patterns_at (h : list ignore_patterns_t) (o : option nat)
  : list string :=
  match o with
  | Some i => match h !! i with
              | Some p => patterns p
              | None => []
              end
  | None => []
  end.

Definition valid_ptr (h : list ignore_patterns_t) (o : option nat) : Prop :=
  match o with
  | Some i => (i < List.length h)%nat
  | None => True
  end.

(** The heap grew and no set changed its patterns. *)
Definition heap_le (h h' : list ignore_patterns_t) : Prop :=
  (List.length h <= List.length h')%nat
  /\ forall i p, h !! i = Some p ->
                 exists p', h' !! i = Some p' /\ patterns p' = patterns p.

Definition ptr_sim (h1 h2 : list ignore_patterns_t) (o1 o2 : option nat)
  : Prop :=
  valid_ptr h1 o1 /\ valid_ptr h2 o2 /\ patterns_at h1 o1 = patterns_at h2 o2.

(** Corresponding tasks of the two walks: same directory and depth, the
    same inherited patterns; the directory was reached from [root], and
    at [dir] and above it nothing is inherited. *)
Definition task_sim (dir root : string) (h1 h2 : list ignore_patterns_t)
    (t1 t2 : search_task_arg_t) : Prop :=
  path t1 = path t2 /\ current_depth t1 = current_depth t2
  /\ ptr_sim h1 h2 (parent_ignore t1) (parent_ignore t2)
  /\ reach root (path t1)
  /\ (anc dir (path t1) -> patterns_at h1 (parent_ignore t1) = []).

Definition slot_sim (dir root : string) (h1 h2 : list ignore_patterns_t)
    (s1 s2 : option search_task_arg_t) : Prop :=
  match s1, s2 with
  | Some t1, Some t2 => task_sim dir root h1 h2 t1 t2
  | None, None => True
  | _, _ => False
  end.

Definition pool_sim (dir root : string) (h1 h2 : list ignore_patterns_t)
    (p1 p2 : threadpool_t) : Prop :=
  queue_size p1 = queue_size p2 /\ head p1 = head p2 /\ tail p1 = tail p2
  /\ count p1 = count p2 /\ shutdown p1 = shutdown p2
  /\ Forall2 (slot_sim dir root h1 h2) (queue p1) (queue p2).

Definition world_sim (dir root : string) (w1 w2 : world) : Prop :=
  pool_sim dir root (heap w1) (heap w2) (pool w1) (pool w2)
  /\ active_tasks w1 = active_tasks w2 /\ rest_eq w1 w2.

(** The steps of [spawn_child] once the set to share is chosen. *)
Definition submit_child (inherited : option nat) (full_path : string)
    (depth : Z) (w : world) : world :=
  let w := match inherited with
           | Some i => incr_refcount i w
           | None => w
           end in
  let new_task := mkTask full_path depth inherited in
  let w := set_active_tasks (active_tasks w + 1) w in
  let '(p, r) := threadpool_add (pool w) new_task in
  if r =? 0 then set_pool p w
  else free_ignore_patterns (parent_ignore new_task)
         (set_active_tasks (active_tasks w - 1) w).

(** Corresponding results of the worker loop in the two walks. *)
Definition pool_result_sim (dir root : string) (r1 r2 : world + outcome)
  : Prop :=
  match r1, r2 with
  | inl u1, inl u2 => world_sim dir root u1 u2
  | inr o1, inr o2 => same_report o1 o2
  | _, _ => False
  end.

(** The directory a with an ignore file that holds a comment and a blank
    line, next to x.txt. *)
Definition comment_only_env : environment :=
  with_files [("a", ["."; ".."; ".gitignore"; "x.txt"])]
             [("a", dir_stat); ("a/.gitignore", file_stat 11 100);
              ("a/x.txt", file_stat 1 100)]
             [("a/.gitignore", "# nothing" +:+ NL +:+ NL); ("a/x.txt", "x")]
             bare_env.

(** a/.gitignore lists the name secret, a/b/.gitignore is empty, and the
    file a/b/c/secret lies two levels below a. *)
Definition nested_env : environment :=
  with_files [("a", ["."; ".."; ".gitignore"; "b"]);
              ("a/b", ["."; ".."; ".gitignore"; "c"]);
              ("a/b/c", ["."; ".."; "secret"])]
             [("a", dir_stat); ("a/.gitignore", file_stat 7 100);
              ("a/b", dir_stat); ("a/b/.gitignore", file_stat 0 100);
              ("a/b/c", dir_stat); ("a/b/c/secret", file_stat 1 100)]
             [("a/.gitignore", "secret" +:+ NL); ("a/b/.gitignore", "");
              ("a/b/c/secret", "s")]
             bare_env.

(** The names of a listed file system hold no slash, as a check. *)
Definition no_slash_b (name : string) : bool :=
  negb (existsb (Ascii.eqb "/") (list_ascii_of_string name)).
Definition all_names_ok_b (dirs : list (string * list string)) : bool :=
  forallb (fun d => forallb no_slash_b (snd d)) dirs.

(** A world whose one-slot queue is full while the running task holds
    the only ignore set. *)
Definition crowded_world : world :=
  mkWorld (mkPool [Some (mkTask "a/b" 1 (Some 0%nat))] 1 0 0 1 false)
          [mkIgnore ["node_modules"] 2 false] 2 0 0 0
          (fresh_stream false) (fresh_stream false) [].

(** A line of an ignore file that yields no pattern: blank or a comment. *)
Definition no_pattern_line (l : string) : bool :=
  Ascii.eqb (deref (cut_at_eol l)) "#" || Ascii.eqb (deref (cut_at_eol l)) zero.

(** Scenario 4: files of 100, 1024 and 2048 bytes in the directory s. *)
Definition sizes_env : environment :=
  with_files [("s", ["."; ".."; "small"; "exact"; "big"])]
             [("s", dir_stat); ("s/small", file_stat 100 100);
              ("s/exact", file_stat 1024 100); ("s/big", file_stat 2048 100)]
             [] bare_env.

(** Closing a goal [balanced d w w']. *)
Ltac close_balanced :=
  split; [assumption|split; [first [assumption|reflexivity|congruence]|lia]].

(** The live sets at the addresses below [n] lost no reference between
    the heaps [h] and [h'], and were not freed. *)
Definition kept_below (n : nat) (h h' : list ignore_patterns_t) : Prop :=
  forall j p, (j < n)%nat -> h !! j = Some p -> 0 < refcount p ->
              exists p', h' !! j = Some p' /\ refcount p <= refcount p'
                         /\ freed p' = freed p.

(** ** The pool as a queue

    The tasks waiting in the ring buffer, oldest first: the [count] slots
    from [head] on. *)
Definition pending (p : threadpool_t) : list (option search_task_arg_t) :=
  map (fun k => mjoin (queue p !! ((head p + k) mod queue_size p)%nat))
      (seq 0 (count p)).

(** A pool with four slots of which the last and the first are taken: the
    ring has wrapped around. *)
Definition wrapped_pool : threadpool_t :=
  mkPool [Some (mkTask "b" 1 None); None; None; Some (mkTask "a" 1 None)]
         4 3 1 2 false.

(** ** The statistics counters *)

(** The three counters are unchanged. *)
Definition same_counters (w w' : world) : Prop :=
  files_scanned w' = files_scanned w /\ dirs_scanned w' = dirs_scanned w
  /\ matches_found w' = matches_found w.

(** No counter is negative, and the files counted are among the matches. *)
Definition counters_ok (w : world) : Prop :=
  0 <= files_scanned w <= matches_found w /\ 0 <= dirs_scanned w.

(** Every waiting task is at depth [d] at most. *)
Definition depth_bounded (d : Z) (p : threadpool_t) : Prop :=
  forall t, In (Some t) (pending p) -> current_depth t <= d.

(** A run of [main] that either stopped in the setup or returned after the
    walk with exit code 0 in a world where [P] holds. *)
Definition ends_with_world (P : world -> Prop) (o : outcome) : Prop :=
  match o with
  | SetupExit _ => True
  | Exit code w => code = 0 /\ P w
  | _ => False
  end.

(** The configuration of the depth scenarios: any name, start at a. *)
Definition from_a (depth : Z) : search_config_t :=
  with_root_dir "a" (with_max_depth depth any_name).

(** ** What a walk writes and requests

    A match is the path and the [stat] of the entry.  [shown env cfg n m]
    is what [handle_match] writes for the match that brought
    [matches_found] to [n], [requested cfg ms] what it asks the exec and
    delete hooks to do for the matches [ms]. *)
Definition handler_off (cfg : search_config_t) : bool :=
  with_line_number cfg && compiled (content_regex cfg).

Definition long_listing_line (env : environment) (path : string) (sb : stat)
  : string :=
  format_permissions (st_mode sb) +:+ " "
    +:+ pad_left 4 (dec (st_nlink sb)) +:+ " "
    +:+ pad_right 8 (dec (wrap32 (st_uid sb))) +:+ " "
    +:+ pad_right 8 (dec (wrap32 (st_gid sb))) +:+ " "
    +:+ pad_left 8 (dec (st_size sb)) +:+ " "
    +:+ strftime_local env (st_mtime sb) +:+ " " +:+ path +:+ NL.

Definition shown (env : environment) (cfg : search_config_t) (n : Z)
    (m : string * stat) : string :=
  match exec_command cfg with
  | Some _ => ""
  | None =>
      if delete_files cfg then ""
      else if long_listing cfg then long_listing_line env (fst m) (snd m)
      else if String.eqb (output_format cfg) "json" then
        (if 1 <? n then "," +:+ NL else "")
        +:+ json_record (fst m) (type_char_of (snd m)) (snd m)
      else if String.eqb (output_format cfg) "csv" then
        csv_record (fst m) (type_char_of (snd m)) (snd m)
      else text_record cfg (fst m) (type_char_of (snd m)) (snd m)
  end.

Fixpoint body (env : environment) (cfg : search_config_t) (n : Z)
    (ms : list (string * stat)) : string :=
  match ms with
  | [] => ""
  | m :: ms' => shown env cfg n m +:+ body env cfg (n + 1) ms'
  end.

Definition requested (cfg : search_config_t) (ms : list (string * stat))
  : list action :=
  if handler_off cfg then []
  else match exec_command cfg with
       | Some command => map (fun m => Exec command (fst m)) ms
       | None =>
           if delete_files cfg
           then map (fun m => Delete (fst m) (type_char_of (snd m))) ms
           else []
       end.

(** From [w] to [w'] the matches [ms] were handled and nothing else was
    written or requested. *)
Definition extends (env : environment) (cfg : search_config_t)
    (ms : list (string * stat)) (w w' : world) : Prop :=
  matches_found w' = matches_found w + Z.of_nat (List.length ms)
  /\ actions w' = (actions w ++ requested cfg ms)%list
  /\ (handler_off cfg = false ->
      out_stream w'
      = fputs (body env cfg (matches_found w + 1) ms) (out_stream w)).

(** The first and the last lines of the output (main.c lines 135-136 and
    159-165, the latter on a stream that cannot seek). *)
Definition header (cfg : search_config_t) : string :=
  (if String.eqb (output_format cfg) "json" then "[" +:+ NL else "")
  +:+ (if String.eqb (output_format cfg) "csv"
       then "path,type,size,mtime" +:+ NL else "").

Definition trailer (cfg : search_config_t) (ms : list (string * stat))
  : string :=
  if String.eqb (output_format cfg) "json"
  then (match ms with [] => "" | _ => NL end) +:+ "]" +:+ NL
  else "".




(** main.c line 132: the number of worker threads of the pool, one
    unless the threads option says otherwise. *)
Definition workers (env : environment) (cfg : search_config_t) : Z :=
  if 0 <? num_threads cfg then num_threads cfg else nprocs env.

(** The configuration and the world in which the walk starts, when the
    options are accepted and the setup succeeds. *)
Definition setup_of (env : environment) (opts : list (opt * string))
    (positional : option string) : option (search_config_t * world) :=
  match parse_options env opts (mkLocals init_search_config None None) with
  | inl _ => None
  | inr l =>
      match setup env l positional with
      | inl _ => None
      | inr cw => Some cw
      end
  end.

Definition delete_and_exec : list (opt * string) :=
  [(OptPattern, ".*"); (OptDirectory, "a"); (OptDelete, "");
   (OptExec, "echo")].

Definition csv_to_pipe : list (opt * string) :=
  [(OptPattern, ".*"); (OptDirectory, "a"); (OptFormat, "csv")].

(** ** Arguments of the options *)

(** A string of octal digits and its value. *)
Definition octal_digit (d : nat) : ascii := ascii_of_nat (48 + d).
Definition octal_string (ds : list nat) : string :=
  string_of_list_ascii (map octal_digit ds).
Definition octal_value (ds : list nat) : Z :=
  fold_left (fun acc d => acc * 8 + Z.of_nat d) ds 0.

(** The character occurs in the string. *)
Fixpoint occurs (c : ascii) (s : string) : bool :=
  match s with
  | EmptyString => false
  | String x s' => Ascii.eqb x c || occurs c s'
  end.

(** The string in lower case. *)
Fixpoint lower (s : string) : string :=
  match s with
  | EmptyString => EmptyString
  | String c s' => String (tolower c) (lower s')
  end.

(** The day suffix of a time argument: end of argument, d or D. *)
Definition day_suffix (c : ascii) : bool :=
  Ascii.eqb c zero || Ascii.eqb c "d" || Ascii.eqb c "D".

(** ** Entries the walker passes over

    The tests of lines 161-187 for an entry whose [lstat] gave [sb]: the
    entry is neither reported nor descended into. *)
Definition skipped (env : environment) (cfg : search_config_t)
    (task : search_task_arg_t) (local_ignore : option nat) (w : world)
    (d_name : string) : bool :=
  String.eqb d_name "." || String.eqb d_name ".."
  || (no_hidden cfg && Ascii.eqb (deref d_name) ".")
  || existsb (String.eqb d_name) (exclude_dirs cfg)
  || (ignore_vcs cfg
      && (is_ignored env d_name local_ignore w
          || is_ignored env d_name (parent_ignore task) w)).

(** A configuration whose name pattern matches nothing. *)
Definition no_name : search_config_t :=
  with_type_mask 7 (with_name_regex (mkRegex true (fun _ => false))
                                    init_search_config).

Definition ignore_text : string :=
  "# build output" +:+ NL +:+ "*.log   " +:+ NL +:+ NL +:+ " keep" +:+ NL.

(** ** Reference counts

    [holds o i] is 1 when the pointer [o] is the address [i]; [refs l i]
    counts the waiting tasks of [l] that inherited the set at [i];
    [allowance h i] is the reference count of the set at [i]. *)
Definition holds (o : option nat) (i : nat) : Z :=
  match o with
  | Some j => if (j =? i)%nat then 1 else 0
  | None => 0
  end.

Definition refs (l : list (option search_task_arg_t)) (i : nat) : Z :=
  fold_right (fun o acc =>
                match o with
                | Some t => holds (parent_ignore t) i + acc
                | None => acc
                end) 0 l.

Definition allowance (h : list ignore_patterns_t) (i : nat) : Z :=
  match h !! i with
  | Some p => refcount p
  | None => 0
  end.

(** A set is freed exactly when its count is 0, and no count is negative. *)
Definition consistent (p : ignore_patterns_t) : Prop :=
  0 <= refcount p /\ freed p = (refcount p =? 0).

(** Every reference is counted: the count of each set covers the waiting
    tasks that inherited it and the [extra] references of the running
    task. *)
Definition counted (extra : nat -> Z) (p : threadpool_t)
    (h : list ignore_patterns_t) : Prop :=
  ring_ok p /\ Forall consistent h
  /\ forall i, refs (pending p) i + extra i <= allowance h i.

(** The world of a run that returned after the walk or stopped for lack
    of rounds. *)
Definition reached (o : outcome) : option world :=
  match o with
  | Exit _ w | OutOfFuel w => Some w
  | _ => None
  end.

(** ** search.c: the command line of [perform_exec]

    [strstr(s, needle)]: the text before the first occurrence of [needle]
    and the text after it, [None] for NULL. *)
Fixpoint starts_with (needle s : string) : bool :=
  match needle, s with
  | EmptyString, _ => true
  | String a needle', String b s' => Ascii.eqb a b && starts_with needle' s'
  | String _ _, EmptyString => false
  end.

Fixpoint strstr (needle s : string) : option (string * string) :=
  if starts_with needle s
  then Some (EmptyString, drop_chars (String.length needle) s)
  else match s with
       | EmptyString => None
       | String c s' =>
           match strstr needle s' with
           | Some (before, after) => Some (String c before, after)
           | None => None
           end
       end.

(** [snprintf(buf, size, ...)] keeps the first [size - 1] bytes. *)
Fixpoint snprintf (size : nat) (s : string) : string :=
  match size, s with
  | S (S n), String c s' => String c (snprintf (S n) s')
  | _, _ => EmptyString
  end.

Definition PATH_MAX : nat := 4096.

Definition QUOTE : string := "'".

(** Lines 324-333: the command that the child hands to [sh -c]. *)
Definition final_cmd (command_template path : string) : string :=
  match strstr "{}" command_template with
  | Some (cmd_copy, rest) =>
      snprintf (PATH_MAX * 2) (cmd_copy +:+ QUOTE +:+ path +:+ QUOTE +:+ rest)
  | None =>
      snprintf (PATH_MAX * 2)
               (command_template +:+ " " +:+ QUOTE +:+ path +:+ QUOTE)
  end.

(** main.c lines 159-169: the end of [main] once the pool is destroyed. *)
Definition walk_end (env : environment) (cfg : search_config_t) (w : world)
  : world :=
  let w := json_trailer cfg w in
  set_err_stream (fputs (summary env w) (err_stream w)) w.

(** A system in which the directory a cannot be opened. *)
Definition locked_env : environment :=
  with_files [] [("a", dir_stat)] [] bare_env.

(** ** The size of a walk with a depth limit

    A bound for the number of tasks that the walk of a directory runs
    when [levels] more levels may be descended: the task of the
    directory and those of its entries. *)
Fixpoint subtree_cost (env : environment) (levels : nat) (dir : string)
  : nat :=
  match levels with
  | O => 1
  | S levels' =>
      S (match opendir env dir with
         | None => 0
         | Some names =>
             list_sum (map (fun n => subtree_cost env levels'
                                       (dir +:+ "/" +:+ n)) names)
         end)
  end.

Definition task_cost (env : environment) (limit : Z)
    (t : search_task_arg_t) : nat :=
  subtree_cost env (Z.to_nat (limit - current_depth t)) (path t).

Definition pending_cost (env : environment) (limit : Z)
    (l : list (option search_task_arg_t)) : nat :=
  list_sum (map (fun o => match o with
                          | Some t => task_cost env limit t
                          | None => 0%nat
                          end) l).

Definition depth_one : list (opt * string) :=
  [(OptPattern, ".*"); (OptDirectory, "a"); (OptMaxDepth, "1")].

(** ** The size of a walk of a finite tree

    An entry of [dir] that the walker takes for a directory to descend
    into: not "." or "..", and a directory by its [lstat] type. *)
Definition is_subdir (env : environment) (dir d_name : string) : bool :=
  negb (String.eqb d_name "." || String.eqb d_name "..")
  && match lstat env (dir +:+ "/" +:+ d_name) with
     | Some sb => S_ISDIR (st_mode sb)
     | None => false
     end.

(** No directory lies more than [levels] levels below [dir]. *)
Fixpoint shallow (env : environment) (levels : nat) (dir : string) : bool :=
  match opendir env dir with
  | None => true
  | Some names =>
      forallb (fun n => negb (is_subdir env dir n)
                        || match levels with
                           | O => false
                           | S levels' =>
                               shallow env levels' (dir +:+ "/" +:+ n)
                           end) names
  end.

(** A queued task of a walk whose starting directory has no directory
    more than [n] levels below it. *)
Definition shallow_task (env : environment) (n : nat)
    (o : option search_task_arg_t) : Prop :=
  match o with
  | Some t => shallow env (Z.to_nat (Z.of_nat n - current_depth t)) (path t)
              = true
  | None => True
  end.

(** search.c lines 161-286 from some entry on: the entries [names] that
    [readdir] still returns, then the release of the local ignore set and
    the decrement of [active_tasks]. *)
Definition rest_of_task (env : environment) (cfg : search_config_t)
    (task : search_task_arg_t) (local_ignore : option nat)
    (names : list string) (w : world) : world :=
  let w := fold_left (process_entry env cfg task local_ignore) names w in
  let w := free_ignore_patterns local_ignore w in
  set_active_tasks (active_tasks w - 1) w.

(** * Properties *)

(** ** The C library model *)

Lemma fgets_aux_length room fp :
  (String.length (fst (fgets_aux room fp))
   + String.length (snd (fgets_aux room fp)))%nat = String.length fp.
Proof.
  revert fp; induction room as [|r IH]; intros [|c rest]; simpl; try reflexivity.
  destruct (Ascii.eqb c newline); simpl; [reflexivity|].
  specialize (IH rest). destruct (fgets_aux r rest) as [l rest']; simpl in *.
  lia.
Qed.

(** *** The read loops reach the end of the file *)

Lemma fgets_consumes size fp chunk rest :
  (2 <= size)%nat -> fgets size fp = Some (chunk, rest) ->
  (String.length rest < String.length fp)%nat.
Proof.
  intros Hsize. unfold fgets. destruct fp as [|c fp]; [discriminate|].
  destruct size as [|[|room]]; try lia. simpl Nat.sub.
  pose proof (fgets_aux_length (S room) (String c fp)) as Hlen.
  destruct (fgets_aux (S room) (String c fp)) as [l r] eqn:E.
  intros [= <- <-]. simpl in E.
  destruct (Ascii.eqb c newline).
  - injection E as <- <-. simpl. lia.
  - destruct (fgets_aux room fp) as [l' r'] eqn:E'. injection E as <- <-.
    pose proof (fgets_aux_length room fp) as Hlen'. rewrite E' in Hlen'.
    simpl in *. lia.
Qed.

(** [String.length fp] rounds are enough for the content scan: more
    rounds change nothing. *)
Lemma scan_lines_rounds cfg path : forall r r' fp line_num found w,
  (String.length fp <= r)%nat -> (String.length fp <= r')%nat ->
  scan_lines r cfg path fp line_num found w
  = scan_lines r' cfg path fp line_num found w.
Proof.
  induction r as [|r IH]; intros r' fp n found w Hr Hr'.
  - destruct fp; [|simpl in Hr; lia]. destruct r'; reflexivity.
  - destruct r' as [|r'].
    + destruct fp; [reflexivity|simpl in Hr'; lia].
    + cbn [scan_lines]. destruct (fgets 4096 fp) as [[buffer rest]|] eqn:E;
        [|reflexivity].
      pose proof (fgets_consumes 4096 fp buffer rest ltac:(lia) E) as Hlt.
      destruct (match_regex (content_regex cfg) buffer);
        [destruct (with_line_number cfg); [|reflexivity]|];
        apply IH; lia.
Qed.

Lemma read_patterns_rounds : forall r r' fp,
  (String.length fp <= r)%nat -> (String.length fp <= r')%nat ->
  read_patterns r fp = read_patterns r' fp.
Proof.
  induction r as [|r IH]; intros r' fp Hr Hr'.
  - destruct fp; [|simpl in Hr; lia]. destruct r'; reflexivity.
  - destruct r' as [|r'].
    + destruct fp; [reflexivity|simpl in Hr'; lia].
    + cbn [read_patterns]. destruct (fgets 1024 fp) as [[line rest]|] eqn:E;
        [|reflexivity].
      pose proof (fgets_consumes 1024 fp line rest ltac:(lia) E) as Hlt.
      rewrite (IH r' rest) by lia. reflexivity.
Qed.

(** ** C1: the mtime predicate *)

Lemma comparator_prefix_plus rest : comparator_prefix (String "+" rest) = (1, rest).
Proof. reflexivity. Qed.

Lemma comparator_prefix_minus rest : comparator_prefix (String "-" rest) = (-1, rest).
Proof. reflexivity. Qed.

Lemma handle_option_mtime env optarg l l' :
  handle_option env OptMtime optarg l = inr l' ->
  mtime_op (config l') = fst (comparator_prefix optarg)
  /\ mtime_filter (config l') = parse_time_string (snd (comparator_prefix optarg))
  /\ 0 <= mtime_filter (config l').
Proof.
  unfold handle_option.
  destruct (comparator_prefix optarg) as [op arg]; simpl.
  destruct (parse_time_string arg <? 0) eqn:E; [discriminate|].
  intros [= <-]; simpl. apply Z.ltb_ge in E. auto.
Qed.

(** C1 (amended).  After "--mtime" with a '+' prefix a regular file
    passes the mtime predicate iff its age [now - st_mtime] is strictly
    greater than the threshold; with a '-' prefix, iff its age is
    strictly less than the threshold. *)
Theorem mtime_predicate_strict env optarg l l' sb :
  handle_option env OptMtime optarg l = inr l' ->
  S_ISREG (st_mode sb) = true ->
  (deref optarg = "+"%char ->
   (mtime_rejects env (config l') sb = false
    <-> mtime_filter (config l') < time_now env - st_mtime sb))
  /\ (deref optarg = "-"%char ->
      (mtime_rejects env (config l') sb = false
       <-> time_now env - st_mtime sb < mtime_filter (config l'))).
Proof.
  intros H Hreg. apply handle_option_mtime in H as (Hop & _ & _).
  unfold mtime_rejects. rewrite Hreg, Hop. simpl negb.
  split; intros Hc; destruct optarg as [|c rest]; simpl in Hc;
    try discriminate; subst c; simpl fst; simpl.
  - rewrite Z.leb_gt. reflexivity.
  - rewrite orb_false_r, Z.leb_gt. reflexivity.
Qed.

Lemma mtime_predicate_strict_witness :
  exists cfg, mtime_config "+7d" = Some cfg
  /\ (mtime_rejects bare_env cfg (file_stat 0 100) = false
      <-> mtime_filter cfg < time_now bare_env - st_mtime (file_stat 0 100)).
Proof.
  eexists; split; [reflexivity|].
  refine (proj1 (mtime_predicate_strict bare_env "+7d"
                   (mkLocals init_search_config None None) _ (file_stat 0 100)
                   eq_refl eq_refl) eq_refl).
Defined.

(** The claim as stated fails: a file aged exactly the threshold is
    rejected by '+' and by '-', and without a prefix a file of any age
    passes. *)
Lemma mtime_predicate_counterexample :
  let old := file_stat 0 (1000000 - 604800) in
  let young := file_stat 0 999999 in
  exists plus minus exact,
    mtime_config "+7d" = Some plus /\ mtime_config "-7d" = Some minus
    /\ mtime_config "7d" = Some exact
    /\ ~ (mtime_rejects bare_env plus old = false
          <-> mtime_filter plus <= time_now bare_env - st_mtime old)
    /\ ~ (mtime_rejects bare_env minus old = false
          <-> time_now bare_env - st_mtime old <= mtime_filter minus)
    /\ ~ (mtime_rejects bare_env exact young = false
          <-> time_now bare_env - st_mtime young = mtime_filter exact).
Proof.
  do 3 eexists. repeat (split; [reflexivity|]).
  repeat split; intros [H1 H2]; vm_compute in H1, H2.
  - discriminate H2. intros ?; discriminate.
  - discriminate H2. intros ?; discriminate.
  - specialize (H1 eq_refl). discriminate H1.
Qed.

(** ** C9: the size argument *)

Lemma wrap64_small z : LLONG_MIN <= z <= LLONG_MAX -> wrap64 z = z.
Proof.
  unfold wrap64, LLONG_MIN, LLONG_MAX. intros H.
  rewrite Z.mod_small; lia.
Qed.

Lemma toupper_is c :
  Ascii.eqb (toupper c) zero = Ascii.eqb c zero
  /\ Ascii.eqb (toupper c) "K" = Ascii.eqb c "K" || Ascii.eqb c "k"
  /\ Ascii.eqb (toupper c) "M" = Ascii.eqb c "M" || Ascii.eqb c "m"
  /\ Ascii.eqb (toupper c) "G" = Ascii.eqb c "G" || Ascii.eqb c "g".
Proof.
  destruct c as [b0 b1 b2 b3 b4 b5 b6 b7].
  destruct b0, b1, b2, b3, b4, b5, b6, b7; vm_compute; auto.
Qed.

Lemma parse_size_string_scaled arg N rest :
  strtoll 10 arg = Some (N, rest) ->
  match size_suffix_factor (deref rest) with
  | Some k => LLONG_MIN <= N * k <= LLONG_MAX -> parse_size_string arg = N * k
  | None => parse_size_string arg = -1
  end.
Proof.
  intros Hs. unfold parse_size_string, size_suffix_factor. rewrite Hs.
  destruct (toupper_is (deref rest)) as (-> & -> & -> & ->).
  set (c := deref rest).
  assert (Hw : forall a, LLONG_MIN <= a <= LLONG_MAX -> wrap64 a = a)
    by apply wrap64_small.
  destruct (Ascii.eqb c zero) eqn:E0, (Ascii.eqb c "K") eqn:E1,
    (Ascii.eqb c "k") eqn:E2, (Ascii.eqb c "M") eqn:E3,
    (Ascii.eqb c "m") eqn:E4, (Ascii.eqb c "G") eqn:E5,
    (Ascii.eqb c "g") eqn:E6; cbn [orb];
    try (exfalso;
         repeat match goal with
                | H : Ascii.eqb _ _ = true |- _ => apply Ascii.eqb_eq in H
                end; unfold zero in *; congruence);
    try reflexivity; intros Hfit; unfold LLONG_MIN, LLONG_MAX in *;
    try lia;
    try (rewrite (Hw (N * 1024)) by (unfold LLONG_MIN, LLONG_MAX; lia);
         try (rewrite (Hw (N * 1024 * 1024))
                by (unfold LLONG_MIN, LLONG_MAX; lia);
              try (rewrite (Hw (N * 1024 * 1024 * 1024))
                     by (unfold LLONG_MIN, LLONG_MAX; lia)));
         lia).
Qed.

Lemma handle_option_size env optarg l :
  let '(op, arg) := comparator_prefix optarg in
  handle_option env OptSize optarg l
  = if parse_size_string arg <? 0 then inl 1
    else inr (on_config (fun c => with_size_filter (parse_size_string arg)
                                    (with_size_op op c)) l).
Proof. unfold handle_option. destruct (comparator_prefix optarg). reflexivity. Qed.

Lemma parse_options_app env opts1 opts2 l :
  parse_options env (opts1 ++ opts2) l
  = match parse_options env opts1 l with
    | inl code => inl code
    | inr l' => parse_options env opts2 l'
    end.
Proof.
  revert l; induction opts1 as [|[o a] opts1 IH]; intros l; simpl; [reflexivity|].
  destruct (handle_option env o a l); [reflexivity|apply IH].
Qed.

(** A failing option ends [main] before the pool exists. *)
Lemma main_option_error env opts1 o optarg opts2 positional fuel l1 code :
  parse_options env opts1 no_locals = inr l1 ->
  handle_option env o optarg l1 = inl code ->
  main env (opts1 ++ (o, optarg) :: opts2) positional fuel = SetupExit code.
Proof.
  intros H1 H2. unfold main. fold no_locals.
  rewrite parse_options_app, H1. simpl. rewrite H2. reflexivity.
Qed.

(** C9 (amended).  The size argument is an optional '+' or '-', a decimal
    number N and the character after it: end of argument (bytes), K, M or
    G in either case (N times 1024, 1024^2, 1024^3).  When the product
    fits a [long long] and N is not negative, the threshold is the
    product; a negative number is a setup error.  Without a number, or
    with any other character after it (B included), whatever the number,
    [main] returns 1 while reading the options, before the pool is
    created. *)
Theorem size_argument env optarg l :
  let arg := snd (comparator_prefix optarg) in
  (strtoll 10 arg = None -> handle_option env OptSize optarg l = inl 1)
  /\ (forall N rest,
        strtoll 10 arg = Some (N, rest) ->
        match size_suffix_factor (deref rest) with
        | Some k =>
            LLONG_MIN <= N * k <= LLONG_MAX ->
            if N <? 0 then handle_option env OptSize optarg l = inl 1
            else
              exists l', handle_option env OptSize optarg l = inr l'
                         /\ size_filter (config l') = N * k
                         /\ size_op (config l') = fst (comparator_prefix optarg)
        | None => handle_option env OptSize optarg l = inl 1
        end)
  /\ (handle_option env OptSize optarg l = inl 1 ->
      forall opts1 opts2 positional fuel l1,
        parse_options env opts1 no_locals = inr l1 ->
        main env (opts1 ++ (OptSize, optarg) :: opts2) positional fuel
        = SetupExit 1).
Proof.
  pose proof (handle_option_size env optarg l) as Hl.
  destruct (comparator_prefix optarg) as [op arg] eqn:Hp. cbn [snd fst].
  split; [|split].
  - intros Hs. rewrite Hl. unfold parse_size_string. rewrite Hs. reflexivity.
  - intros N rest Hs.
    pose proof (parse_size_string_scaled arg N rest Hs) as Hv.
    assert (Hk : forall k, size_suffix_factor (deref rest) = Some k -> 1 <= k).
    { unfold size_suffix_factor. intros k.
      destruct (Ascii.eqb (deref rest) zero);
        [|destruct (Ascii.eqb (deref rest) "K" || Ascii.eqb (deref rest) "k");
          [|destruct (Ascii.eqb (deref rest) "M" || Ascii.eqb (deref rest) "m");
            [|destruct (Ascii.eqb (deref rest) "G"
                        || Ascii.eqb (deref rest) "g")]]];
        intros [= <-]; lia. }
    destruct (size_suffix_factor (deref rest)) as [k|].
    + intros Hfit. specialize (Hk k eq_refl). rewrite Hl, (Hv Hfit).
      destruct (N <? 0) eqn:EN.
      * apply Z.ltb_lt in EN.
        replace (N * k <? 0) with true by (symmetry; apply Z.ltb_lt; nia).
        reflexivity.
      * apply Z.ltb_ge in EN.
        replace (N * k <? 0) with false by (symmetry; apply Z.ltb_ge; nia).
        eexists. split; [reflexivity|split; reflexivity].
    + rewrite Hl, Hv. reflexivity.
  - intros Hf opts1 opts2 positional fuel l1 H1.
    apply (main_option_error env opts1 OptSize optarg opts2 positional fuel l1 1 H1).
    pose proof (handle_option_size env optarg l1) as Hl1.
    rewrite Hp in Hl1. rewrite Hl1. rewrite Hl in Hf.
    destruct (parse_size_string arg <? 0); [reflexivity|discriminate].
Qed.

(** Ten kilobytes and ten thousand million bytes are thresholds, a
    negative number and the suffix B are setup errors. *)
Lemma size_argument_witness :
  (exists l', handle_option bare_env OptSize "+10K" no_locals = inr l'
              /\ size_filter (config l') = 10 * 1024
              /\ size_op (config l') = 1)
  /\ (exists l', handle_option bare_env OptSize "10000000000" no_locals = inr l'
                 /\ size_filter (config l') = 10000000000 * 1
                 /\ size_op (config l') = 0)
  /\ handle_option bare_env OptSize "+-5K" no_locals = inl 1
  /\ handle_option bare_env OptSize "99999999999999B" no_locals = inl 1
  /\ main bare_env [(OptPattern, ".*"); (OptSize, "10B")] None 0 = SetupExit 1.
Proof.
  pose proof (size_argument bare_env "+10K" no_locals) as (_ & H1 & _).
  specialize (H1 10 "K" eq_refl). cbn in H1.
  pose proof (size_argument bare_env "10000000000" no_locals) as (_ & H2 & _).
  specialize (H2 10000000000 "" eq_refl). cbn in H2.
  pose proof (size_argument bare_env "+-5K" no_locals) as (_ & H3 & _).
  specialize (H3 (-5) "K" eq_refl). cbn in H3.
  pose proof (size_argument bare_env "99999999999999B" no_locals) as (_ & H4 & _).
  specialize (H4 99999999999999 "B" eq_refl). cbn in H4.
  pose proof (size_argument bare_env "10B" no_locals) as (_ & _ & H5).
  split; [apply H1; unfold LLONG_MIN, LLONG_MAX; lia|].
  split; [apply H2; unfold LLONG_MIN, LLONG_MAX; lia|].
  split; [apply H3; unfold LLONG_MIN, LLONG_MAX; lia|].
  split; [exact H4|].
  exact (H5 eq_refl [(OptPattern, ".*")] [] None 0%nat _ eq_refl).
Defined.

(** The claim as stated fails: the suffix B is a setup error, and an
    argument outside the format ("10KB") is accepted as 10K. *)
Lemma size_argument_counterexample :
  handle_option bare_env OptSize "100B" no_locals = inl 1
  /\ exists l', handle_option bare_env OptSize "10KB" no_locals = inr l'
                /\ size_filter (config l') = 10240.
Proof. split; [reflexivity|]. eexists; split; reflexivity. Qed.

(** ** C5: the order of the filter chain *)

(** C5.  The chain of [search_directory] is the evaluation of the eight
    predicates in the order type mask, name, size, mtime, extension,
    content, owner, permissions that stops at the first failure: the
    entry matches iff none fails, and the world is the one left by the
    predicates up to the first failure.  The size, mtime, extension and
    content predicates, when configured, fail for an entry that is not a
    regular file, without touching the world. *)
Theorem filter_order_short_circuit env cfg name full_path sb w :
  entry_filter env cfg name full_path sb w
  = (bool_decide (fst (eval_in_order env cfg name full_path sb spec_order w)
                  = None),
     snd (eval_in_order env cfg name full_path sb spec_order w))
  /\ forall p, regular_only p = true -> configured cfg p = true ->
                S_ISREG (st_mode sb) = false ->
                eval_predicate env cfg name full_path sb p w = (false, w).
Proof.
  split.
  - unfold entry_filter, spec_order, eval_in_order, eval_predicate, configured.
    cbn [negb].
    destruct (extension cfg) as [ext|]; cbn [is_Some_b negb];
      (destruct (type_ok cfg sb); cbn [negb andb fst snd]; [|reflexivity]);
      (destruct (match_regex (name_regex cfg) name); cbn [negb andb];
       [|reflexivity]);
      (destruct (0 <=? size_filter cfg); cbn [negb andb];
       [destruct (size_rejects cfg sb); cbn [negb andb]; [reflexivity|]|]);
      (destruct (0 <=? mtime_filter cfg); cbn [negb andb];
       [destruct (mtime_rejects env cfg sb); cbn [negb andb]; [reflexivity|]|]);
      try (destruct (extension_rejects cfg ext name sb); cbn [negb andb];
           [reflexivity|]);
      (destruct (compiled (content_regex cfg)); cbn [negb andb];
       [destruct (content_rejects env cfg full_path sb w) as [[|] w'];
        cbn [negb andb]; [reflexivity|]|]);
      (destruct (owner_filter_enabled cfg); cbn [negb andb];
       [destruct (owner_rejects cfg sb); cbn [negb andb]; [reflexivity|]|]);
      (destruct (perms_filter_enabled cfg); cbn [negb andb];
       [destruct (perms_rejects cfg sb); cbn [negb]; reflexivity|reflexivity]).
  - intros p Hp Hc Hreg. unfold eval_predicate. rewrite Hc. cbn [negb].
    destruct p; try discriminate Hp.
    + unfold size_rejects. rewrite Hreg. reflexivity.
    + unfold mtime_rejects. rewrite Hreg. reflexivity.
    + simpl in Hc. destruct (extension cfg); [|discriminate].
      unfold extension_rejects. rewrite Hreg. reflexivity.
    + unfold content_rejects. rewrite Hreg. reflexivity.
Qed.

Lemma filter_order_short_circuit_witness :
  eval_predicate bare_env (with_size_filter 0 init_search_config) "b" "a/b"
                 dir_stat PSize (mkWorld (mkPool [] 0 0 0 0 false) [] 0 0 0 0
                                         (fresh_stream false)
                                         (fresh_stream false) [])
  = (false, mkWorld (mkPool [] 0 0 0 0 false) [] 0 0 0 0 (fresh_stream false)
                    (fresh_stream false) []).
Proof.
  exact (proj2 (filter_order_short_circuit bare_env
                  (with_size_filter 0 init_search_config) "b" "a/b" dir_stat _)
               PSize eq_refl eq_refl eq_refl).
Defined.

(** ** What the filter and the match handler leave alone *)

Lemma same_tasks_refl w : same_tasks w w.
Proof. repeat split. Qed.

Lemma same_tasks_trans w1 w2 w3 :
  same_tasks w1 w2 -> same_tasks w2 w3 -> same_tasks w1 w3.
Proof. unfold same_tasks. intros (-> & -> & ->) (-> & -> & ->). auto. Qed.

Lemma scan_lines_same_tasks rounds cfg path fp line_num found w :
  same_tasks w (snd (scan_lines rounds cfg path fp line_num found w)).
Proof.
  revert fp line_num found w.
  induction rounds as [|r IH]; intros fp n found w; simpl;
    [apply same_tasks_refl|].
  destruct (fgets 4096 fp) as [[buffer fp']|]; [|apply same_tasks_refl].
  destruct (match_regex (content_regex cfg) buffer).
  - destruct (with_line_number cfg); [|apply same_tasks_refl].
    eapply same_tasks_trans; [|apply IH]. repeat split.
  - apply IH.
Qed.

Lemma search_file_content_same_tasks env cfg path w :
  same_tasks w (snd (search_file_content env cfg path w)).
Proof.
  unfold search_file_content.
  destruct (compiled (content_regex cfg)); simpl; [|apply same_tasks_refl].
  destruct (fopen_r env path) as [fp|]; [|apply same_tasks_refl].
  pose proof (scan_lines_same_tasks (String.length fp) cfg path fp 1 false w).
  destruct (scan_lines _ _ _ _ _ _ _). assumption.
Qed.

Lemma content_rejects_same_tasks env cfg full_path sb w :
  same_tasks w (snd (content_rejects env cfg full_path sb w)).
Proof.
  unfold content_rejects.
  destruct (S_ISREG (st_mode sb)); simpl; [|apply same_tasks_refl].
  pose proof (search_file_content_same_tasks env cfg full_path w).
  destruct (search_file_content _ _ _ _). assumption.
Qed.

Lemma entry_filter_same_tasks env cfg name full_path sb w :
  same_tasks w (snd (entry_filter env cfg name full_path sb w)).
Proof.
  unfold entry_filter.
  match goal with
  | |- context [if ?b && compiled (content_regex cfg) then _ else _] =>
      destruct (b && compiled (content_regex cfg))
  end; [|apply same_tasks_refl].
  pose proof (content_rejects_same_tasks env cfg full_path sb w).
  destruct (content_rejects _ _ _ _ _). assumption.
Qed.

Lemma print_result_same_tasks env cfg path c sb w :
  same_tasks w (print_result env cfg path c sb w).
Proof.
  unfold print_result, print_long_listing.
  repeat match goal with
         | |- context [if ?b then _ else _] => destruct b
         end; repeat split.
Qed.

Lemma handle_match_same_tasks env cfg path c sb w :
  same_tasks w (handle_match env cfg path c sb w).
Proof.
  unfold handle_match.
  destruct (with_line_number cfg && compiled (content_regex cfg));
    [apply same_tasks_refl|].
  destruct (exec_command cfg); [repeat split|].
  destruct (delete_files cfg); [repeat split|apply print_result_same_tasks].
Qed.

Lemma report_match_same_tasks env cfg full_path sb w :
  same_tasks w (report_match env cfg full_path sb w).
Proof.
  unfold report_match.
  eapply same_tasks_trans; [|apply handle_match_same_tasks].
  destruct (S_ISREG (st_mode sb)); repeat split.
Qed.

(** ** C3: symbolic links *)

Lemma S_ISLNK_not_dir m : S_ISLNK m = true -> S_ISDIR m = false.
Proof.
  unfold S_ISLNK, S_ISDIR. intros H. apply Z.eqb_eq in H. rewrite H. reflexivity.
Qed.

Lemma S_ISLNK_not_reg m : S_ISLNK m = true -> S_ISREG m = false.
Proof.
  unfold S_ISLNK, S_ISREG. intros H. apply Z.eqb_eq in H. rewrite H. reflexivity.
Qed.

(** C3.  An entry that [lstat] reports as a symbolic link never yields a
    child task, whatever its target: processing it leaves the queue, the
    task counter and the ignore sets as they were.  The link is reported
    subject to the filters, as a link: unless the entry is passed over
    (a dot entry, hidden, excluded or ignored), it goes through the
    filter, and exactly when the filter lets it pass the counter of
    matches goes up by one and the entry is handed to the match handler
    with the type character 'l'; the counter of files stays. *)
Theorem symlink_no_child_task env cfg task local_ignore w d_name sb :
  lstat env (path task +:+ "/" +:+ d_name) = Some sb ->
  S_ISLNK (st_mode sb) = true ->
  let full_path := path task +:+ "/" +:+ d_name in
  let w' := process_entry env cfg task local_ignore w d_name in
  same_tasks w w'
  /\ w' = if skipped env cfg task local_ignore w d_name then w
          else
            let '(is_match, w1) :=
              entry_filter env cfg d_name full_path sb w in
            if is_match
            then handle_match env cfg full_path "l" sb
                   (set_matches_found (matches_found w1 + 1) w1)
            else w1.
Proof.
  intros Hl Hlnk full_path w'. subst w' full_path.
  unfold process_entry, skipped.
  destruct (String.eqb d_name "." || String.eqb d_name "..");
    [split; [apply same_tasks_refl|reflexivity]|].
  rewrite Hl. cbn [orb].
  destruct (no_hidden cfg && Ascii.eqb (deref d_name) ".");
    [split; [apply same_tasks_refl|reflexivity]|].
  cbn [orb].
  destruct (existsb (String.eqb d_name) (exclude_dirs cfg));
    [split; [apply same_tasks_refl|reflexivity]|].
  cbn [orb].
  destruct (ignore_vcs cfg && _);
    [split; [apply same_tasks_refl|reflexivity]|].
  rewrite (S_ISLNK_not_dir _ Hlnk). cbn [andb].
  pose proof (entry_filter_same_tasks env cfg d_name
                (path task +:+ "/" +:+ d_name) sb w) as Hf.
  destruct (entry_filter env cfg d_name (path task +:+ "/" +:+ d_name) sb w)
    as [[|] w1]; simpl in Hf.
  - split.
    + eapply same_tasks_trans; [exact Hf|apply report_match_same_tasks].
    + unfold report_match, type_char_of.
      rewrite (S_ISLNK_not_dir _ Hlnk), (S_ISLNK_not_reg _ Hlnk). reflexivity.
  - split; [exact Hf|reflexivity].
Qed.

(** Scenario 6, the entry: the link a/link, whose target is the directory
    a, leaves the queue as it is and is printed as a link. *)
Lemma symlink_no_child_task_witness :
  let w' := process_entry link_env any_name (mkTask "a" 0 None) None
              idle_world "link" in
  same_tasks idle_world w'
  /\ matches_found w' = 1 /\ files_scanned w' = 0
  /\ contents (out_stream w') = text_record any_name "a/link" "l" link_stat.
Proof.
  destruct (symlink_no_child_task link_env any_name (mkTask "a" 0 None) None
              idle_world "link" link_stat eq_refl eq_refl) as [Hs He].
  cbv zeta in *. split; [exact Hs|]. rewrite He. repeat split.
Defined.

(** Scenario 6 as a run: the walk of a ends and reports the link once. *)
Example symlink_walk :
  exists w, main link_env [(OptPattern, ".*"); (OptDirectory, "a")] None 3
            = Exit 0 w
            /\ contents (out_stream w)
               = text_record (with_use_colors false any_name) "a/link" "l"
                             link_stat.
Proof. eexists. split; vm_compute; reflexivity. Qed.

(** ** Fuel *)

(** A run that ended keeps its result when given more rounds. *)
Lemma run_pool_more_fuel env cfg fuel fuel' w :
  finished (run_pool env cfg fuel w) -> (fuel <= fuel')%nat ->
  run_pool env cfg fuel' w = run_pool env cfg fuel w.
Proof.
  revert fuel' w. induction fuel as [|f IH]; intros fuel' w Hfin Hle;
    [contradiction|].
  destruct fuel' as [|f']; [lia|]. cbn [run_pool] in *.
  destruct (negb (shutdown (pool w)) && (active_tasks w <=? 0));
    [apply IH; [assumption|lia]|].
  destruct (count (pool w) =? 0)%nat; [reflexivity|].
  destruct (take (pool w)) as [[task|] p]; [|reflexivity].
  apply IH; [assumption|lia].
Qed.

Lemma walk_more_fuel env cfg w0 fuel fuel' code w :
  walk env cfg w0 fuel = Exit code w -> (fuel <= fuel')%nat ->
  walk env cfg w0 fuel' = Exit code w.
Proof.
  unfold walk. intros H Hle.
  match type of H with
  | match run_pool env cfg fuel ?w1 with _ => _ end = _ =>
      rewrite (run_pool_more_fuel env cfg fuel fuel' w1); [exact H|idtac|exact Hle];
      destruct (run_pool env cfg fuel w1) as [w2|[]]; try exact I; discriminate
  end.
Qed.

Lemma main_more_fuel env opts positional fuel fuel' code w :
  main env opts positional fuel = Exit code w -> (fuel <= fuel')%nat ->
  main env opts positional fuel' = Exit code w.
Proof.
  unfold main. intros H Hle.
  destruct (parse_options env opts _) as [c|l]; [discriminate|].
  destruct (setup env l positional) as [c|[cfg w0]]; [discriminate|].
  exact (walk_more_fuel env cfg w0 fuel fuel' code w H Hle).
Qed.

(** ** C2: the depth limit *)

(** C2 (amended).  On the tree a/b/c.txt, a/b/d.log, a/e.txt, the walk
    of a with pattern '.*' and max-depth 1 ends with exit code 0 and
    prints the four entries a/b, a/e.txt, a/b/c.txt and a/b/d.log: the
    task of a/b has depth 1, which does not exceed the limit.  With
    max-depth 0 it prints exactly a/b and a/e.txt. *)
Theorem max_depth_scenario fuel :
  (4 <= fuel)%nat ->
  (exists w, main tree_env [(OptPattern, ".*"); (OptDirectory, "a");
                            (OptMaxDepth, "1")] None fuel = Exit 0 w
             /\ contents (out_stream w)
                = line_of "a/b" dir_stat +:+ line_of "a/e.txt" (file_stat 5 100)
                  +:+ line_of "a/b/c.txt" (file_stat 7 100)
                  +:+ line_of "a/b/d.log" (file_stat 0 100))
  /\ (exists w, main tree_env [(OptPattern, ".*"); (OptDirectory, "a");
                               (OptMaxDepth, "0")] None fuel = Exit 0 w
                /\ contents (out_stream w)
                   = line_of "a/b" dir_stat
                     +:+ line_of "a/e.txt" (file_stat 5 100)).
Proof.
  intros Hfuel. split; eexists; split;
    try (apply (main_more_fuel _ _ _ 4%nat fuel); [vm_compute; reflexivity|exact Hfuel]);
    vm_compute; reflexivity.
Qed.

Lemma max_depth_scenario_witness :
  exists w, main tree_env [(OptPattern, ".*"); (OptDirectory, "a");
                           (OptMaxDepth, "0")] None 4 = Exit 0 w
            /\ contents (out_stream w)
               = line_of "a/b" dir_stat +:+ line_of "a/e.txt" (file_stat 5 100).
Proof. exact (proj2 (max_depth_scenario 4 (le_n 4))). Defined.

(** The claim as stated fails: with max-depth 1 the output is not just
    a/b and a/e.txt, the line of a/b/c.txt follows them. *)
Lemma max_depth_counterexample :
  exists w rest,
    main tree_env [(OptPattern, ".*"); (OptDirectory, "a"); (OptMaxDepth, "1")]
         None 4 = Exit 0 w
    /\ contents (out_stream w)
       = line_of "a/b" dir_stat +:+ line_of "a/e.txt" (file_stat 5 100)
         +:+ line_of "a/b/c.txt" (file_stat 7 100) +:+ rest
    /\ contents (out_stream w)
       <> line_of "a/b" dir_stat +:+ line_of "a/e.txt" (file_stat 5 100).
Proof.
  eexists. exists (line_of "a/b/d.log" (file_stat 0 100)).
  split; [vm_compute; reflexivity|]. split; [vm_compute; reflexivity|].
  vm_compute. discriminate.
Qed.

(** ** C7: the JSON array *)

(** C7, on a pipe: the records are separated by a comma and a newline and
    enclosed in brackets. *)
Example json_array_on_pipe :
  exists w, main tree_env json_to_pipe None 4 = Exit 0 w
            /\ contents (out_stream w)
               = "[" +:+ NL +:+ json_record "a/b" "d" dir_stat +:+ "," +:+ NL
                 +:+ json_record "a/e.txt" "f" (file_stat 5 100) +:+ "," +:+ NL
                 +:+ json_record "a/b/c.txt" "f" (file_stat 7 100) +:+ "," +:+ NL
                 +:+ json_record "a/b/d.log" "f" (file_stat 0 100) +:+ NL
                 +:+ "]" +:+ NL.
Proof. eexists. split; vm_compute; reflexivity. Qed.

(** C7, on a regular file: [main] seeks two bytes back before it closes
    the array, and the closing brace and the last digit of the last record
    are overwritten. *)
Theorem json_trailer_overwrites_last_record :
  exists w, main tree_env json_to_file None 4 = Exit 0 w
            /\ contents (out_stream w)
               = "[" +:+ NL +:+ json_record "a/b" "d" dir_stat +:+ "," +:+ NL
                 +:+ json_record "a/e.txt" "f" (file_stat 5 100) +:+ "," +:+ NL
                 +:+ json_record "a/b/c.txt" "f" (file_stat 7 100) +:+ "," +:+ NL
                 +:+ chop2 (json_record "a/b/d.log" "f" (file_stat 0 100)) +:+ NL
                 +:+ "]" +:+ NL.
Proof. eexists. split; vm_compute; reflexivity. Qed.

(** ** Writing to a stream *)

Lemma list_ascii_of_string_app a b :
  list_ascii_of_string (a +:+ b)
  = (list_ascii_of_string a ++ list_ascii_of_string b)%list.
Proof. induction a as [|c a IH]; simpl; [reflexivity|]. rewrite IH. reflexivity. Qed.

Lemma fputs_app a b f : fputs (a +:+ b) f = fputs b (fputs a f).
Proof.
  unfold fputs. simpl. rewrite list_ascii_of_string_app.
  f_equal.
  - rewrite !rev_append_rev, rev_app_distr, <- app_assoc. reflexivity.
  - rewrite skipn_skipn, List.length_app. f_equal. lia.
Qed.

Lemma fprintf_app a b w : fprintf (a +:+ b) w = fprintf b (fprintf a w).
Proof. unfold fprintf. simpl. rewrite fputs_app. reflexivity. Qed.

Lemma fprintf_empty w : fprintf "" w = w.
Proof. destruct w as [? ? ? ? ? ? [? ? ?] ? ?]. reflexivity. Qed.

(** ** C8: content matches with line numbers *)

Lemma lines_of_nil fp : lines_of fp = [] -> fp = "".
Proof.
  destruct fp as [|c s]; [reflexivity|]. simpl.
  destruct (Ascii.eqb c newline); [discriminate|].
  destruct (lines_of s); discriminate.
Qed.

Lemma lines_of_length fp : (List.length (lines_of fp) <= String.length fp)%nat.
Proof.
  induction fp as [|c s IH]; simpl; [lia|].
  destruct (Ascii.eqb c newline); simpl; [lia|].
  destruct (lines_of s); simpl in *; lia.
Qed.

(** A line that fits the buffer is what one [fgets] reads. *)
Lemma fgets_aux_line fp : forall l ls room,
  lines_of fp = l :: ls -> (String.length l <= room)%nat ->
  exists rest, fgets_aux room fp = (l, rest) /\ lines_of rest = ls.
Proof.
  induction fp as [|c s IH]; intros l ls room Hl Hroom; simpl in Hl;
    [discriminate|].
  destruct (Ascii.eqb c newline) eqn:Ec.
  - injection Hl as <- <-. destruct room as [|r]; [simpl in Hroom; lia|].
    simpl. rewrite Ec. eauto.
  - destruct (lines_of s) as [|l' ls'] eqn:Es.
    + injection Hl as <- <-. apply lines_of_nil in Es. subst s.
      destruct room as [|r]; [simpl in Hroom; lia|].
      simpl. rewrite Ec. destruct r; simpl; eauto.
    + injection Hl as <- <-. destruct room as [|r]; [simpl in Hroom; lia|].
      simpl in Hroom. destruct (IH l' ls' r eq_refl ltac:(lia)) as (rest & Hg & Hr).
      simpl. rewrite Ec, Hg. eauto.
Qed.





(** Scenario 5 as a run: the only output is the line of the match. *)
Example content_walk :
  exists w, main (secret_env secret_text) with_line_numbers None 3 = Exit 0 w
            /\ contents (out_stream w) = "a/secret.txt:2:TOKEN=abc" +:+ NL.
Proof. eexists. split; vm_compute; reflexivity. Qed.

(** A line that holds a NUL byte is printed up to that byte. *)
Example content_line_stops_at_nul :
  content_line "a/bin" 1 ("TOKEN=" +:+ String zero ("abc" +:+ NL))
  = "a/bin:1:TOKEN=" +:+ NL.
Proof. reflexivity. Qed.


(** ** C6: reference counts of ignore sets *)

(** A set is created with one reference, at a fresh address. *)
Lemma load_ignore_file_fresh env dir_path w i w' :
  load_ignore_file env dir_path w = (Some i, w') ->
  i = List.length (heap w)
  /\ exists pats, heap w' = (heap w ++ [mkIgnore pats 1 false])%list.
Proof.
  unfold load_ignore_file. destruct (fopen_r env _); [|discriminate].
  intros [= <- <-]. split; [reflexivity|]. eexists. reflexivity.
Qed.

(** A release takes one reference away and frees the set exactly when
    that was the last one. *)
Lemma free_ignore_patterns_last i w p :
  heap w !! i = Some p ->
  heap (free_ignore_patterns (Some i) w) !! i
  = Some (mkIgnore (patterns p) (refcount p - 1)
                   (if 1 <? refcount p then freed p else true)).
Proof.
  intros H. unfold free_ignore_patterns. rewrite H. simpl.
  apply list_lookup_insert_eq. eapply lookup_lt_Some, H.
Qed.

(** A reference taken for a child and given back leaves a live set as it
    was. *)
Lemma incr_then_free i a w :
  (forall p, heap w !! i = Some p -> 0 < refcount p) ->
  free_ignore_patterns (Some i) (set_active_tasks a (incr_refcount i w))
  = set_active_tasks a w.
Proof.
  intros Hlive. unfold incr_refcount, free_ignore_patterns.
  destruct (heap w !! i) as [p|] eqn:Hp; simpl; [|rewrite Hp; reflexivity].
  rewrite list_lookup_insert_eq by (eapply lookup_lt_Some, Hp). simpl.
  specialize (Hlive p eq_refl).
  replace (1 <? refcount p + 1) with true by (symmetry; apply Z.ltb_lt; lia).
  rewrite list_insert_insert_eq. unfold set_heap, set_active_tasks. simpl.
  f_equal. replace (refcount p + 1 - 1) with (refcount p) by lia.
  apply list_insert_id. rewrite Hp. destruct p; reflexivity.
Qed.

(** C6, at scenario 3.  The set of a/.gitignore is shared with the task
    of a/src, which never gives its reference back: when the walk is
    over the count is 1 and the set has not been freed. *)
Theorem inherited_set_never_released :
  exists w, main ignore_env just_pattern None 4 = Exit 0 w
            /\ heap w = [mkIgnore ["node_modules"] 1 false].
Proof. eexists. split; vm_compute; reflexivity. Qed.

(** ** C10: a failed submission *)

Lemma threadpool_add_fails p t :
  count p = queue_size p \/ shutdown p = true ->
  threadpool_add p t = (p, -1).
Proof.
  unfold threadpool_add. intros [H|H].
  - rewrite H, Nat.eqb_refl. reflexivity.
  - rewrite H, orb_true_r. reflexivity.
Qed.

Lemma incr_refcount_pool i w : pool (incr_refcount i w) = pool w.
Proof. unfold incr_refcount. destruct (heap w !! i); reflexivity. Qed.

Lemma incr_refcount_active i w :
  active_tasks (incr_refcount i w) = active_tasks w.
Proof. unfold incr_refcount. destruct (heap w !! i); reflexivity. Qed.

Lemma spawn_child_rejected task local_ignore full_path w :
  count (pool w) = queue_size (pool w) \/ shutdown (pool w) = true ->
  (forall i p, shared_set task local_ignore = Some i ->
               heap w !! i = Some p -> 0 < refcount p) ->
  spawn_child task local_ignore full_path w = w.
Proof.
  intros Hfull Hlive.
  assert (Hw : set_active_tasks (active_tasks w + 1 - 1) w = w).
  { replace (active_tasks w + 1 - 1) with (active_tasks w) by lia.
    destruct w; reflexivity. }
  assert (Hshared : forall i, shared_set task local_ignore = Some i ->
            (let w1 := incr_refcount i w in
             let new_task := mkTask full_path (current_depth task + 1) (Some i) in
             let w2 := set_active_tasks (active_tasks w1 + 1) w1 in
             let '(p, r) := threadpool_add (pool w2) new_task in
             if r =? 0 then set_pool p w2
             else free_ignore_patterns (parent_ignore new_task)
                    (set_active_tasks (active_tasks w2 - 1) w2)) = w).
  { intros i Hi. cbv zeta.
    change (pool (set_active_tasks _ (incr_refcount i w)))
      with (pool (incr_refcount i w)).
    rewrite incr_refcount_pool, threadpool_add_fails by assumption.
    cbv beta iota. change (-1 =? 0) with false. cbv iota.
    change (free_ignore_patterns (Some i)
              (set_active_tasks (active_tasks (incr_refcount i w) + 1 - 1)
                                (incr_refcount i w)) = w).
    rewrite incr_refcount_active, incr_then_free; [exact Hw|].
    intros p. apply Hlive. exact Hi. }
  unfold spawn_child.
  destruct local_ignore as [l|]; [exact (Hshared l eq_refl)|].
  destruct (parent_ignore task) as [q|] eqn:Hq.
  - apply Hshared. simpl. exact Hq.
  - cbv zeta. change (pool (set_active_tasks _ w)) with (pool w).
    rewrite threadpool_add_fails by assumption.
    cbv beta iota. change (-1 =? 0) with false. cbv iota.
    exact Hw.
Qed.

(** ** The pool invariants *)

Lemma threadpool_create_ok n size p :
  threadpool_create n size = Some p ->
  ring_ok p /\ count p = 0%nat /\ shutdown p = false
  /\ queue_size p = Z.to_nat size.
Proof.
  unfold threadpool_create.
  destruct ((n <=? 0) || (size <=? 0)) eqn:E; [discriminate|].
  apply orb_false_iff in E as [_ E]. apply Z.leb_gt in E.
  intros [= <-]. unfold ring_ok. simpl.
  split; [|repeat split].
  split; [lia|]. split; [apply length_replicate|]. split; [lia|].
  split; [symmetry; apply Nat.mod_small; lia|]. split; [lia|].
  intros k Hk. lia.
Qed.

Lemma threadpool_add_ok p t :
  ring_ok p ->
  let '(p', r) := threadpool_add p t in
  ring_ok p' /\ shutdown p' = shutdown p
  /\ ((r = 0 /\ count p' = S (count p)) \/ (r = -1 /\ p' = p)).
Proof.
  intros (Hsz & Hlen & Hhead & Htail & Hcount & Hslots).
  unfold threadpool_add.
  destruct ((count p =? queue_size p)%nat || shutdown p) eqn:E.
  { repeat split; auto. }
  apply orb_false_iff in E as [E _]. apply Nat.eqb_neq in E.
  split; [|split; [reflexivity|left; split; reflexivity]].
  unfold ring_ok. simpl. repeat split; try assumption.
  - rewrite length_insert. assumption.
  - rewrite Htail, Nat.Div0.add_mod_idemp_l. f_equal. lia.
  - lia.
  - intros k Hk.
    destruct (decide (tail p = (head p + k) mod queue_size p)%nat) as [Heq|Hne].
    + exists t. rewrite <- Heq. apply list_lookup_insert_eq.
      rewrite Hlen, Htail. apply Nat.mod_upper_bound. lia.
    + rewrite list_lookup_insert_ne by assumption.
      apply Hslots. destruct (decide (k = count p)) as [->|]; [|lia].
      exfalso. apply Hne. exact Htail.
Qed.

Lemma take_ok p :
  ring_ok p -> (0 < count p)%nat ->
  exists t, fst (take p) = Some t
            /\ ring_ok (snd (take p))
            /\ count (snd (take p)) = (count p - 1)%nat
            /\ shutdown (snd (take p)) = shutdown p.
Proof.
  intros (Hsz & Hlen & Hhead & Htail & Hcount & Hslots) Hpos.
  destruct (Hslots 0%nat Hpos) as [t Ht].
  rewrite Nat.add_0_r, Nat.mod_small in Ht by assumption.
  exists t. unfold take. simpl. rewrite Ht. simpl.
  split; [reflexivity|]. split; [|split; reflexivity].
  unfold ring_ok. simpl. repeat split; try assumption.
  - apply Nat.mod_upper_bound. lia.
  - rewrite Htail, Nat.Div0.add_mod_idemp_l. f_equal. lia.
  - lia.
  - intros k Hk. rewrite Nat.Div0.add_mod_idemp_l.
    replace (head p + 1 + k)%nat with (head p + S k)%nat by lia.
    apply Hslots. lia.
Qed.


Lemma same_tasks_balanced w w' : same_tasks w w' -> balanced 0 w w'.
Proof.
  intros (Hp & _ & Ha) Hok. unfold running. rewrite Hp, Ha. close_balanced.
Qed.

Lemma balanced_trans d1 d2 w1 w2 w3 :
  balanced d1 w1 w2 -> balanced d2 w2 w3 -> balanced (d1 + d2) w1 w3.
Proof.
  intros H1 H2 Hok. destruct (H1 Hok) as (Hok2 & Hs2 & Hr2).
  destruct (H2 Hok2) as (Hok3 & Hs3 & Hr3).
  close_balanced.
Qed.

Lemma free_ignore_patterns_same o w :
  pool (free_ignore_patterns o w) = pool w
  /\ active_tasks (free_ignore_patterns o w) = active_tasks w.
Proof.
  unfold free_ignore_patterns. destruct o as [i|]; [|split; reflexivity].
  destruct (heap w !! i); split; reflexivity.
Qed.

Lemma spawn_child_balanced task local_ignore full_path w :
  balanced 0 w (spawn_child task local_ignore full_path w).
Proof.
  intros Hok. unfold spawn_child.
  set (w1 := match local_ignore with
             | Some l => incr_refcount l w
             | None => match parent_ignore task with
                       | Some q => incr_refcount q w
                       | None => w
                       end
             end).
  set (inh := shared_set task local_ignore).
  assert (Hw1 : pool w1 = pool w /\ active_tasks w1 = active_tasks w).
  { subst w1. destruct local_ignore; [|destruct (parent_ignore task)];
      auto using incr_refcount_pool, incr_refcount_active. }
  destruct Hw1 as [Hp1 Ha1].
  assert (Hgoal : forall new_task,
    let w2 := set_active_tasks (active_tasks w1 + 1) w1 in
    let w' := (let '(p, r) := threadpool_add (pool w2) new_task in
               if r =? 0 then set_pool p w2
               else free_ignore_patterns (parent_ignore new_task)
                      (set_active_tasks (active_tasks w2 - 1) w2)) in
    ring_ok (pool w') /\ shutdown (pool w') = shutdown (pool w)
    /\ running w' = running w + 0).
  { intros new_task. cbv zeta.
    change (pool (set_active_tasks (active_tasks w1 + 1) w1)) with (pool w1).
    rewrite Hp1. pose proof (threadpool_add_ok (pool w) new_task Hok) as Hadd.
    destruct (threadpool_add (pool w) new_task) as [p r].
    destruct Hadd as (Hokp & Hsh & [[-> Hc]|[-> ->]]).
    - change (0 =? 0) with true. cbv iota. unfold running. simpl.
      rewrite Hc, Ha1. close_balanced.
    - change (-1 =? 0) with false. cbv iota.
      destruct (free_ignore_patterns_same (parent_ignore new_task)
                  (set_active_tasks
                     (active_tasks (set_active_tasks (active_tasks w1 + 1) w1) - 1)
                     (set_active_tasks (active_tasks w1 + 1) w1))) as [Hp Ha].
      unfold running. rewrite Hp, Ha. simpl. rewrite Hp1, Ha1.
      close_balanced. }
  subst w1. destruct local_ignore as [l|]; [apply Hgoal|].
  destruct (parent_ignore task); apply Hgoal.
Qed.

Lemma process_entry_balanced env cfg task local_ignore w d_name :
  balanced 0 w (process_entry env cfg task local_ignore w d_name).
Proof.
  unfold process_entry.
  destruct (String.eqb d_name "." || String.eqb d_name "..");
    [apply same_tasks_balanced, same_tasks_refl|].
  destruct (lstat env _) as [sb|]; [|apply same_tasks_balanced, same_tasks_refl].
  destruct (no_hidden cfg && _); [apply same_tasks_balanced, same_tasks_refl|].
  destruct (existsb _ _); [apply same_tasks_balanced, same_tasks_refl|].
  destruct (ignore_vcs cfg && _); [apply same_tasks_balanced, same_tasks_refl|].
  pose proof (entry_filter_same_tasks env cfg d_name
                (path task +:+ "/" +:+ d_name) sb w) as Hf.
  destruct (entry_filter env cfg d_name _ sb w) as [is_match w1]. simpl in Hf.
  assert (H1 : balanced 0 w (if is_match
                             then report_match env cfg
                                    (path task +:+ "/" +:+ d_name) sb w1
                             else w1)).
  { apply same_tasks_balanced. destruct is_match; [|assumption].
    eapply same_tasks_trans; [exact Hf|apply report_match_same_tasks]. }
  destruct (S_ISDIR (st_mode sb) && recursion_gate cfg task); [|exact H1].
  apply (balanced_trans 0 0 _ _ _ H1). apply spawn_child_balanced.
Qed.

Lemma fold_process_entry_balanced env cfg task local_ignore names : forall w,
  balanced 0 w (fold_left (process_entry env cfg task local_ignore) names w).
Proof.
  induction names as [|n names IH]; intros w; simpl;
    [apply same_tasks_balanced, same_tasks_refl|].
  apply (balanced_trans 0 0 _ _ _
           (process_entry_balanced env cfg task local_ignore w n)).
  apply IH.
Qed.

(** A task that ran to its end has given back its count, whether or not
    its submissions were accepted. *)
Lemma search_directory_balanced env cfg task w :
  balanced (-1) w (search_directory env cfg task w).
Proof.
  unfold search_directory.
  assert (Hend : forall w1, balanced 0 w w1 ->
                   balanced (-1) w (set_active_tasks (active_tasks w1 - 1) w1)).
  { intros w1 H Hok. destruct (H Hok) as (Hok1 & Hs & Hr).
    unfold running in *. simpl. close_balanced. }
  apply Hend.
  destruct (negb (max_depth cfg =? -1) && _);
    [apply same_tasks_balanced, same_tasks_refl|].
  destruct (opendir env (path task)) as [names|];
    [|apply same_tasks_balanced; repeat split].
  assert (Hload : exists l w1,
            (if ignore_vcs cfg
             then load_ignore_file env (path task)
                    (set_dirs_scanned (dirs_scanned w + 1) w)
             else (None, set_dirs_scanned (dirs_scanned w + 1) w)) = (l, w1)
            /\ same_tasks_but_heap w w1).
  { destruct (ignore_vcs cfg); [|do 2 eexists; split; [reflexivity|split; reflexivity]].
    unfold load_ignore_file. destruct (fopen_r env _);
      do 2 eexists; (split; [reflexivity|split; reflexivity]). }
  destruct Hload as (l & w1 & -> & Hp1 & Ha1).
  assert (H1 : balanced 0 w w1).
  { intros Hok. unfold running. rewrite Hp1, Ha1. close_balanced. }
  apply (balanced_trans 0 0 _ _ _ H1).
  apply (balanced_trans 0 0 _ _ _
           (fold_process_entry_balanced env cfg task l names w1)).
  intros Hok. destruct (free_ignore_patterns_same l
                          (fold_left (process_entry env cfg task l) names w1))
    as [Hp Ha].
  unfold running. rewrite Hp, Ha. close_balanced.
Qed.

(** With a well-formed pool and every counted task in the queue, the
    worker neither finds the queue empty while the seeder waits nor reads
    an unset slot: the pool is destroyed, or more rounds are needed. *)
Lemma run_pool_not_stuck env cfg fuel : forall w,
  ring_ok (pool w) -> running w = 0 ->
  match run_pool env cfg fuel w with
  | inl _ | inr (OutOfFuel _) => True
  | inr _ => False
  end.
Proof.
  induction fuel as [|f IH]; intros w Hok Hrun; cbn [run_pool]; [exact I|].
  destruct (negb (shutdown (pool w)) && (active_tasks w <=? 0)) eqn:Ewake.
  { apply IH; [exact Hok|exact Hrun]. }
  destruct (count (pool w) =? 0)%nat eqn:Ecount.
  { destruct (shutdown (pool w)) eqn:Es; [exact I|]. exfalso.
    apply Nat.eqb_eq in Ecount. unfold running in Hrun. rewrite Ecount in Hrun.
    simpl in Ewake. apply Z.leb_gt in Ewake. lia. }
  apply Nat.eqb_neq in Ecount.
  destruct (take_ok (pool w) Hok ltac:(lia)) as (t & Ht & Hok' & Hc & Hs).
  destruct (take (pool w)) as [o p]. simpl in Ht, Hok', Hc, Hs. subst o.
  destruct (search_directory_balanced env cfg t (set_pool p w) Hok')
    as (Hok2 & _ & Hrun2).
  apply IH; [exact Hok2|].
  rewrite Hrun2. unfold running in *. simpl. rewrite Hc. lia.
Qed.

Lemma setup_pool env l positional cfg w :
  setup env l positional = inr (cfg, w) ->
  ring_ok (pool w) /\ count (pool w) = 0%nat /\ shutdown (pool w) = false.
Proof.
  unfold setup. destruct (name_pattern l); [|discriminate].
  destruct (match output_file _ with Some _ => _ | None => _ end);
    [|discriminate].
  destruct (compile_regex env _ _); [|discriminate].
  destruct (match content_pattern l with Some _ => _ | None => _ end);
    [|discriminate].
  destruct (threadpool_create _ 4096) as [p|] eqn:Hp; [|discriminate].
  intros [= _ <-]. simpl.
  destruct (threadpool_create_ok _ _ _ Hp) as (? & ? & ? & _). auto.
Qed.

(** The pool after the seeder submitted the first task. *)
Lemma seeded_pool p t :
  ring_ok p -> count p = 0%nat -> shutdown p = false ->
  ring_ok (fst (threadpool_add p t)) /\ count (fst (threadpool_add p t)) = 1%nat.
Proof.
  intros Hok Hc Hs. pose proof (threadpool_add_ok p t Hok) as Hadd.
  unfold threadpool_add in *. destruct Hok as (Hsz & _).
  rewrite Hc, Hs in *.
  replace (0 =? queue_size p)%nat with false in *
    by (symmetry; apply Nat.eqb_neq; lia).
  simpl in *. tauto.
Qed.

Lemma walk_not_stuck env cfg w fuel :
  ring_ok (pool w) -> count (pool w) = 0%nat -> shutdown (pool w) = false ->
  ~ stuck (walk env cfg w fuel)
  /\ forall code w', walk env cfg w fuel = Exit code w' -> code = 0.
Proof.
  intros Hok Hc Hs. unfold walk.
  set (w1 := if String.eqb (output_format cfg) "json" then _ else w).
  set (w2 := if String.eqb (output_format cfg) "csv" then _ else w1).
  assert (Hp : pool w2 = pool w).
  { subst w2 w1. destruct (String.eqb _ "json"), (String.eqb _ "csv"); reflexivity. }
  set (t0 := mkTask (root_dir cfg) 0 None).
  set (w3 := set_pool _ _).
  assert (H3 : ring_ok (pool w3) /\ running w3 = 0).
  { subst w3. unfold running. cbn [pool set_pool active_tasks set_active_tasks].
    rewrite Hp. destruct (seeded_pool (pool w) t0 Hok Hc Hs) as [? ->].
    split; [assumption|reflexivity]. }
  destruct H3 as [Hok3 Hrun3].
  pose proof (run_pool_not_stuck env cfg fuel w3 Hok3 Hrun3) as Hns.
  destruct (run_pool env cfg fuel w3) as [w4|[]]; try contradiction.
  - split; [intros []|]. intros code w' [= <- _]. reflexivity.
  - split; [intros []|]. discriminate.
Qed.

(** A run of [main] never hangs or faults, and when it returns after the
    walk its exit code is 0. *)
Lemma main_not_stuck env opts positional fuel :
  ~ stuck (main env opts positional fuel)
  /\ forall code w, main env opts positional fuel = Exit code w -> code = 0.
Proof.
  unfold main.
  destruct (parse_options env opts _) as [c|l];
    [split; [intros []|discriminate]|].
  destruct (setup env l positional) as [c|[cfg w0]] eqn:Hsetup;
    [split; [intros []|discriminate]|].
  destruct (setup_pool env l positional cfg w0 Hsetup) as (Hok & Hc & Hs).
  apply walk_not_stuck; assumption.
Qed.

(** When the queue is full or the pool is shutting down, processing an
    entry changes neither the queue nor the task counter nor the ignore
    sets: no child task comes out of it. *)
Lemma process_entry_rejected env cfg task local_ignore w d_name :
  count (pool w) = queue_size (pool w) \/ shutdown (pool w) = true ->
  (forall i p, shared_set task local_ignore = Some i ->
               heap w !! i = Some p -> 0 < refcount p) ->
  same_tasks w (process_entry env cfg task local_ignore w d_name).
Proof.
  intros Hfull Hlive. unfold process_entry.
  destruct (String.eqb d_name "." || String.eqb d_name "..");
    [apply same_tasks_refl|].
  destruct (lstat env _) as [sb|]; [|apply same_tasks_refl].
  destruct (no_hidden cfg && _); [apply same_tasks_refl|].
  destruct (existsb _ _); [apply same_tasks_refl|].
  destruct (ignore_vcs cfg && _); [apply same_tasks_refl|].
  pose proof (entry_filter_same_tasks env cfg d_name
                (path task +:+ "/" +:+ d_name) sb w) as Hf.
  destruct (entry_filter env cfg d_name _ sb w) as [is_match w1]. simpl in Hf.
  set (w2 := if is_match then _ else w1).
  assert (H2 : same_tasks w w2).
  { subst w2. destruct is_match; [|assumption].
    eapply same_tasks_trans; [exact Hf|apply report_match_same_tasks]. }
  destruct (S_ISDIR (st_mode sb) && recursion_gate cfg task); [|exact H2].
  destruct H2 as (Hp & Hh & Ha).
  rewrite spawn_child_rejected; [repeat split; assumption| |];
    rewrite ?Hp, ?Hh; assumption.
Qed.

(** The directory r has one subdirectory more than the queue has slots:
    the walk ends with exit code 0 after 4097 directories, and the file in
    the last subdirectory is not reported.  With 4096 subdirectories it
    is. *)
Example queue_overflow_walk :
  report_of "f.txt" (main (wide_env 4097) walk_r None 4100)
  = Some (0, 4097, false)
  /\ report_of "f.txt" (main (wide_env 4096) walk_r None 4100)
     = Some (0, 4097, true).
Proof. split; vm_compute; reflexivity. Qed.

(** ** C4: an empty ignore file *)

(** *** Paths *)

Lemma append_assoc (a b c : string) : (a +:+ b) +:+ c = a +:+ (b +:+ c).
Proof.
  induction a as [|x a IH]; [reflexivity|].
  change (String x ((a +:+ b) +:+ c) = String x (a +:+ (b +:+ c))).
  f_equal. exact IH.
Qed.

Lemma list_ascii_inj a b :
  list_ascii_of_string a = list_ascii_of_string b -> a = b.
Proof.
  intros H. rewrite <- (string_of_list_ascii_of_string a),
              <- (string_of_list_ascii_of_string b), H. reflexivity.
Qed.

Lemma split_at_last (x : ascii) : forall l1 l2 r1 r2,
  ~ In x r1 -> ~ In x r2 ->
  (l1 ++ x :: r1 = l2 ++ x :: r2)%list -> l1 = l2 /\ r1 = r2.
Proof.
  induction l1 as [|a l1 IH]; intros [|b l2] r1 r2 H1 H2 H; simpl in H.
  - injection H as ->. auto.
  - injection H as -> ->. exfalso. apply H1. apply in_or_app. right. left.
    reflexivity.
  - injection H as -> <-. exfalso. apply H2. apply in_or_app. right. left.
    reflexivity.
  - injection H as -> H. destruct (IH l2 r1 r2 H1 H2 H) as [-> ->]. auto.
Qed.

(** Two paths with slash-free last components agree iff both parts do. *)
Lemma full_path_inj p1 n1 p2 n2 :
  no_slash n1 -> no_slash n2 ->
  p1 +:+ "/" +:+ n1 = p2 +:+ "/" +:+ n2 -> p1 = p2 /\ n1 = n2.
Proof.
  intros H1 H2 H. apply (f_equal list_ascii_of_string) in H.
  rewrite !list_ascii_of_string_app in H. simpl in H.
  destruct (split_at_last "/" _ _ _ _ H1 H2 H) as [Hp Hn].
  split; apply list_ascii_inj; assumption.
Qed.

Lemma no_slash_gitignore : no_slash ".gitignore".
Proof.
  unfold no_slash. simpl. intros H.
  repeat (destruct H as [H|H]; [discriminate H|]). exact H.
Qed.

Lemma gitignore_of_inj p dir : gitignore_of p = gitignore_of dir -> p = dir.
Proof.
  intros H. apply (full_path_inj p ".gitignore" dir ".gitignore");
    [apply no_slash_gitignore..|exact H].
Qed.

Lemma reach_child root p name : reach root p -> reach root (p +:+ "/" +:+ name).
Proof.
  intros [->|[s ->]]; right; [exists name; reflexivity|].
  exists (s +:+ "/" +:+ name). rewrite !append_assoc. reflexivity.
Qed.

Lemma anc_child dir p name : anc dir (p +:+ "/" +:+ name) -> anc dir p.
Proof.
  intros [H|[s ->]]; right; [exists name; symmetry; exact H|].
  exists (name +:+ "/" +:+ s). rewrite !append_assoc. reflexivity.
Qed.

(** *** The heap only grows *)

Lemma heap_le_refl h : heap_le h h.
Proof. split; [lia|]. intros i p H. exists p. auto. Qed.

Lemma heap_le_trans h1 h2 h3 : heap_le h1 h2 -> heap_le h2 h3 -> heap_le h1 h3.
Proof.
  intros [L1 H1] [L2 H2]. split; [lia|]. intros i p Hp.
  destruct (H1 i p Hp) as (p' & Hp' & E1).
  destruct (H2 i p' Hp') as (p'' & Hp'' & E2).
  exists p''. split; [assumption|congruence].
Qed.

Lemma heap_le_insert (h : list ignore_patterns_t) i p p' :
  h !! i = Some p -> patterns p' = patterns p -> heap_le h (<[i := p']> h).
Proof.
  intros Hp E. split; [rewrite length_insert; lia|]. intros j q Hq.
  destruct (decide (i = j)) as [->|Hne].
  - exists p'. split; [apply list_lookup_insert_eq; eapply lookup_lt_Some, Hp|].
    congruence.
  - exists q. rewrite list_lookup_insert_ne by assumption. auto.
Qed.

Lemma heap_le_app (h l : list ignore_patterns_t) : heap_le h (h ++ l).
Proof.
  split; [rewrite List.length_app; lia|]. intros i p Hp. exists p.
  split; [apply lookup_app_l_Some; assumption|reflexivity].
Qed.

Lemma incr_refcount_heap_le i w : heap_le (heap w) (heap (incr_refcount i w)).
Proof.
  unfold incr_refcount. destruct (heap w !! i) as [p|] eqn:Hp;
    [|apply heap_le_refl].
  simpl. eapply heap_le_insert; [exact Hp|reflexivity].
Qed.

Lemma free_ignore_patterns_heap_le o w :
  heap_le (heap w) (heap (free_ignore_patterns o w)).
Proof.
  unfold free_ignore_patterns. destruct o as [i|]; [|apply heap_le_refl].
  destruct (heap w !! i) as [p|] eqn:Hp; [|apply heap_le_refl].
  simpl. eapply heap_le_insert; [exact Hp|reflexivity].
Qed.

Lemma patterns_at_le h h' o :
  heap_le h h' -> valid_ptr h o ->
  patterns_at h' o = patterns_at h o /\ valid_ptr h' o.
Proof.
  intros [L H] Hv. destruct o as [i|]; [|split; [reflexivity|exact I]].
  simpl in *. destruct (lookup_lt_is_Some_2 h i Hv) as [p Hp].
  destruct (H i p Hp) as (p' & Hp' & E). rewrite Hp, Hp'. split; [exact E|lia].
Qed.

Lemma ptr_sim_le h1 h2 h1' h2' o1 o2 :
  heap_le h1 h1' -> heap_le h2 h2' ->
  ptr_sim h1 h2 o1 o2 -> ptr_sim h1' h2' o1 o2.
Proof.
  intros L1 L2 (V1 & V2 & E).
  destruct (patterns_at_le h1 h1' o1 L1 V1) as [E1 V1'].
  destruct (patterns_at_le h2 h2' o2 L2 V2) as [E2 V2'].
  repeat split; [assumption..|congruence].
Qed.

Lemma task_sim_le dir root h1 h2 h1' h2' t1 t2 :
  heap_le h1 h1' -> heap_le h2 h2' ->
  task_sim dir root h1 h2 t1 t2 -> task_sim dir root h1' h2' t1 t2.
Proof.
  intros L1 L2 (Hp & Hd & Hs & Hr & Ha).
  split; [assumption|]. split; [assumption|].
  split; [eapply ptr_sim_le; eassumption|]. split; [assumption|].
  intros Hanc. destruct Hs as (V1 & _).
  destruct (patterns_at_le h1 h1' _ L1 V1) as [-> _]. auto.
Qed.

Lemma slot_sim_le dir root h1 h2 h1' h2' s1 s2 :
  heap_le h1 h1' -> heap_le h2 h2' ->
  slot_sim dir root h1 h2 s1 s2 -> slot_sim dir root h1' h2' s1 s2.
Proof.
  intros L1 L2. destruct s1, s2; simpl; auto.
  apply task_sim_le; assumption.
Qed.

Lemma pool_sim_le dir root h1 h2 h1' h2' p1 p2 :
  heap_le h1 h1' -> heap_le h2 h2' ->
  pool_sim dir root h1 h2 p1 p2 -> pool_sim dir root h1' h2' p1 p2.
Proof.
  intros L1 L2 (? & ? & ? & ? & ? & HF). repeat split; try assumption.
  eapply Forall2_impl; [exact HF|]. intros s1 s2. apply slot_sim_le; assumption.
Qed.

(** *** Steps that leave the pool and the heap alone *)

Lemma graft_rest w1 w2 : rest_eq w1 w2 -> graft w2 w1 = w2.
Proof.
  intros (H1 & H2 & H3 & H4 & H5 & H6). unfold graft.
  rewrite H1, H2, H3, H4, H5, H6. destruct w2; reflexivity.
Qed.

Lemma rest_eq_graft w0 w : rest_eq w (graft w0 w).
Proof. repeat split. Qed.

Lemma scan_lines_graft w0 rounds cfg path : forall fp line_num found w,
  scan_lines rounds cfg path fp line_num found (graft w0 w)
  = (fst (scan_lines rounds cfg path fp line_num found w),
     graft w0 (snd (scan_lines rounds cfg path fp line_num found w))).
Proof.
  induction rounds as [|r IH]; intros fp n found w; simpl; [reflexivity|].
  destruct (fgets 4096 fp) as [[buffer fp']|]; [|reflexivity].
  destruct (match_regex (content_regex cfg) buffer); [|apply IH].
  destruct (with_line_number cfg); [|reflexivity].
  exact (IH fp' (wrap32 (n + 1)) true (fprintf (content_line path n buffer) w)).
Qed.

Lemma search_file_content_graft w0 env cfg path w :
  search_file_content env cfg path (graft w0 w)
  = (fst (search_file_content env cfg path w),
     graft w0 (snd (search_file_content env cfg path w))).
Proof.
  unfold search_file_content.
  destruct (compiled (content_regex cfg)); simpl; [|reflexivity].
  destruct (fopen_r env path) as [fp|]; [|reflexivity].
  rewrite scan_lines_graft.
  destruct (scan_lines (String.length fp) cfg path fp 1 false w). reflexivity.
Qed.

Lemma entry_filter_graft w0 env cfg name full_path sb w :
  entry_filter env cfg name full_path sb (graft w0 w)
  = (fst (entry_filter env cfg name full_path sb w),
     graft w0 (snd (entry_filter env cfg name full_path sb w))).
Proof.
  unfold entry_filter, content_rejects.
  match goal with
  | |- context [if ?b && compiled (content_regex cfg) then _ else _] =>
      destruct (b && compiled (content_regex cfg))
  end; [|reflexivity].
  destruct (S_ISREG (st_mode sb)); simpl; [|reflexivity].
  rewrite search_file_content_graft.
  destruct (search_file_content env cfg full_path w) as [r w']. reflexivity.
Qed.

Lemma print_result_graft w0 env cfg path c sb w :
  print_result env cfg path c sb (graft w0 w)
  = graft w0 (print_result env cfg path c sb w).
Proof.
  unfold print_result, print_long_listing.
  destruct (long_listing cfg); [reflexivity|].
  destruct (String.eqb (output_format cfg) "json").
  - change (matches_found (graft w0 w)) with (matches_found w).
    destruct (1 <? matches_found w); reflexivity.
  - destruct (String.eqb (output_format cfg) "csv"); reflexivity.
Qed.

Lemma handle_match_graft w0 env cfg path c sb w :
  handle_match env cfg path c sb (graft w0 w)
  = graft w0 (handle_match env cfg path c sb w).
Proof.
  unfold handle_match.
  destruct (with_line_number cfg && compiled (content_regex cfg));
    [reflexivity|].
  destruct (exec_command cfg); [reflexivity|].
  destruct (delete_files cfg); [reflexivity|apply print_result_graft].
Qed.

Lemma report_match_graft w0 env cfg full_path sb w :
  report_match env cfg full_path sb (graft w0 w)
  = graft w0 (report_match env cfg full_path sb w).
Proof.
  unfold report_match.
  destruct (S_ISREG (st_mode sb)).
  - exact (handle_match_graft w0 env cfg full_path (type_char_of sb) sb
             (set_matches_found
                (matches_found (set_files_scanned (files_scanned w + 1) w) + 1)
                (set_files_scanned (files_scanned w + 1) w))).
  - exact (handle_match_graft w0 env cfg full_path (type_char_of sb) sb
             (set_matches_found (matches_found w + 1) w)).
Qed.

(** *** The two systems agree away from the ignore file *)

Lemma entry_filter_without dir env cfg name full_path sb w :
  full_path <> gitignore_of dir ->
  entry_filter (without_ignore_file dir env) cfg name full_path sb w
  = entry_filter env cfg name full_path sb w.
Proof.
  intros Hne. apply String.eqb_neq in Hne.
  unfold entry_filter, content_rejects, search_file_content, mtime_rejects.
  simpl. rewrite Hne. reflexivity.
Qed.

Lemma report_match_without dir env cfg full_path sb w :
  report_match (without_ignore_file dir env) cfg full_path sb w
  = report_match env cfg full_path sb w.
Proof. reflexivity. Qed.

Lemma is_ignored_patterns_at env name o w :
  is_ignored env name o w
  = existsb (fun pattern => fnmatch env pattern name) (patterns_at (heap w) o).
Proof.
  unfold is_ignored, patterns_at. destruct o as [i|]; [|reflexivity].
  destruct (heap w !! i); reflexivity.
Qed.

(** *** Simulation of the steps *)

Lemma world_sim_set_heap dir root w1 w2 h1 h2 :
  world_sim dir root w1 w2 -> heap_le (heap w1) h1 -> heap_le (heap w2) h2 ->
  world_sim dir root (set_heap h1 w1) (set_heap h2 w2).
Proof.
  intros (Hp & Ha & Hr) L1 L2. split; [|split; assumption].
  simpl. eapply pool_sim_le; eassumption.
Qed.

Lemma incr_refcount_set_heap i w :
  incr_refcount i w = set_heap (heap (incr_refcount i w)) w.
Proof.
  unfold incr_refcount. destruct (heap w !! i); [reflexivity|].
  destruct w; reflexivity.
Qed.

Lemma free_ignore_patterns_set_heap o w :
  free_ignore_patterns o w = set_heap (heap (free_ignore_patterns o w)) w.
Proof.
  unfold free_ignore_patterns.
  destruct o as [i|]; [destruct (heap w !! i); [reflexivity|]|];
    destruct w; reflexivity.
Qed.

Lemma threadpool_add_sim dir root h1 h2 p1 p2 t1 t2 :
  pool_sim dir root h1 h2 p1 p2 -> task_sim dir root h1 h2 t1 t2 ->
  pool_sim dir root h1 h2 (fst (threadpool_add p1 t1))
           (fst (threadpool_add p2 t2))
  /\ snd (threadpool_add p1 t1) = snd (threadpool_add p2 t2).
Proof.
  intros (Hsz & Hh & Ht & Hc & Hs & HF) Htask. unfold threadpool_add.
  rewrite Hsz, Hc, Hs.
  destruct ((count p2 =? queue_size p2)%nat || shutdown p2); simpl.
  - split; [|reflexivity]. repeat split; assumption.
  - split; [|reflexivity]. unfold pool_sim. simpl. rewrite Hh, Ht.
    repeat split. apply Forall2_insert; [exact HF|exact Htask].
Qed.

Lemma shared_heap_le o w :
  heap_le (heap w) (heap match o with
                         | Some i => incr_refcount i w
                         | None => w
                         end).
Proof. destruct o; [apply incr_refcount_heap_le|apply heap_le_refl]. Qed.

Lemma submit_child_sim dir root inh1 inh2 full_path depth w1 w2 :
  world_sim dir root w1 w2 ->
  ptr_sim (heap w1) (heap w2) inh1 inh2 ->
  reach root full_path ->
  (anc dir full_path -> patterns_at (heap w1) inh1 = []) ->
  world_sim dir root (submit_child inh1 full_path depth w1)
            (submit_child inh2 full_path depth w2)
  /\ heap_le (heap w1) (heap (submit_child inh1 full_path depth w1))
  /\ heap_le (heap w2) (heap (submit_child inh2 full_path depth w2)).
Proof.
  intros Hw Hptr Hreach Hanc. unfold submit_child.
  set (u1 := match inh1 with Some i => incr_refcount i w1 | None => w1 end).
  set (u2 := match inh2 with Some i => incr_refcount i w2 | None => w2 end).
  assert (L1 : heap_le (heap w1) (heap u1)) by apply shared_heap_le.
  assert (L2 : heap_le (heap w2) (heap u2)) by apply shared_heap_le.
  assert (E1 : u1 = set_heap (heap u1) w1).
  { subst u1. destruct inh1; [apply incr_refcount_set_heap|destruct w1; reflexivity]. }
  assert (E2 : u2 = set_heap (heap u2) w2).
  { subst u2. destruct inh2; [apply incr_refcount_set_heap|destruct w2; reflexivity]. }
  assert (Hu : world_sim dir root u1 u2).
  { rewrite E1, E2. apply world_sim_set_heap; assumption. }
  clearbody u1 u2.
  destruct Hu as (Hpool & Hact & Hrest).
  assert (Htask : task_sim dir root (heap u1) (heap u2)
                    (mkTask full_path depth inh1) (mkTask full_path depth inh2)).
  { split; [reflexivity|]. split; [reflexivity|].
    split; [eapply ptr_sim_le; eassumption|]. split; [exact Hreach|].
    simpl. intros Ha. destruct Hptr as (V1 & _).
    destruct (patterns_at_le _ _ _ L1 V1) as [-> _]. auto. }
  cbv zeta.
  change (pool (set_active_tasks (active_tasks u1 + 1) u1)) with (pool u1).
  change (pool (set_active_tasks (active_tasks u2 + 1) u2)) with (pool u2).
  destruct (threadpool_add_sim dir root _ _ _ _ _ _ Hpool Htask) as [Hp' Hr'].
  destruct (threadpool_add (pool u1) (mkTask full_path depth inh1)) as [p1 r1].
  destruct (threadpool_add (pool u2) (mkTask full_path depth inh2)) as [p2 r2].
  simpl in Hp', Hr'. subst r2.
  destruct (r1 =? 0).
  - split; [|split; assumption].
    split; [exact Hp'|]. split; [simpl; congruence|exact Hrest].
  - cbn [parent_ignore].
    set (v1 := set_active_tasks _ (set_active_tasks _ u1)).
    set (v2 := set_active_tasks _ (set_active_tasks _ u2)).
    assert (Hv : world_sim dir root v1 v2).
    { split; [exact Hpool|]. split; [simpl; congruence|exact Hrest]. }
    rewrite (free_ignore_patterns_set_heap inh1 v1),
            (free_ignore_patterns_set_heap inh2 v2).
    split; [apply world_sim_set_heap;
            [exact Hv|apply free_ignore_patterns_heap_le..]|].
    split; simpl.
    + eapply heap_le_trans; [exact L1|].
      apply (free_ignore_patterns_heap_le inh1 v1).
    + eapply heap_le_trans; [exact L2|].
      apply (free_ignore_patterns_heap_le inh2 v2).
Qed.

Lemma spawn_child_shared task local_ignore full_path w :
  spawn_child task local_ignore full_path w
  = submit_child (shared_set task local_ignore) full_path
                 (current_depth task + 1) w.
Proof.
  unfold spawn_child, submit_child, shared_set.
  destruct local_ignore; [reflexivity|]. destruct (parent_ignore task); reflexivity.
Qed.

(** After the filter and the report the two worlds still differ only in
    their pool and heap, which are as before. *)
Lemma filter_report_sim dir root env cfg name full_path sb w1 w2 :
  full_path <> gitignore_of dir ->
  world_sim dir root w1 w2 ->
  let step env w :=
    let '(is_match, w) := entry_filter env cfg name full_path sb w in
    if is_match then report_match env cfg full_path sb w else w in
  world_sim dir root (step env w1) (step (without_ignore_file dir env) w2)
  /\ heap (step env w1) = heap w1
  /\ heap (step (without_ignore_file dir env) w2) = heap w2.
Proof.
  intros Hne (Hpool & Hact & Hrest). cbv beta zeta.
  rewrite entry_filter_without by exact Hne.
  replace (entry_filter env cfg name full_path sb w2)
    with (entry_filter env cfg name full_path sb (graft w2 w1))
    by (rewrite (graft_rest w1 w2 Hrest); reflexivity).
  rewrite entry_filter_graft.
  pose proof (entry_filter_same_tasks env cfg name full_path sb w1) as Hf.
  destruct (entry_filter env cfg name full_path sb w1) as [is_match wa].
  simpl in Hf. cbn [fst snd].
  set (wb := if is_match then report_match env cfg full_path sb wa else wa).
  assert (Hb : same_tasks w1 wb).
  { subst wb. destruct is_match; [|exact Hf].
    eapply same_tasks_trans; [exact Hf|apply report_match_same_tasks]. }
  assert (E2 : (if is_match
                then report_match (without_ignore_file dir env) cfg full_path sb
                       (graft w2 wa)
                else graft w2 wa) = graft w2 wb).
  { subst wb. destruct is_match; [|reflexivity].
    rewrite report_match_without. apply report_match_graft. }
  rewrite E2. destruct Hb as (Hp & Hh & Ha).
  split; [|split; [exact Hh|reflexivity]].
  split; [simpl; rewrite Hp, Hh; exact Hpool|].
  split; [simpl; rewrite Ha; exact Hact|apply rest_eq_graft].
Qed.

Lemma process_entry_sim dir root env cfg t1 t2 l1 l2 w1 w2 name :
  no_hidden cfg = true -> no_slash name ->
  world_sim dir root w1 w2 ->
  task_sim dir root (heap w1) (heap w2) t1 t2 ->
  ptr_sim (heap w1) (heap w2) l1 l2 ->
  ptr_sim (heap w1) (heap w2) (shared_set t1 l1) (shared_set t2 l2) ->
  (anc dir (path t1) -> patterns_at (heap w1) (shared_set t1 l1) = []) ->
  world_sim dir root (process_entry env cfg t1 l1 w1 name)
            (process_entry (without_ignore_file dir env) cfg t2 l2 w2 name)
  /\ heap_le (heap w1) (heap (process_entry env cfg t1 l1 w1 name))
  /\ heap_le (heap w2)
             (heap (process_entry (without_ignore_file dir env) cfg t2 l2 w2
                                  name)).
Proof.
  intros Hhid Hslash Hw Htask Hl Hsh Hanc.
  assert (Hskip : world_sim dir root w1 w2 /\ heap_le (heap w1) (heap w1)
                  /\ heap_le (heap w2) (heap w2)).
  { split; [exact Hw|split; apply heap_le_refl]. }
  destruct Htask as (Hpath & Hdepth & Hpar & Hreach & _).
  unfold process_entry. rewrite <- Hpath.
  destruct (String.eqb name "." || String.eqb name ".."); [exact Hskip|].
  set (full_path := path t1 +:+ "/" +:+ name).
  change (lstat (without_ignore_file dir env) full_path)
    with (if String.eqb full_path (gitignore_of dir) then None
          else lstat env full_path).
  destruct (String.eqb full_path (gitignore_of dir)) eqn:Egit.
  { apply String.eqb_eq in Egit.
    destruct (full_path_inj (path t1) name dir ".gitignore" Hslash
                no_slash_gitignore Egit) as [_ ->].
    rewrite Hhid. destruct (lstat env full_path); exact Hskip. }
  apply String.eqb_neq in Egit.
  destruct (lstat env full_path) as [sb|]; [|exact Hskip].
  destruct (no_hidden cfg && Ascii.eqb (deref name) "."); [exact Hskip|].
  destruct (existsb (String.eqb name) (exclude_dirs cfg)); [exact Hskip|].
  rewrite !is_ignored_patterns_at.
  change (fnmatch (without_ignore_file dir env)) with (fnmatch env).
  destruct Hl as (_ & _ & <-). destruct Hpar as (_ & _ & <-).
  destruct (ignore_vcs cfg && _); [exact Hskip|].
  destruct (filter_report_sim dir root env cfg name full_path sb w1 w2 Egit Hw)
    as (Hw' & Hh1 & Hh2).
  cbv beta zeta in Hw', Hh1, Hh2.
  destruct (entry_filter env cfg name full_path sb w1) as [m1 wa1].
  destruct (entry_filter (without_ignore_file dir env) cfg name full_path sb w2)
    as [m2 wa2].
  set (wb1 := if m1 then _ else wa1) in *.
  set (wb2 := if m2 then _ else wa2) in *.
  unfold recursion_gate. rewrite <- Hdepth.
  destruct (S_ISDIR (st_mode sb) && _).
  - rewrite !spawn_child_shared, <- Hdepth.
    destruct (submit_child_sim dir root (shared_set t1 l1) (shared_set t2 l2)
                full_path (current_depth t1 + 1) wb1 wb2) as (A & B & C).
    + exact Hw'.
    + rewrite Hh1, Hh2. exact Hsh.
    + apply reach_child. exact Hreach.
    + intros Ha. rewrite Hh1. apply Hanc. eapply anc_child. exact Ha.
    + rewrite Hh1 in B. rewrite Hh2 in C. auto.
  - rewrite Hh1, Hh2. split; [exact Hw'|split; apply heap_le_refl].
Qed.

Lemma process_entry_gitignore env cfg task local_ignore w :
  no_hidden cfg = true ->
  process_entry env cfg task local_ignore w ".gitignore" = w.
Proof.
  intros Hhid. unfold process_entry. simpl. rewrite Hhid.
  destruct (lstat env _); reflexivity.
Qed.

(** With hidden entries skipped, the entry .gitignore might as well not
    be listed. *)
Lemma fold_without_gitignore env cfg task local_ignore names : forall w,
  no_hidden cfg = true ->
  fold_left (process_entry env cfg task local_ignore) names w
  = fold_left (process_entry env cfg task local_ignore)
              (List.filter (fun n => negb (String.eqb n ".gitignore")) names) w.
Proof.
  induction names as [|n names IH]; intros w Hhid; [reflexivity|]. simpl.
  destruct (String.eqb n ".gitignore") eqn:E; simpl.
  - apply String.eqb_eq in E. subst n.
    rewrite process_entry_gitignore by exact Hhid. apply IH. exact Hhid.
  - apply IH. exact Hhid.
Qed.

Lemma fold_process_entry_sim dir root env cfg t1 t2 l1 l2 names :
  no_hidden cfg = true -> Forall no_slash names ->
  forall w1 w2,
  world_sim dir root w1 w2 ->
  task_sim dir root (heap w1) (heap w2) t1 t2 ->
  ptr_sim (heap w1) (heap w2) l1 l2 ->
  ptr_sim (heap w1) (heap w2) (shared_set t1 l1) (shared_set t2 l2) ->
  (anc dir (path t1) -> patterns_at (heap w1) (shared_set t1 l1) = []) ->
  world_sim dir root
    (fold_left (process_entry env cfg t1 l1) names w1)
    (fold_left (process_entry (without_ignore_file dir env) cfg t2 l2) names w2)
  /\ heap_le (heap w1)
             (heap (fold_left (process_entry env cfg t1 l1) names w1))
  /\ heap_le (heap w2)
             (heap (fold_left (process_entry (without_ignore_file dir env)
                                             cfg t2 l2) names w2)).
Proof.
  intros Hhid Hnames. induction Hnames as [|n names Hn _ IH];
    intros w1 w2 Hw Htask Hl Hsh Hanc; simpl.
  { split; [exact Hw|split; apply heap_le_refl]. }
  destruct (process_entry_sim dir root env cfg t1 t2 l1 l2 w1 w2 n Hhid Hn Hw
              Htask Hl Hsh Hanc) as (Hw' & L1 & L2).
  destruct (IH _ _ Hw') as (Hw'' & L1' & L2').
  - eapply task_sim_le; eassumption.
  - eapply ptr_sim_le; eassumption.
  - eapply ptr_sim_le; eassumption.
  - intros Ha. destruct Hsh as (V1 & _).
    destruct (patterns_at_le _ _ _ L1 V1) as [-> _]. auto.
  - split; [exact Hw''|]. split; eapply heap_le_trans; eassumption.
Qed.

Lemma lookup_new (h : list ignore_patterns_t) p :
  (h ++ [p]) !! List.length h = Some p.
Proof. apply list_lookup_middle. reflexivity. Qed.

Lemma ptr_sim_new h1 h2 p1 p2 :
  patterns p1 = patterns p2 ->
  ptr_sim (h1 ++ [p1]) (h2 ++ [p2]) (Some (List.length h1))
          (Some (List.length h2)).
Proof.
  intros E. unfold ptr_sim, valid_ptr, patterns_at.
  rewrite !lookup_new, !List.length_app. simpl. repeat split; [lia..|exact E].
Qed.

(** Loading the local ignore file in the two systems. *)
Lemma load_sim dir root env cfg t1 t2 w1 w2 :
  world_sim dir root w1 w2 ->
  task_sim dir root (heap w1) (heap w2) t1 t2 ->
  (anc dir (path t1) -> empty_or_absent env (path t1)) ->
  let r1 := if ignore_vcs cfg then load_ignore_file env (path t1) w1
            else (None, w1) in
  let r2 := if ignore_vcs cfg
            then load_ignore_file (without_ignore_file dir env) (path t2) w2
            else (None, w2) in
  world_sim dir root (snd r1) (snd r2)
  /\ heap_le (heap w1) (heap (snd r1)) /\ heap_le (heap w2) (heap (snd r2))
  /\ ptr_sim (heap (snd r1)) (heap (snd r2)) (fst r1) (fst r2)
  /\ ptr_sim (heap (snd r1)) (heap (snd r2)) (shared_set t1 (fst r1))
             (shared_set t2 (fst r2))
  /\ (anc dir (path t1) ->
      patterns_at (heap (snd r1)) (shared_set t1 (fst r1)) = []).
Proof.
  intros Hw Htask Hempty.
  pose proof Htask as (Hpath & _ & Hpar & _ & Hanc).
  assert (Hnone : world_sim dir root w1 w2
            /\ heap_le (heap w1) (heap w1) /\ heap_le (heap w2) (heap w2)
            /\ ptr_sim (heap w1) (heap w2) None None
            /\ ptr_sim (heap w1) (heap w2) (shared_set t1 None)
                       (shared_set t2 None)
            /\ (anc dir (path t1) ->
                patterns_at (heap w1) (shared_set t1 None) = [])).
  { split; [exact Hw|]. split; [apply heap_le_refl|].
    split; [apply heap_le_refl|]. split; [repeat split|].
    split; [exact Hpar|exact Hanc]. }
  cbv zeta. destruct (ignore_vcs cfg); [|exact Hnone].
  unfold load_ignore_file. rewrite <- Hpath.
  change (fopen_r (without_ignore_file dir env) (path t1 +:+ "/.gitignore"))
    with (if String.eqb (gitignore_of (path t1)) (gitignore_of dir) then None
          else fopen_r env (gitignore_of (path t1))).
  change (path t1 +:+ "/.gitignore") with (gitignore_of (path t1)).
  destruct (fopen_r env (gitignore_of (path t1))) as [fp|] eqn:Hopen.
  2:{ destruct (String.eqb _ _); exact Hnone. }
  set (p := mkIgnore (read_patterns (String.length fp) fp) 1 false).
  destruct (String.eqb (gitignore_of (path t1)) (gitignore_of dir)) eqn:Egit;
    cbn [fst snd].
  - apply String.eqb_eq, gitignore_of_inj in Egit.
    assert (Ha : anc dir (path t1)) by (left; exact Egit).
    assert (Hp : patterns p = []) by (apply (Hempty Ha fp Hopen)).
    assert (L1 : heap_le (heap w1) (heap w1 ++ [p])) by apply heap_le_app.
    split; [apply (world_sim_set_heap dir root w1 w2 _ (heap w2) Hw L1),
              heap_le_refl|].
    split; [exact L1|]. split; [apply heap_le_refl|].
    assert (Hnew : valid_ptr (heap w1 ++ [p]) (Some (List.length (heap w1)))
                   /\ patterns_at (heap w1 ++ [p])
                        (Some (List.length (heap w1))) = []).
    { simpl. rewrite lookup_new, List.length_app. simpl. split; [lia|exact Hp]. }
    destruct Hnew as [Hv Hpat]. simpl heap.
    split; [repeat split; [exact Hv|exact Hpat]|].
    split; [|intros _; exact Hpat].
    destruct Hpar as (_ & V2 & E). unfold shared_set at 1.
    repeat split; [exact Hv|exact V2|].
    rewrite Hpat. simpl shared_set. rewrite <- E. symmetry. apply Hanc, Ha.
  - assert (L1 : heap_le (heap w1) (heap w1 ++ [p])) by apply heap_le_app.
    assert (L2 : heap_le (heap w2) (heap w2 ++ [p])) by apply heap_le_app.
    split; [apply world_sim_set_heap; assumption|].
    split; [exact L1|]. split; [exact L2|]. simpl heap.
    split; [apply ptr_sim_new; reflexivity|].
    split; [apply ptr_sim_new; reflexivity|].
    intros Ha. simpl. rewrite lookup_new. apply (Hempty Ha fp Hopen).
Qed.

Lemma world_sim_counters dir root w1 w2 :
  world_sim dir root w1 w2 ->
  world_sim dir root (set_dirs_scanned (dirs_scanned w1 + 1) w1)
            (set_dirs_scanned (dirs_scanned w2 + 1) w2)
  /\ world_sim dir root (set_active_tasks (active_tasks w1 - 1) w1)
               (set_active_tasks (active_tasks w2 - 1) w2).
Proof.
  intros (Hp & Ha & H1 & H2 & H3 & H4 & H5 & H6).
  split; (split; [exact Hp|]); (split; [simpl; congruence|]);
    repeat split; simpl; congruence.
Qed.

(** One task in the two systems. *)
Lemma search_directory_sim dir root env cfg t1 t2 w1 w2 :
  no_hidden cfg = true -> names_ok env ->
  (forall p, reach root p -> anc dir p -> empty_or_absent env p) ->
  world_sim dir root w1 w2 ->
  task_sim dir root (heap w1) (heap w2) t1 t2 ->
  world_sim dir root (search_directory env cfg t1 w1)
            (search_directory (without_ignore_file dir env) cfg t2 w2)
  /\ heap_le (heap w1) (heap (search_directory env cfg t1 w1))
  /\ heap_le (heap w2)
             (heap (search_directory (without_ignore_file dir env) cfg t2 w2)).
Proof.
  intros Hhid Hnames Hempty Hw Htask.
  pose proof Htask as (Hpath & Hdepth & _ & Hreach & _).
  assert (Hend : forall u1 u2,
            world_sim dir root u1 u2 /\ heap_le (heap w1) (heap u1)
            /\ heap_le (heap w2) (heap u2) ->
            world_sim dir root (set_active_tasks (active_tasks u1 - 1) u1)
                      (set_active_tasks (active_tasks u2 - 1) u2)
            /\ heap_le (heap w1) (heap u1) /\ heap_le (heap w2) (heap u2)).
  { intros u1 u2 (Hu & L1 & L2). split; [|split; assumption].
    apply world_sim_counters. exact Hu. }
  unfold search_directory. rewrite <- Hdepth, <- Hpath. cbv zeta.
  match goal with
  | |- world_sim _ _ (set_active_tasks _ ?u1) (set_active_tasks _ ?u2) /\ _ =>
      apply (Hend u1 u2)
  end.
  destruct (negb (max_depth cfg =? -1) && (max_depth cfg <? current_depth t1)).
  { split; [exact Hw|split; apply heap_le_refl]. }
  destruct (world_sim_counters dir root w1 w2 Hw) as [Hd _].
  set (d1 := set_dirs_scanned (dirs_scanned w1 + 1) w1) in *.
  set (d2 := set_dirs_scanned (dirs_scanned w2 + 1) w2) in *.
  assert (Htask' : task_sim dir root (heap d1) (heap d2) t1 t2) by exact Htask.
  change (heap w1) with (heap d1). change (heap w2) with (heap d2).
  change (opendir (without_ignore_file dir env) (path t1))
    with (if String.eqb (path t1) dir
          then option_map
                 (List.filter (fun n => negb (String.eqb n ".gitignore")))
                 (opendir env (path t1))
          else opendir env (path t1)).
  destruct (opendir env (path t1)) as [names|] eqn:Hopen.
  2:{ destruct (String.eqb (path t1) dir); simpl;
        (split; [exact Hd|split; apply heap_le_refl]). }
  pose proof (Hnames _ _ Hopen) as Hok.
  destruct (load_sim dir root env cfg t1 t2 d1 d2 Hd Htask')
    as (Hu & L1 & L2 & Hl & Hsh & Hanc).
  { intros Ha. apply Hempty; assumption. }
  cbv zeta in Hu, L1, L2, Hl, Hsh, Hanc. rewrite <- Hpath in *.
  destruct (if ignore_vcs cfg then load_ignore_file env (path t1) d1
            else (None, d1)) as [l1 u1].
  destruct (if ignore_vcs cfg
            then load_ignore_file (without_ignore_file dir env) (path t1) d2
            else (None, d2)) as [l2 u2].
  cbn [fst snd] in *.
  assert (Hfold : forall ns, Forall no_slash ns ->
            world_sim dir root
              (free_ignore_patterns l1
                 (fold_left (process_entry env cfg t1 l1) ns u1))
              (free_ignore_patterns l2
                 (fold_left (process_entry (without_ignore_file dir env) cfg
                                           t2 l2) ns u2))
            /\ heap_le (heap d1)
                 (heap (free_ignore_patterns l1
                          (fold_left (process_entry env cfg t1 l1) ns u1)))
            /\ heap_le (heap d2)
                 (heap (free_ignore_patterns l2
                          (fold_left (process_entry
                                        (without_ignore_file dir env) cfg t2 l2)
                                     ns u2)))).
  { intros ns Hns.
    destruct (fold_process_entry_sim dir root env cfg t1 t2 l1 l2 ns Hhid Hns
                u1 u2 Hu) as (Hf & F1 & F2); try assumption.
    { eapply task_sim_le; eassumption. }
    set (f1 := fold_left _ ns u1) in *. set (f2 := fold_left _ ns u2) in *.
    rewrite (free_ignore_patterns_set_heap l1 f1),
            (free_ignore_patterns_set_heap l2 f2).
    split; [apply world_sim_set_heap;
            [exact Hf|apply free_ignore_patterns_heap_le..]|].
    split; simpl.
    - eapply heap_le_trans; [exact L1|]. eapply heap_le_trans; [exact F1|].
      apply free_ignore_patterns_heap_le.
    - eapply heap_le_trans; [exact L2|]. eapply heap_le_trans; [exact F2|].
      apply free_ignore_patterns_heap_le. }
  destruct (String.eqb (path t1) dir); simpl option_map; cbv iota.
  - rewrite (fold_without_gitignore env cfg t1 l1 names u1 Hhid).
    apply Hfold. apply List.Forall_forall. intros n Hn.
    apply List.filter_In in Hn as [Hn _].
    rewrite List.Forall_forall in Hok. apply Hok, Hn.
  - apply Hfold. exact Hok.
Qed.

(** The worker loop in the two systems. *)
Lemma run_pool_sim dir root env cfg :
  no_hidden cfg = true -> names_ok env ->
  (forall p, reach root p -> anc dir p -> empty_or_absent env p) ->
  forall fuel w1 w2,
  world_sim dir root w1 w2 ->
  pool_result_sim dir root (run_pool env cfg fuel w1)
                  (run_pool (without_ignore_file dir env) cfg fuel w2).
Proof.
  intros Hhid Hnames Hempty.
  induction fuel as [|f IH]; intros w1 w2 Hw; cbn [run_pool].
  { apply Hw. }
  pose proof Hw as ((Hsz & Hh & Ht & Hc & Hs & HF) & Ha & Hr).
  rewrite <- Hs, <- Ha, <- Hc.
  destruct (negb (shutdown (pool w1)) && (active_tasks w1 <=? 0)).
  { apply IH. split; [|split; assumption].
    unfold pool_sim. simpl. repeat split; assumption. }
  destruct (count (pool w1) =? 0)%nat.
  { destruct (shutdown (pool w1)); [exact Hw|exact Hr]. }
  unfold take. rewrite <- Hh, <- Hsz, <- Hc, <- Hs, <- Ht.
  pose proof (proj1 (Forall2_lookup _ _ _) HF (head (pool w1))) as Hslot.
  destruct Hslot as [s1 s2 Hslot|]; simpl; [|exact Hr].
  destruct s1 as [t1|], s2 as [t2|]; simpl in Hslot; try contradiction;
    [|exact Hr].
  simpl.
  match goal with
  | |- pool_result_sim _ _ (run_pool _ _ _ (search_directory _ _ _ ?u1))
                       (run_pool _ _ _ (search_directory _ _ _ ?u2)) =>
      assert (Hu : world_sim dir root u1 u2)
  end.
  { split; [|split; assumption]. unfold pool_sim. simpl.
    repeat split; assumption. }
  apply IH.
  apply (search_directory_sim dir root env cfg t1 t2 _ _ Hhid Hnames Hempty Hu).
  exact Hslot.
Qed.

Lemma json_trailer_graft w0 cfg w :
  json_trailer cfg (graft w0 w) = graft w0 (json_trailer cfg w).
Proof.
  unfold json_trailer. destruct (String.eqb (output_format cfg) "json");
    [|reflexivity].
  change (matches_found (graft w0 w)) with (matches_found w).
  destruct (0 <? matches_found w); reflexivity.
Qed.

(** The seeder in the two systems, started on a pool with an empty
    queue. *)
Lemma walk_sim dir env cfg w fuel :
  no_hidden cfg = true -> names_ok env ->
  (forall p, reach (root_dir cfg) p -> anc dir p -> empty_or_absent env p) ->
  Forall (fun s => s = None) (queue (pool w)) ->
  same_report (walk env cfg w fuel)
              (walk (without_ignore_file dir env) cfg w fuel).
Proof.
  intros Hhid Hnames Hempty Hfresh. unfold walk.
  set (w1 := if String.eqb (output_format cfg) "json" then _ else w).
  set (w2 := if String.eqb (output_format cfg) "csv" then _ else w1).
  set (t0 := mkTask (root_dir cfg) 0 None).
  set (w3 := set_pool _ _).
  assert (Hq : queue (pool w2) = queue (pool w)).
  { subst w2 w1. destruct (String.eqb _ "json"), (String.eqb _ "csv"); reflexivity. }
  assert (Ht0 : task_sim dir (root_dir cfg) (heap w3) (heap w3) t0 t0).
  { repeat split. left. reflexivity. }
  assert (H3 : world_sim dir (root_dir cfg) w3 w3).
  { split; [|repeat split]. subst w3. simpl.
    apply (threadpool_add_sim dir (root_dir cfg) _ _ (pool w2) (pool w2) t0 t0);
      [|exact Ht0].
    repeat split. rewrite Hq. apply Forall_Forall2_diag.
    eapply List.Forall_impl; [|exact Hfresh]. intros s ->. exact I. }
  pose proof (run_pool_sim dir (root_dir cfg) env cfg Hhid Hnames Hempty fuel
                w3 w3 H3) as Hrun.
  destruct (run_pool env cfg fuel w3) as [u1|o1],
           (run_pool (without_ignore_file dir env) cfg fuel w3) as [u2|o2];
    simpl in Hrun; try contradiction; [|exact Hrun].
  destruct Hrun as (_ & _ & Hr). split; [reflexivity|].
  rewrite <- (graft_rest u1 u2 Hr), json_trailer_graft. repeat split.
Qed.

Lemma parse_options_without dir env opts : forall l,
  parse_options (without_ignore_file dir env) opts l = parse_options env opts l.
Proof.
  induction opts as [|[o a] opts IH]; intros l; simpl; [reflexivity|].
  replace (handle_option (without_ignore_file dir env) o a l)
    with (handle_option env o a l) by (destruct o; reflexivity).
  destruct (handle_option env o a l); [reflexivity|apply IH].
Qed.

Lemma setup_without dir env l positional :
  setup (without_ignore_file dir env) l positional = setup env l positional.
Proof. reflexivity. Qed.

Lemma threadpool_create_fresh n size p :
  threadpool_create n size = Some p ->
  queue p = replicate (Z.to_nat size) None.
Proof.
  unfold threadpool_create. destruct ((n <=? 0) || (size <=? 0));
    [discriminate|]. intros [= <-]. reflexivity.
Qed.

Lemma setup_fresh_queue env l positional cfg w :
  setup env l positional = inr (cfg, w) ->
  Forall (fun s => s = None) (queue (pool w)).
Proof.
  unfold setup. destruct (name_pattern l); [|discriminate].
  destruct (match output_file _ with Some _ => _ | None => _ end);
    [|discriminate].
  destruct (compile_regex env _ _); [|discriminate].
  destruct (match content_pattern l with Some _ => _ | None => _ end);
    [|discriminate].
  destruct (threadpool_create _ 4096) as [p|] eqn:Hp; [|discriminate].
  intros [= _ <-]. cbn [pool].
  rewrite (threadpool_create_fresh _ _ _ Hp). apply Forall_replicate.
  reflexivity.
Qed.

(** C4 (amended).  With hidden entries skipped, a walk over a tree in
    which the directory [dir] and the directories above it, as far as the
    walk reaches them, have an ignore file without patterns or none at
    all ends in the same way and with the same output, counters and hook
    requests as the walk with the ignore file of [dir] absent. *)
Theorem empty_ignore_file_equivalent env opts positional fuel dir l cfg w0 :
  parse_options env opts no_locals = inr l ->
  setup env l positional = inr (cfg, w0) ->
  no_hidden cfg = true ->
  names_ok env ->
  (forall p, reach (root_dir cfg) p -> anc dir p -> empty_or_absent env p) ->
  same_report (main env opts positional fuel)
              (main (without_ignore_file dir env) opts positional fuel).
Proof.
  intros Hparse Hsetup Hhid Hnames Hempty. unfold main.
  rewrite parse_options_without. fold no_locals. rewrite Hparse.
  rewrite setup_without, Hsetup.
  apply walk_sim; try assumption.
  eapply setup_fresh_queue. exact Hsetup.
Qed.

Lemma no_slash_b_spec name : no_slash_b name = true -> no_slash name.
Proof.
  unfold no_slash_b, no_slash. intros H Hin.
  apply negb_true_iff in H.
  assert (existsb (Ascii.eqb "/") (list_ascii_of_string name) = true);
    [|congruence].
  apply existsb_exists. exists "/"%char. split; [exact Hin|reflexivity].
Qed.

Lemma with_files_names_ok dirs stats files env :
  all_names_ok_b dirs = true -> names_ok (with_files dirs stats files env).
Proof.
  intros Hall p names. unfold with_files, opendir, assoc.
  induction dirs as [|[d ns] dirs IH]; simpl; [discriminate|].
  simpl in Hall. apply andb_true_iff in Hall as [Hns Hall].
  destruct (String.eqb d p); [|apply IH; exact Hall].
  simpl. intros [= <-]. apply List.Forall_forall. intros n Hn.
  apply no_slash_b_spec. rewrite forallb_forall in Hns. apply Hns, Hn.
Qed.

Lemma empty_ignore_file_equivalent_witness :
  same_report (main comment_only_env just_pattern None 3)
              (main (without_ignore_file "a" comment_only_env) just_pattern
                    None 3).
Proof.
  refine (empty_ignore_file_equivalent comment_only_env just_pattern None 3 "a"
            _ _ _ eq_refl eq_refl eq_refl _ _).
  - apply with_files_names_ok. reflexivity.
  - intros p _ [->|[s Hs]] fp Hfp.
    + injection Hfp as <-. reflexivity.
    + exfalso. destruct p as [|c [|c' p]]; simpl in Hs; discriminate Hs.
Defined.

(** The claim as stated fails below a directory with patterns: the empty
    a/b/.gitignore takes the place of the set of a/.gitignore for a/b/c,
    and a/b/c/secret is reported; with a/b/.gitignore absent it is not.
    It also fails when hidden entries are shown: the ignore file is then
    an entry of its directory and is reported itself. *)
Lemma empty_ignore_file_counterexample :
  empty_or_absent nested_env "a/b"
  /\ report_of "a/b/c/secret" (main nested_env just_pattern None 5)
     = Some (0, 3, true)
  /\ report_of "a/b/c/secret"
       (main (without_ignore_file "a/b" nested_env) just_pattern None 5)
     = Some (0, 3, false)
  /\ report_of "a/.gitignore"
       (main comment_only_env (just_pattern ++ [(OptShowHidden, "")]) None 3)
     = Some (0, 1, true)
  /\ report_of "a/.gitignore"
       (main (without_ignore_file "a" comment_only_env)
             (just_pattern ++ [(OptShowHidden, "")]) None 3)
     = Some (0, 1, false).
Proof.
  split; [|repeat split; vm_compute; reflexivity].
  intros fp Hfp. injection Hfp as <-. reflexivity.
Qed.

(** An ignore file of comments and blank lines yields the empty set. *)
Lemma read_patterns_no_pattern : forall ls fp rounds,
  lines_of fp = ls ->
  Forall (fun l => (String.length l <= 1023)%nat /\ no_pattern_line l = true)
         ls ->
  read_patterns rounds fp = [].
Proof.
  induction ls as [|l ls IH]; intros fp rounds Hl Hok.
  - apply lines_of_nil in Hl. subst fp. destruct rounds; reflexivity.
  - destruct rounds as [|r]; [reflexivity|].
    inversion Hok as [|? ? [Hlen Hno] Hrest]; subst.
    destruct (fgets_aux_line fp l ls 1023 Hl Hlen) as (rest & Hg & Hrest').
    assert (Hf : fgets 1024 fp = Some (l, rest)).
    { unfold fgets. destruct fp; [discriminate Hl|]. simpl Nat.sub.
      rewrite Hg. reflexivity. }
    cbn [read_patterns]. rewrite Hf. unfold no_pattern_line in Hno.
    rewrite Hno. apply (IH rest r Hrest' Hrest).
Qed.

(** Scenario 4: "--size +1K" keeps the file of 2048 bytes only. *)
Example size_walk :
  exists w, main sizes_env [(OptPattern, ".*"); (OptDirectory, "s");
                            (OptSize, "+1K")] None 3 = Exit 0 w
            /\ contents (out_stream w) = line_of "s/big" (file_stat 2048 100).
Proof. eexists. split; vm_compute; reflexivity. Qed.

(** ** C6, in general: a task gives back only the set it loaded *)

Lemma kept_below_refl n h : kept_below n h h.
Proof. intros j p _ Hp _. exists p. split; [exact Hp|split; [lia|reflexivity]]. Qed.

Lemma kept_below_trans n h1 h2 h3 :
  kept_below n h1 h2 -> kept_below n h2 h3 -> kept_below n h1 h3.
Proof.
  intros H1 H2 j p Hj Hp Hlive.
  destruct (H1 j p Hj Hp Hlive) as (p' & Hp' & Hle & Hf).
  destruct (H2 j p' Hj Hp' ltac:(lia)) as (p'' & Hp'' & Hle' & Hf').
  exists p''. split; [exact Hp''|split; [lia|congruence]].
Qed.

Lemma kept_below_same n w w' : heap w' = heap w -> kept_below n (heap w) (heap w').
Proof. intros ->. apply kept_below_refl. Qed.

Lemma incr_refcount_kept n i w :
  kept_below n (heap w) (heap (incr_refcount i w)).
Proof.
  unfold incr_refcount. destruct (heap w !! i) as [q|] eqn:Hq;
    [|apply kept_below_refl].
  simpl. intros j p _ Hp _. destruct (decide (i = j)) as [->|Hne].
  - rewrite list_lookup_insert_eq by (eapply lookup_lt_Some, Hp).
    eexists. split; [reflexivity|]. rewrite Hp in Hq. injection Hq as <-.
    simpl. split; [lia|reflexivity].
  - rewrite list_lookup_insert_ne by exact Hne.
    exists p. split; [exact Hp|split; [lia|reflexivity]].
Qed.

(** A release at or above [n] does not touch the sets below [n]. *)
Lemma free_ignore_patterns_kept n o w :
  (forall l, o = Some l -> (n <= l)%nat) ->
  kept_below n (heap w) (heap (free_ignore_patterns o w)).
Proof.
  intros Habove. unfold free_ignore_patterns.
  destruct o as [l|]; [|apply kept_below_refl].
  destruct (heap w !! l) as [q|]; [|apply kept_below_refl].
  simpl. intros j p Hj Hp _. specialize (Habove l eq_refl).
  rewrite list_lookup_insert_ne by lia.
  exists p. split; [exact Hp|split; [lia|reflexivity]].
Qed.

Lemma submit_child_kept n inherited full_path depth w :
  kept_below n (heap w) (heap (submit_child inherited full_path depth w)).
Proof.
  unfold submit_child.
  set (u := match inherited with Some i => incr_refcount i w | None => w end).
  assert (Hu : kept_below n (heap w) (heap u)).
  { subst u. destruct inherited; [apply incr_refcount_kept|apply kept_below_refl]. }
  cbv zeta. change (pool (set_active_tasks (active_tasks u + 1) u)) with (pool u).
  destruct (threadpool_add (pool u) _) as [q r].
  destruct (r =? 0); [exact Hu|]. cbn [parent_ignore].
  destruct inherited as [i|]; [|exact Hu].
  subst u. clear Hu. intros j p Hj Hp Hlive.
  unfold free_ignore_patterns, incr_refcount.
  destruct (heap w !! i) as [q0|] eqn:Hq; simpl.
  - rewrite list_lookup_insert_eq by (eapply lookup_lt_Some, Hq). simpl.
    rewrite list_insert_insert_eq.
    destruct (decide (i = j)) as [->|Hne].
    + rewrite list_lookup_insert_eq by (eapply lookup_lt_Some, Hp).
      eexists. split; [reflexivity|]. rewrite Hp in Hq. injection Hq as <-.
      simpl. replace (1 <? refcount p + 1) with true
        by (symmetry; apply Z.ltb_lt; lia).
      split; [lia|reflexivity].
    + rewrite list_lookup_insert_ne by exact Hne.
      exists p. split; [exact Hp|split; [lia|reflexivity]].
  - rewrite Hq. exists p. split; [exact Hp|split; [lia|reflexivity]].
Qed.

Lemma process_entry_kept n env cfg task local_ignore w d_name :
  kept_below n (heap w) (heap (process_entry env cfg task local_ignore w d_name)).
Proof.
  unfold process_entry.
  destruct (String.eqb d_name "." || String.eqb d_name "..");
    [apply kept_below_refl|].
  destruct (lstat env _) as [sb|]; [|apply kept_below_refl].
  destruct (no_hidden cfg && _); [apply kept_below_refl|].
  destruct (existsb _ _); [apply kept_below_refl|].
  destruct (ignore_vcs cfg && _); [apply kept_below_refl|].
  pose proof (entry_filter_same_tasks env cfg d_name
                (path task +:+ "/" +:+ d_name) sb w) as Hf.
  destruct (entry_filter env cfg d_name _ sb w) as [is_match w1]. simpl in Hf.
  set (w2 := if is_match then _ else w1).
  assert (H2 : heap w2 = heap w).
  { subst w2. destruct is_match; [|apply Hf].
    destruct (report_match_same_tasks env cfg (path task +:+ "/" +:+ d_name)
                sb w1) as (_ & -> & _). apply Hf. }
  destruct (S_ISDIR (st_mode sb) && recursion_gate cfg task);
    [|apply kept_below_same; exact H2].
  rewrite spawn_child_shared, <- H2. apply submit_child_kept.
Qed.

Lemma fold_process_entry_kept n env cfg task local_ignore names : forall w,
  kept_below n (heap w)
             (heap (fold_left (process_entry env cfg task local_ignore) names w)).
Proof.
  induction names as [|d names IH]; intros w; simpl; [apply kept_below_refl|].
  eapply kept_below_trans; [apply process_entry_kept|apply IH].
Qed.

(** Whatever a task does, the live sets that existed before it keep their
    references: [search_directory] gives back the reference of the set it
    loaded and never the one of the set it inherited. *)
Lemma search_directory_keeps_references env cfg task w i p :
  heap w !! i = Some p -> 0 < refcount p ->
  exists p', heap (search_directory env cfg task w) !! i = Some p'
             /\ refcount p <= refcount p' /\ freed p' = freed p.
Proof.
  intros Hp Hlive.
  assert (H : kept_below (List.length (heap w)) (heap w)
                         (heap (search_directory env cfg task w))).
  { unfold search_directory. cbv zeta.
    change (heap (set_active_tasks ?a ?u)) with (heap u).
    destruct (negb (max_depth cfg =? -1) && _); [apply kept_below_refl|].
    destruct (opendir env (path task)) as [names|]; [|apply kept_below_refl].
    set (d := set_dirs_scanned (dirs_scanned w + 1) w).
    change (heap w) with (heap d).
    assert (Hload : exists l u,
              (if ignore_vcs cfg then load_ignore_file env (path task) d
               else (None, d)) = (l, u)
              /\ kept_below (List.length (heap d)) (heap d) (heap u)
              /\ forall j, l = Some j -> (List.length (heap d) <= j)%nat).
    { destruct (ignore_vcs cfg);
        [|exists None, d; split; [reflexivity|];
          split; [apply kept_below_refl|discriminate]].
      unfold load_ignore_file. destruct (fopen_r env _) as [fp|];
        [|exists None, d; split; [reflexivity|];
          split; [apply kept_below_refl|discriminate]].
      do 2 eexists. split; [reflexivity|]. split.
      - intros j q Hj Hq _. exists q. simpl.
        split; [apply lookup_app_l_Some; exact Hq|split; [lia|reflexivity]].
      - intros j [= <-]. apply le_n. }
    destruct Hload as (l & u & -> & Hk & Habove).
    eapply kept_below_trans; [exact Hk|].
    eapply kept_below_trans; [apply fold_process_entry_kept|].
    apply free_ignore_patterns_kept. exact Habove. }
  apply (H i p); [eapply lookup_lt_Some; exact Hp|exact Hp|exact Hlive].
Qed.

(** ** threadpool.c: the ring buffer is a first-in, first-out queue *)

Lemma mod_inj_near (a b n : nat) :
  (a <= b < a + n)%nat -> (a mod n = b mod n)%nat -> a = b.
Proof.
  intros Hab Hmod.
  destruct (Nat.eq_dec n 0%nat) as [->|Hn]; [lia|].
  pose proof (Nat.div_mod_eq a n) as Ha. pose proof (Nat.div_mod_eq b n) as Hb.
  rewrite Hmod in Ha.
  assert (Hq : (a / n = b / n)%nat); [|rewrite Hq in Ha; lia].
  assert (Hle : (a / n <= b / n)%nat) by (apply Nat.Div0.div_le_mono; lia).
  destruct (Nat.eq_dec (a / n)%nat (b / n)%nat) as [|Hne]; [assumption|].
  assert (Hlt : (S (a / n) <= b / n)%nat) by lia.
  assert (n * S (a / n) <= n * (b / n))%nat by (apply Nat.mul_le_mono_l; lia).
  lia.
Qed.

(** X1.  On a well-formed pool an accepted [threadpool_add] puts the task
    behind the waiting ones, and the worker takes the oldest waiting task
    and leaves the others in their order. *)
Theorem threadpool_fifo p t :
  ring_ok p ->
  (snd (threadpool_add p t) = 0 ->
   pending (fst (threadpool_add p t)) = (pending p ++ [Some t])%list)
  /\ ((0 < count p)%nat ->
      pending p = fst (take p) :: pending (snd (take p))).
Proof.
  intros (Hsz & Hlen & Hhead & Htail & Hcount & Hslots). split.
  - unfold threadpool_add.
    destruct ((count p =? queue_size p)%nat || shutdown p) eqn:E;
      [discriminate|]. intros _.
    apply orb_false_iff in E as [E _]. apply Nat.eqb_neq in E.
    unfold pending. cbn [fst queue head count queue_size].
    rewrite seq_S, map_app. cbn [map Nat.add]. f_equal.
    + apply map_ext_in. intros k Hk. apply in_seq in Hk.
      rewrite list_lookup_insert_ne; [reflexivity|].
      rewrite Htail. intros Heq. symmetry in Heq.
      apply mod_inj_near in Heq; lia.
    + rewrite <- Htail, list_lookup_insert_eq; [reflexivity|].
      rewrite Hlen, Htail. apply Nat.mod_upper_bound. lia.
  - intros Hpos. unfold pending, take. cbn [fst snd queue head count queue_size].
    destruct (count p) as [|c]; [lia|].
    replace (S c - 1)%nat with c by lia.
    rewrite <- cons_seq, <- seq_shift. cbn [map]. rewrite List.map_map. f_equal.
    + rewrite Nat.add_0_r, Nat.mod_small by assumption. reflexivity.
    + apply map_ext. intros k. rewrite Nat.Div0.add_mod_idemp_l.
      do 3 f_equal. lia.
Qed.

Lemma threadpool_fifo_witness :
  pending (fst (threadpool_add wrapped_pool (mkTask "c" 1 None)))
  = [Some (mkTask "a" 1 None); Some (mkTask "b" 1 None);
     Some (mkTask "c" 1 None)]
  /\ pending wrapped_pool
     = fst (take wrapped_pool) :: pending (snd (take wrapped_pool)).
Proof.
  assert (Hok : ring_ok wrapped_pool).
  { unfold ring_ok, wrapped_pool. simpl.
    split; [lia|]. split; [reflexivity|]. split; [lia|].
    split; [reflexivity|]. split; [lia|].
    intros [|[|k]] Hk; [eexists; reflexivity..|lia]. }
  destruct (threadpool_fifo wrapped_pool (mkTask "c" 1 None) Hok) as [Ha Ht].
  split.
  - rewrite (Ha eq_refl). reflexivity.
  - apply Ht. simpl. lia.
Defined.

(** ** search.c: the counters along a walk *)

Lemma same_counters_refl w : same_counters w w.
Proof. repeat split. Qed.

Lemma same_counters_trans w1 w2 w3 :
  same_counters w1 w2 -> same_counters w2 w3 -> same_counters w1 w3.
Proof. unfold same_counters. intros (-> & -> & ->) (-> & -> & ->). auto. Qed.

Lemma scan_lines_counters rounds cfg path : forall fp line_num found w,
  same_counters w (snd (scan_lines rounds cfg path fp line_num found w)).
Proof.
  induction rounds as [|r IH]; intros fp n found w; simpl;
    [apply same_counters_refl|].
  destruct (fgets 4096 fp) as [[buffer fp']|]; [|apply same_counters_refl].
  destruct (match_regex (content_regex cfg) buffer); [|apply IH].
  destruct (with_line_number cfg); [|apply same_counters_refl].
  eapply same_counters_trans; [|apply IH]. repeat split.
Qed.

Lemma entry_filter_counters env cfg name full_path sb w :
  same_counters w (snd (entry_filter env cfg name full_path sb w)).
Proof.
  unfold entry_filter, content_rejects, search_file_content.
  match goal with
  | |- context [if ?b && compiled (content_regex cfg) then _ else _] =>
      destruct (b && compiled (content_regex cfg)) eqn:E
  end; [|apply same_counters_refl].
  apply andb_true_iff in E as [_ ->]. simpl negb. cbv iota.
  destruct (S_ISREG (st_mode sb)); simpl; [|apply same_counters_refl].
  destruct (fopen_r env full_path) as [fp|]; [|apply same_counters_refl].
  pose proof (scan_lines_counters (String.length fp) cfg full_path fp 1 false w).
  destruct (scan_lines _ _ _ _ _ _ _). assumption.
Qed.

Lemma handle_match_counters env cfg path c sb w :
  same_counters w (handle_match env cfg path c sb w).
Proof.
  unfold handle_match, print_result, print_long_listing.
  repeat match goal with
         | |- context [if ?b then _ else _] => destruct b
         | |- context [match exec_command cfg with _ => _ end] =>
             destruct (exec_command cfg)
         end; repeat split.
Qed.

Lemma submit_child_counters inherited full_path depth w :
  same_counters w (submit_child inherited full_path depth w).
Proof.
  unfold submit_child.
  set (u := match inherited with Some i => incr_refcount i w | None => w end).
  assert (Hu : same_counters w u).
  { subst u. destruct inherited as [i|]; [|apply same_counters_refl].
    rewrite incr_refcount_set_heap. repeat split. }
  cbv zeta. destruct (threadpool_add _ _) as [p r].
  destruct (r =? 0); [exact Hu|].
  rewrite free_ignore_patterns_set_heap. exact Hu.
Qed.

(** An entry adds at most one match, and a file only with its match. *)
Lemma process_entry_counters env cfg task local_ignore w d_name :
  counters_ok w ->
  counters_ok (process_entry env cfg task local_ignore w d_name)
  /\ dirs_scanned (process_entry env cfg task local_ignore w d_name)
     = dirs_scanned w.
Proof.
  intros Hok. unfold process_entry.
  destruct (String.eqb d_name "." || String.eqb d_name ".."); [auto|].
  destruct (lstat env _) as [sb|]; [|auto].
  destruct (no_hidden cfg && _); [auto|].
  destruct (existsb _ _); [auto|].
  destruct (ignore_vcs cfg && _); [auto|].
  pose proof (entry_filter_counters env cfg d_name
                (path task +:+ "/" +:+ d_name) sb w) as Hf.
  destruct (entry_filter env cfg d_name _ sb w) as [is_match w1]. simpl in Hf.
  set (w2 := if is_match then _ else w1).
  assert (H2 : counters_ok w2 /\ dirs_scanned w2 = dirs_scanned w).
  { destruct Hf as (Hfi & Hd & Hm). destruct Hok as [Hfm Hdir].
    subst w2. destruct is_match.
    - unfold report_match.
      match goal with
      | |- context [handle_match env cfg ?p ?c sb ?u] =>
          destruct (handle_match_counters env cfg p c sb u) as (Ef & Ed & Em)
      end.
      unfold counters_ok. rewrite Ef, Ed, Em.
      destruct (S_ISREG (st_mode sb)); simpl; rewrite ?Hfi, ?Hd, ?Hm;
        (split; [split; lia|reflexivity]).
    - unfold counters_ok. rewrite Hfi, Hd, Hm. auto. }
  destruct (S_ISDIR (st_mode sb) && recursion_gate cfg task); [|exact H2].
  rewrite spawn_child_shared.
  destruct (submit_child_counters (shared_set task local_ignore)
              (path task +:+ "/" +:+ d_name) (current_depth task + 1) w2)
    as (Ef & Ed & Em).
  unfold counters_ok. rewrite Ef, Ed, Em. exact H2.
Qed.

Lemma fold_process_entry_counters env cfg task local_ignore names : forall w,
  counters_ok w ->
  counters_ok (fold_left (process_entry env cfg task local_ignore) names w)
  /\ dirs_scanned (fold_left (process_entry env cfg task local_ignore) names w)
     = dirs_scanned w.
Proof.
  induction names as [|d names IH]; intros w Hok; simpl; [auto|].
  destruct (process_entry_counters env cfg task local_ignore w d Hok) as [H1 E1].
  destruct (IH _ H1) as [H2 E2]. split; [exact H2|congruence].
Qed.

(** A task counts its directory once, unless it is deeper than the limit. *)
Lemma search_directory_counters env cfg task w :
  counters_ok w ->
  counters_ok (search_directory env cfg task w)
  /\ dirs_scanned (search_directory env cfg task w)
     = dirs_scanned w
       + (if negb (max_depth cfg =? -1) && (max_depth cfg <? current_depth task)
          then 0 else 1).
Proof.
  intros Hok. unfold search_directory. cbv zeta.
  unfold counters_ok.
  change (files_scanned (set_active_tasks ?a ?u)) with (files_scanned u).
  change (matches_found (set_active_tasks ?a ?u)) with (matches_found u).
  change (dirs_scanned (set_active_tasks ?a ?u)) with (dirs_scanned u).
  fold (counters_ok).
  destruct (negb (max_depth cfg =? -1) && _); [split; [exact Hok|lia]|].
  set (d := set_dirs_scanned (dirs_scanned w + 1) w).
  assert (Hd : counters_ok d) by (destruct Hok as [? ?]; split; simpl; lia).
  destruct (opendir env (path task)) as [names|];
    [|split; [exact Hd|reflexivity]].
  assert (Hload : exists l u,
            (if ignore_vcs cfg then load_ignore_file env (path task) d
             else (None, d)) = (l, u) /\ same_counters d u).
  { destruct (ignore_vcs cfg); [|do 2 eexists; split; [reflexivity|repeat split]].
    unfold load_ignore_file. destruct (fopen_r env _);
      do 2 eexists; (split; [reflexivity|repeat split]). }
  destruct Hload as (l & u & -> & Ef & Ed & Em).
  assert (Hu : counters_ok u) by (unfold counters_ok; rewrite Ef, Ed, Em; exact Hd).
  destruct (fold_process_entry_counters env cfg task l names u Hu) as [Hf Edf].
  set (f := fold_left _ names u) in *.
  rewrite (free_ignore_patterns_set_heap l f). split; [exact Hf|].
  change (dirs_scanned f = dirs_scanned w + 1).
  rewrite Edf, Ed. reflexivity.
Qed.

(** ** main.c: the state in which the walk returns *)

(** When the pool is destroyed the queue is empty, no task is counted and
    the counters are in order. *)
Lemma run_pool_exit env cfg fuel : forall w w',
  ring_ok (pool w) -> running w = 0 -> counters_ok w ->
  run_pool env cfg fuel w = inl w' ->
  (count (pool w') = 0%nat /\ shutdown (pool w') = true /\ active_tasks w' = 0)
  /\ counters_ok w'.
Proof.
  induction fuel as [|f IH]; intros w w' Hok Hrun Hc; cbn [run_pool];
    [discriminate|].
  destruct (negb (shutdown (pool w)) && (active_tasks w <=? 0)) eqn:Ewake.
  { apply IH; [exact Hok|exact Hrun|exact Hc]. }
  destruct (count (pool w) =? 0)%nat eqn:Ecount.
  { destruct (shutdown (pool w)) eqn:Es; [|discriminate]. intros [= <-].
    apply Nat.eqb_eq in Ecount. unfold running in Hrun. rewrite Ecount in Hrun.
    repeat split; try assumption; try lia; apply Hc. }
  apply Nat.eqb_neq in Ecount.
  destruct (take_ok (pool w) Hok ltac:(lia)) as (t & Ht & Hok' & Hcnt & Hs).
  destruct (take (pool w)) as [o p]. simpl in Ht, Hok', Hcnt, Hs. subst o.
  destruct (search_directory_balanced env cfg t (set_pool p w) Hok')
    as (Hok2 & _ & Hrun2).
  apply IH; [exact Hok2| |].
  - rewrite Hrun2. unfold running in *. simpl. rewrite Hcnt. lia.
  - apply (search_directory_counters env cfg t (set_pool p w)). exact Hc.
Qed.

Lemma setup_world env l positional cfg w :
  setup env l positional = inr (cfg, w) ->
  active_tasks w = 0 /\ files_scanned w = 0 /\ dirs_scanned w = 0
  /\ matches_found w = 0 /\ heap w = [] /\ actions w = []
  /\ err_stream w = fresh_stream false.
Proof.
  unfold setup. destruct (name_pattern l); [|discriminate].
  destruct (match output_file _ with Some _ => _ | None => _ end);
    [|discriminate].
  destruct (compile_regex env _ _); [|discriminate].
  destruct (match content_pattern l with Some _ => _ | None => _ end);
    [|discriminate].
  destruct (threadpool_create _ 4096) as [p|] eqn:Hp; [|discriminate].
  intros [= _ <-]. simpl. repeat split.
Qed.

Lemma json_trailer_quiet cfg w :
  pool (json_trailer cfg w) = pool w
  /\ active_tasks (json_trailer cfg w) = active_tasks w
  /\ same_counters w (json_trailer cfg w).
Proof.
  unfold json_trailer. destruct (String.eqb _ "json"); [|repeat split].
  destruct (0 <? matches_found w); repeat split.
Qed.

Lemma walk_exit env cfg w fuel code w' :
  ring_ok (pool w) -> count (pool w) = 0%nat -> shutdown (pool w) = false ->
  counters_ok w ->
  walk env cfg w fuel = Exit code w' ->
  (count (pool w') = 0%nat /\ shutdown (pool w') = true /\ active_tasks w' = 0)
  /\ counters_ok w'.
Proof.
  intros Hok Hc Hs Hcnt. unfold walk.
  set (w1 := if String.eqb (output_format cfg) "json" then _ else w).
  set (w2 := if String.eqb (output_format cfg) "csv" then _ else w1).
  assert (Hp : pool w2 = pool w /\ same_counters w w2).
  { subst w2 w1. destruct (String.eqb _ "json"), (String.eqb _ "csv");
      repeat split. }
  destruct Hp as (Hp & Ef & Ed & Em).
  set (t0 := mkTask (root_dir cfg) 0 None).
  set (w3 := set_pool _ _).
  assert (H3 : ring_ok (pool w3) /\ running w3 = 0 /\ counters_ok w3).
  { subst w3. unfold running, counters_ok.
    cbn [pool set_pool active_tasks set_active_tasks files_scanned
         dirs_scanned matches_found].
    rewrite Hp, Ef, Ed, Em.
    destruct (seeded_pool (pool w) t0 Hok Hc Hs) as [? ->].
    split; [assumption|split; [reflexivity|exact Hcnt]]. }
  destruct H3 as (Hok3 & Hrun3 & Hcnt3).
  destruct (run_pool env cfg fuel w3) as [w4|o] eqn:Hrun.
  - intros [= _ <-].
    destruct (run_pool_exit env cfg fuel w3 w4 Hok3 Hrun3 Hcnt3 Hrun)
      as ((H1 & H2 & H3) & H4).
    destruct (json_trailer_quiet cfg w4) as (Jp & Ja & Jf & Jd & Jm).
    unfold counters_ok.
    cbn [pool active_tasks files_scanned dirs_scanned matches_found
         set_err_stream].
    rewrite Jp, Ja, Jf, Jd, Jm. split; [auto|exact H4].
  - pose proof (run_pool_not_stuck env cfg fuel w3 Hok3 Hrun3) as Hns.
    rewrite Hrun in Hns. destruct o; try contradiction. discriminate.
Qed.

(** X2. When [main] returns after the walk, the pool has been shut down
    with an empty queue and the counter of tasks in flight is back at
    zero: every task that was counted has been run to its end. *)
Theorem main_exit_quiescent env opts positional fuel code w :
  main env opts positional fuel = Exit code w ->
  count (pool w) = 0%nat /\ shutdown (pool w) = true /\ active_tasks w = 0.
Proof.
  unfold main.
  destruct (parse_options env opts _) as [c|l]; [discriminate|].
  destruct (setup env l positional) as [c|[cfg w0]] eqn:Hsetup; [discriminate|].
  destruct (setup_pool env l positional cfg w0 Hsetup) as (Hok & Hc & Hs).
  destruct (setup_world env l positional cfg w0 Hsetup)
    as (_ & Hf & Hd & Hm & _).
  intros Hw. apply (walk_exit env cfg w0 fuel code w Hok Hc Hs); [|exact Hw].
  unfold counters_ok. rewrite Hf, Hd, Hm. lia.
Qed.

Lemma main_exit_quiescent_witness :
  exists w, main tree_env just_pattern None 4 = Exit 0 w
            /\ count (pool w) = 0%nat /\ shutdown (pool w) = true
            /\ active_tasks w = 0.
Proof.
  eexists. split; [vm_compute; reflexivity|].
  apply (main_exit_quiescent tree_env just_pattern None 4 0).
  vm_compute. reflexivity.
Defined.

(** X3. In the statistics of a finished walk no counter is negative and
    the number of files is at most the number of matches: a file is
    counted only when it is reported as a match. *)
Theorem main_exit_counters env opts positional fuel code w :
  main env opts positional fuel = Exit code w ->
  0 <= files_scanned w <= matches_found w /\ 0 <= dirs_scanned w.
Proof.
  unfold main.
  destruct (parse_options env opts _) as [c|l]; [discriminate|].
  destruct (setup env l positional) as [c|[cfg w0]] eqn:Hsetup; [discriminate|].
  destruct (setup_pool env l positional cfg w0 Hsetup) as (Hok & Hc & Hs).
  destruct (setup_world env l positional cfg w0 Hsetup)
    as (_ & Hf & Hd & Hm & _).
  intros Hw. apply (walk_exit env cfg w0 fuel code w Hok Hc Hs); [|exact Hw].
  unfold counters_ok. rewrite Hf, Hd, Hm. lia.
Qed.

Lemma main_exit_counters_witness :
  exists w, main tree_env just_pattern None 4 = Exit 0 w
            /\ (0 <= files_scanned w <= matches_found w /\ 0 <= dirs_scanned w).
Proof.
  eexists. split; [vm_compute; reflexivity|].
  apply (main_exit_counters tree_env just_pattern None 4 0).
  vm_compute. reflexivity.
Defined.

(** ** The queue as a list *)

Lemma pending_add p t :
  ring_ok p ->
  pending (fst (threadpool_add p t))
  = if snd (threadpool_add p t) =? 0 then (pending p ++ [Some t])%list
    else pending p.
Proof.
  intros (Hsz & Hlen & Hhead & Htail & Hcount & Hslots).
  unfold threadpool_add.
  destruct ((count p =? queue_size p)%nat || shutdown p) eqn:E; [reflexivity|].
  apply orb_false_iff in E as [E _]. apply Nat.eqb_neq in E.
  unfold pending. cbn [fst snd queue head count queue_size Z.eqb].
  rewrite seq_S, map_app. cbn [map Nat.add]. f_equal.
  - apply map_ext_in. intros k Hk. apply in_seq in Hk.
    rewrite list_lookup_insert_ne; [reflexivity|].
    rewrite Htail. intros Heq. symmetry in Heq.
    apply mod_inj_near in Heq; lia.
  - rewrite <- Htail, list_lookup_insert_eq; [reflexivity|].
    rewrite Hlen, Htail. apply Nat.mod_upper_bound. lia.
Qed.

Lemma pending_take p :
  ring_ok p -> (0 < count p)%nat ->
  pending p = fst (take p) :: pending (snd (take p)).
Proof.
  intros (Hsz & Hlen & Hhead & Htail & Hcount & Hslots) Hpos.
  unfold pending, take. cbn [fst snd queue head count queue_size].
  destruct (count p) as [|c]; [lia|].
  replace (S c - 1)%nat with c by lia.
  rewrite <- cons_seq, <- seq_shift. cbn [map]. rewrite List.map_map. f_equal.
  - rewrite Nat.add_0_r, Nat.mod_small by assumption. reflexivity.
  - apply map_ext. intros k. rewrite Nat.Div0.add_mod_idemp_l.
    do 3 f_equal. lia.
Qed.

(** The seeder's task is the one the worker takes first, and the queue is
    empty again after that. *)
Lemma take_seeded p t :
  ring_ok p -> count p = 0%nat -> shutdown p = false ->
  exists p', take (fst (threadpool_add p t)) = (Some t, p')
             /\ ring_ok p' /\ count p' = 0%nat /\ shutdown p' = false.
Proof.
  intros Hok Hc Hs.
  destruct (seeded_pool p t Hok Hc Hs) as [Hok1 Hc1].
  pose proof (pending_add p t Hok) as Hadd.
  pose proof (threadpool_add_ok p t Hok) as Hres.
  destruct (threadpool_add p t) as [p1 r] eqn:Eadd. cbn [fst snd] in *.
  destruct Hres as (_ & Hs1 & Hr).
  assert (r = 0) as -> by (destruct Hr as [[? _]|[_ ->]]; [assumption|lia]).
  cbn [Z.eqb] in Hadd.
  assert (Hp : pending p = []) by (unfold pending; rewrite Hc; reflexivity).
  rewrite Hp in Hadd. cbn [app] in Hadd.
  rewrite (pending_take p1 Hok1) in Hadd by lia.
  injection Hadd as Hfst _.
  destruct (take_ok p1 Hok1 ltac:(lia)) as (t' & _ & Hok2 & Hc2 & Hs2).
  exists (snd (take p1)). split; [|split; [exact Hok2|split; [lia|congruence]]].
  rewrite <- Hfst. reflexivity.
Qed.

(** ** search.c: a task at the depth limit submits nothing *)

Lemma process_entry_gate_closed env cfg task local_ignore w d_name :
  recursion_gate cfg task = false ->
  same_tasks w (process_entry env cfg task local_ignore w d_name).
Proof.
  intros Hgate. unfold process_entry. rewrite Hgate.
  destruct (String.eqb d_name "." || String.eqb d_name "..");
    [apply same_tasks_refl|].
  destruct (lstat env _) as [sb|]; [|apply same_tasks_refl].
  destruct (no_hidden cfg && _); [apply same_tasks_refl|].
  destruct (existsb _ _); [apply same_tasks_refl|].
  destruct (ignore_vcs cfg && _); [apply same_tasks_refl|].
  pose proof (entry_filter_same_tasks env cfg d_name
                (path task +:+ "/" +:+ d_name) sb w) as Hf.
  destruct (entry_filter env cfg d_name _ sb w) as [is_match w1]. simpl in Hf.
  rewrite andb_false_r. destruct is_match; [|exact Hf].
  eapply same_tasks_trans; [exact Hf|apply report_match_same_tasks].
Qed.

Lemma fold_process_entry_gate_closed env cfg task local_ignore names :
  recursion_gate cfg task = false -> forall w,
  same_tasks w (fold_left (process_entry env cfg task local_ignore) names w).
Proof.
  intros Hgate. induction names as [|d names IH]; intros w; simpl;
    [apply same_tasks_refl|].
  eapply same_tasks_trans; [|apply IH].
  apply process_entry_gate_closed, Hgate.
Qed.

Lemma search_directory_gate_closed env cfg task w :
  recursion_gate cfg task = false ->
  pool (search_directory env cfg task w) = pool w
  /\ active_tasks (search_directory env cfg task w) = active_tasks w - 1.
Proof.
  intros Hgate. unfold search_directory. cbv zeta.
  cbn [pool active_tasks set_active_tasks].
  destruct (negb (max_depth cfg =? -1) && _); [split; reflexivity|].
  destruct (opendir env (path task)) as [names|]; [|split; reflexivity].
  assert (Hload : exists l w1,
            (if ignore_vcs cfg
             then load_ignore_file env (path task)
                    (set_dirs_scanned (dirs_scanned w + 1) w)
             else (None, set_dirs_scanned (dirs_scanned w + 1) w)) = (l, w1)
            /\ same_tasks_but_heap w w1).
  { destruct (ignore_vcs cfg); [|do 2 eexists; split; [reflexivity|split; reflexivity]].
    unfold load_ignore_file. destruct (fopen_r env _);
      do 2 eexists; (split; [reflexivity|split; reflexivity]). }
  destruct Hload as (l & w1 & -> & Hp1 & Ha1).
  destruct (fold_process_entry_gate_closed env cfg task l names Hgate w1)
    as (Hp2 & _ & Ha2).
  destruct (free_ignore_patterns_same l
              (fold_left (process_entry env cfg task l) names w1)) as [Hp Ha].
  rewrite Hp, Ha, Hp2, Ha2, Hp1, Ha1. split; reflexivity.
Qed.

(** ** main.c: a walk of one task *)

(** When the task of the starting directory submits nothing, the walk
    ends within three rounds and its counters are those of that task. *)
Lemma walk_single_task env cfg w fuel :
  ring_ok (pool w) -> count (pool w) = 0%nat -> shutdown (pool w) = false ->
  recursion_gate cfg (mkTask (root_dir cfg) 0 None) = false ->
  (3 <= fuel)%nat ->
  exists u w', walk env cfg w fuel = Exit 0 w'
               /\ same_counters w u
               /\ same_counters
                    (search_directory env cfg (mkTask (root_dir cfg) 0 None) u)
                    w'.
Proof.
  intros Hok Hc Hs Hgate Hfuel. unfold walk.
  set (w1 := if String.eqb (output_format cfg) "json" then _ else w).
  set (w2 := if String.eqb (output_format cfg) "csv" then _ else w1).
  assert (Hp : pool w2 = pool w /\ same_counters w w2).
  { subst w2 w1. destruct (String.eqb _ "json"), (String.eqb _ "csv");
      repeat split. }
  destruct Hp as (Hp & Hsame).
  set (t0 := mkTask (root_dir cfg) 0 None) in *.
  cbn [pool set_active_tasks]. rewrite Hp.
  destruct (take_seeded (pool w) t0 Hok Hc Hs) as (p' & Htake & Hok' & Hc' & Hs').
  destruct (seeded_pool (pool w) t0 Hok Hc Hs) as [Hok1 Hc1].
  pose proof (threadpool_add_ok (pool w) t0 Hok) as Hres.
  destruct (threadpool_add (pool w) t0) as [p1 r]. cbn [fst] in *.
  destruct Hres as (_ & Hs1 & _). rewrite Hs in Hs1.
  destruct fuel as [|[|[|f]]]; try lia.
  set (u := set_pool p' (set_pool p1 (set_active_tasks 1 w2))).
  destruct (search_directory_gate_closed env cfg t0 u Hgate) as [Hpool Hact].
  assert (Hrun : run_pool env cfg (S (S (S f)))
                   (set_pool p1 (set_active_tasks 1 w2))
                 = inl (set_pool (begin_shutdown p') (search_directory env cfg t0 u))).
  { cbn [run_pool pool set_pool active_tasks set_active_tasks].
    rewrite Hs1, Hc1, Htake. cbn [negb andb Z.leb Z.compare Nat.eqb].
    fold u. rewrite Hpool, Hact. subst u. cbn [pool set_pool active_tasks
      set_active_tasks]. rewrite Hs'. cbn [negb andb].
    change (1 - 1 <=? 0) with true. cbv iota.
    cbn [begin_shutdown shutdown count negb andb]. rewrite Hc'. reflexivity. }
  rewrite Hrun. exists u. eexists. split; [reflexivity|]. split.
  - subst u. destruct Hsame as (? & ? & ?). repeat split; assumption.
  - destruct (json_trailer_quiet cfg
                (set_pool (begin_shutdown p') (search_directory env cfg t0 u)))
      as (_ & _ & Jf & Jd & Jm).
    unfold same_counters.
    cbn [files_scanned dirs_scanned matches_found set_err_stream].
    rewrite Jf, Jd, Jm. repeat split.
Qed.

Lemma setup_max_depth env l positional cfg w :
  setup env l positional = inr (cfg, w) ->
  max_depth cfg = max_depth (config l).
Proof.
  unfold setup. destruct (name_pattern l); [|discriminate].
  destruct (match output_file _ with Some _ => _ | None => _ end);
    [|discriminate].
  destruct (compile_regex env _ _); [|discriminate].
  destruct (content_pattern l).
  - destruct (compile_regex env _ _); [|discriminate]. cbn [option_map].
    destruct (threadpool_create _ 4096); [|discriminate]. intros [= <- _].
    destruct positional;
      repeat match goal with
             | |- context [if ?b then _ else _] => destruct b
             end; reflexivity.
  - destruct (threadpool_create _ 4096); [|discriminate]. intros [= <- _].
    destruct positional;
      repeat match goal with
             | |- context [if ?b then _ else _] => destruct b
             end; reflexivity.
Qed.

Lemma main_max_depth env opts s positional fuel :
  match parse_options env (opts ++ [(OptMaxDepth, s)])
          (mkLocals init_search_config None None) with
  | inl code => main env (opts ++ [(OptMaxDepth, s)]) positional fuel
                = SetupExit code
  | inr l =>
      match setup env l positional with
      | inl code => main env (opts ++ [(OptMaxDepth, s)]) positional fuel
                    = SetupExit code
      | inr (cfg, w) =>
          main env (opts ++ [(OptMaxDepth, s)]) positional fuel
          = walk env cfg w fuel
          /\ max_depth cfg = atoi s
          /\ ring_ok (pool w) /\ count (pool w) = 0%nat
          /\ shutdown (pool w) = false
          /\ files_scanned w = 0 /\ dirs_scanned w = 0 /\ matches_found w = 0
      end
  end.
Proof.
  unfold main.
  destruct (parse_options env (opts ++ _) _) as [c|l] eqn:Hparse; [reflexivity|].
  destruct (setup env l positional) as [c|[cfg w]] eqn:Hsetup; [reflexivity|].
  destruct (setup_pool env l positional cfg w Hsetup) as (Hok & Hc & Hs).
  destruct (setup_world env l positional cfg w Hsetup)
    as (_ & Hf & Hd & Hm & _).
  pose proof (setup_max_depth env l positional cfg w Hsetup) as Hmax.
  split; [reflexivity|]. split; [|auto 10].
  rewrite Hmax. rewrite parse_options_app in Hparse.
  destruct (parse_options env opts _) as [c|l0]; [discriminate|].
  cbn [parse_options handle_option] in Hparse. injection Hparse as <-.
  reflexivity.
Qed.

(** X4. With the depth limit 0 given as the last option, a run that gets
    past the setup ends within three rounds with exit code 0 and has
    scanned exactly one directory, the starting one: no task is submitted
    for any directory below it, whatever the file system holds. *)
Theorem depth_zero_scans_root_only env opts s positional fuel :
  atoi s = 0 -> (3 <= fuel)%nat ->
  ends_with_world (fun w => dirs_scanned w = 1)
    (main env (opts ++ [(OptMaxDepth, s)]) positional fuel).
Proof.
  intros Hs Hfuel.
  pose proof (main_max_depth env opts s positional fuel) as H.
  destruct (parse_options env (opts ++ _) _) as [c|l]; [rewrite H; exact I|].
  destruct (setup env l positional) as [c|[cfg w]]; [rewrite H; exact I|].
  destruct H as (-> & Hmax & Hok & Hc & Hsd & Hf & Hd & Hm).
  rewrite Hs in Hmax.
  assert (Hgate : recursion_gate cfg (mkTask (root_dir cfg) 0 None) = false).
  { unfold recursion_gate. rewrite Hmax. reflexivity. }
  destruct (walk_single_task env cfg w fuel Hok Hc Hsd Hgate Hfuel)
    as (u & w' & -> & (Uf & Ud & Um) & (Sf & Sd & Sm)).
  split; [reflexivity|]. rewrite Sd.
  assert (Hu : counters_ok u) by (unfold counters_ok; rewrite Uf, Ud, Um; lia).
  destruct (search_directory_counters env cfg (mkTask (root_dir cfg) 0 None) u Hu)
    as [_ ->].
  rewrite Hmax, Ud, Hd. reflexivity.
Qed.

Lemma depth_zero_scans_root_only_witness :
  ends_with_world (fun w => dirs_scanned w = 1)
    (main tree_env ([(OptPattern, ".*"); (OptDirectory, "a")]
                    ++ [(OptMaxDepth, "0")]) None 3)
  /\ exists w, main tree_env ([(OptPattern, ".*"); (OptDirectory, "a")]
                              ++ [(OptMaxDepth, "0")]) None 3 = Exit 0 w.
Proof.
  split.
  - apply (depth_zero_scans_root_only tree_env
             [(OptPattern, ".*"); (OptDirectory, "a")] "0" None 3);
      [reflexivity|lia].
  - eexists. vm_compute. reflexivity.
Defined.

(** X5. With a depth limit below -1 given as the last option, a run that
    gets past the setup ends with exit code 0 without opening any
    directory, not even the starting one, and reports no match. *)
Theorem negative_depth_scans_nothing env opts s positional fuel :
  atoi s < -1 -> (3 <= fuel)%nat ->
  ends_with_world (fun w => dirs_scanned w = 0 /\ matches_found w = 0
                            /\ files_scanned w = 0)
    (main env (opts ++ [(OptMaxDepth, s)]) positional fuel).
Proof.
  intros Hs Hfuel.
  pose proof (main_max_depth env opts s positional fuel) as H.
  destruct (parse_options env (opts ++ _) _) as [c|l]; [rewrite H; exact I|].
  destruct (setup env l positional) as [c|[cfg w]]; [rewrite H; exact I|].
  destruct H as (-> & Hmax & Hok & Hc & Hsd & Hf & Hd & Hm).
  assert (Hgate : recursion_gate cfg (mkTask (root_dir cfg) 0 None) = false).
  { unfold recursion_gate. rewrite Hmax. cbn [current_depth].
    apply orb_false_iff. split; [apply Z.eqb_neq|apply Z.ltb_ge]; lia. }
  destruct (walk_single_task env cfg w fuel Hok Hc Hsd Hgate Hfuel)
    as (u & w' & -> & (Uf & Ud & Um) & (Sf & Sd & Sm)).
  split; [reflexivity|]. rewrite Sf, Sd, Sm.
  unfold search_directory. rewrite Hmax. cbn [current_depth].
  replace (negb (atoi s =? -1) && (atoi s <? 0)) with true.
  - cbn. rewrite Uf, Ud, Um. auto.
  - symmetry. apply andb_true_iff. split; [apply negb_true_iff, Z.eqb_neq|
                                            apply Z.ltb_lt]; lia.
Qed.

Lemma negative_depth_scans_nothing_witness :
  ends_with_world (fun w => dirs_scanned w = 0 /\ matches_found w = 0
                            /\ files_scanned w = 0)
    (main tree_env ([(OptPattern, ".*"); (OptDirectory, "a")]
                    ++ [(OptMaxDepth, "-2")]) None 3)
  /\ exists w, main tree_env ([(OptPattern, ".*"); (OptDirectory, "a")]
                              ++ [(OptMaxDepth, "-2")]) None 3 = Exit 0 w.
Proof.
  split.
  - apply (negative_depth_scans_nothing tree_env
             [(OptPattern, ".*"); (OptDirectory, "a")] "-2" None 3);
      [reflexivity|lia].
  - eexists. vm_compute. reflexivity.
Defined.

(** ** The depth of the waiting tasks *)

Lemma submit_child_pending inherited full_path depth w :
  ring_ok (pool w) ->
  pending (pool (submit_child inherited full_path depth w)) = pending (pool w)
  \/ pending (pool (submit_child inherited full_path depth w))
     = (pending (pool w) ++ [Some (mkTask full_path depth inherited)])%list.
Proof.
  intros Hok. unfold submit_child.
  set (u := match inherited with Some i => incr_refcount i w | None => w end).
  assert (Hu : pool u = pool w).
  { subst u. destruct inherited; [apply incr_refcount_pool|reflexivity]. }
  cbv zeta. cbn [pool set_active_tasks]. rewrite Hu.
  pose proof (pending_add (pool w) (mkTask full_path depth inherited) Hok) as Ha.
  destruct (threadpool_add _ _) as [p r]. cbn [fst snd] in Ha.
  destruct (r =? 0).
  - right. exact Ha.
  - left.
    match goal with
    | |- context [pool (free_ignore_patterns ?o ?x)] =>
        destruct (free_ignore_patterns_same o x) as [-> _]
    end.
    cbn [pool set_active_tasks]. rewrite Hu. reflexivity.
Qed.

Lemma process_entry_depth env cfg task local_ignore w d_name d :
  (recursion_gate cfg task = true -> current_depth task + 1 <= d) ->
  ring_ok (pool w) -> depth_bounded d (pool w) ->
  depth_bounded d (pool (process_entry env cfg task local_ignore w d_name)).
Proof.
  intros Hgate Hok Hb. unfold process_entry.
  destruct (String.eqb d_name "." || String.eqb d_name ".."); [exact Hb|].
  destruct (lstat env _) as [sb|]; [|exact Hb].
  destruct (no_hidden cfg && _); [exact Hb|].
  destruct (existsb _ _); [exact Hb|].
  destruct (ignore_vcs cfg && _); [exact Hb|].
  pose proof (entry_filter_same_tasks env cfg d_name
                (path task +:+ "/" +:+ d_name) sb w) as Hf.
  destruct (entry_filter env cfg d_name _ sb w) as [is_match w1]. simpl in Hf.
  set (w2 := if is_match then _ else w1).
  assert (H2 : pool w2 = pool w).
  { subst w2. destruct is_match; [|apply Hf].
    destruct (report_match_same_tasks env cfg (path task +:+ "/" +:+ d_name)
                sb w1) as [-> _]. apply Hf. }
  destruct (S_ISDIR (st_mode sb) && recursion_gate cfg task) eqn:E;
    [|rewrite H2; exact Hb].
  apply andb_true_iff in E as [_ E]. rewrite spawn_child_shared.
  assert (Hok2 : ring_ok (pool w2)) by (rewrite H2; exact Hok).
  intros t Hin.
  destruct (submit_child_pending (shared_set task local_ignore)
              (path task +:+ "/" +:+ d_name) (current_depth task + 1) w2 Hok2)
    as [Hp|Hp]; rewrite Hp, H2 in Hin.
  - apply Hb, Hin.
  - apply in_app_or in Hin as [Hin|[[= <-]|[]]]; [apply Hb, Hin|].
    apply Hgate, E.
Qed.

Lemma fold_process_entry_depth env cfg task local_ignore names d :
  (recursion_gate cfg task = true -> current_depth task + 1 <= d) ->
  forall w, ring_ok (pool w) -> depth_bounded d (pool w) ->
  depth_bounded d
    (pool (fold_left (process_entry env cfg task local_ignore) names w)).
Proof.
  intros Hgate. induction names as [|n names IH]; intros w Hok Hb; simpl;
    [exact Hb|].
  apply IH.
  - apply (process_entry_balanced env cfg task local_ignore w n Hok).
  - apply process_entry_depth; assumption.
Qed.

Lemma search_directory_depth env cfg task w d :
  (recursion_gate cfg task = true -> current_depth task + 1 <= d) ->
  ring_ok (pool w) -> depth_bounded d (pool w) ->
  depth_bounded d (pool (search_directory env cfg task w)).
Proof.
  intros Hgate Hok Hb. unfold search_directory. cbv zeta.
  cbn [pool set_active_tasks].
  destruct (negb (max_depth cfg =? -1) && _); [exact Hb|].
  destruct (opendir env (path task)) as [names|]; [|exact Hb].
  assert (Hload : exists l w1,
            (if ignore_vcs cfg
             then load_ignore_file env (path task)
                    (set_dirs_scanned (dirs_scanned w + 1) w)
             else (None, set_dirs_scanned (dirs_scanned w + 1) w)) = (l, w1)
            /\ same_tasks_but_heap w w1).
  { destruct (ignore_vcs cfg); [|do 2 eexists; split; [reflexivity|split; reflexivity]].
    unfold load_ignore_file. destruct (fopen_r env _);
      do 2 eexists; (split; [reflexivity|split; reflexivity]). }
  destruct Hload as (l & w1 & -> & Hp1 & Ha1).
  destruct (free_ignore_patterns_same l
              (fold_left (process_entry env cfg task l) names w1)) as [-> _].
  apply fold_process_entry_depth; [exact Hgate|rewrite Hp1; exact Hok|
                                   rewrite Hp1; exact Hb].
Qed.

Lemma run_pool_depth env cfg d fuel : forall w w',
  max_depth cfg <> -1 -> max_depth cfg <= d ->
  ring_ok (pool w) -> depth_bounded d (pool w) ->
  run_pool env cfg fuel w = inr (OutOfFuel w') ->
  depth_bounded d (pool w').
Proof.
  induction fuel as [|f IH]; intros w w' Hm Hd Hok Hb; cbn [run_pool].
  { intros [= <-]. exact Hb. }
  destruct (negb (shutdown (pool w)) && (active_tasks w <=? 0)).
  { apply IH; assumption. }
  destruct (count (pool w) =? 0)%nat eqn:Ecount.
  { destruct (shutdown (pool w)); discriminate. }
  apply Nat.eqb_neq in Ecount.
  destruct (take_ok (pool w) Hok ltac:(lia)) as (t & Ht & Hok' & _).
  pose proof (pending_take (pool w) Hok ltac:(lia)) as Hpt.
  destruct (take (pool w)) as [o p]. cbn [fst snd] in *. subst o.
  assert (Hb' : depth_bounded d p).
  { intros t' Hin. apply Hb. rewrite Hpt. right. exact Hin. }
  apply IH; try assumption.
  - apply (search_directory_balanced env cfg t (set_pool p w) Hok').
  - apply search_directory_depth; [|exact Hok'|exact Hb'].
    unfold recursion_gate. intros Hg. apply orb_true_iff in Hg as [Hg|Hg].
    + apply Z.eqb_eq in Hg. contradiction.
    + apply Z.ltb_lt in Hg. lia.
Qed.

(** X6. With a depth limit other than -1, at every moment of the walk the
    tasks waiting in the queue are at depth max(0, limit) at most: no task
    is ever queued for a directory deeper than the limit. *)
Theorem waiting_tasks_within_depth env cfg w fuel w' :
  ring_ok (pool w) -> count (pool w) = 0%nat -> shutdown (pool w) = false ->
  max_depth cfg <> -1 ->
  walk env cfg w fuel = OutOfFuel w' ->
  depth_bounded (Z.max 0 (max_depth cfg)) (pool w').
Proof.
  intros Hok Hc Hs Hm. unfold walk.
  set (w1 := if String.eqb (output_format cfg) "json" then _ else w).
  set (w2 := if String.eqb (output_format cfg) "csv" then _ else w1).
  assert (Hp : pool w2 = pool w).
  { subst w2 w1. destruct (String.eqb _ "json"), (String.eqb _ "csv"); reflexivity. }
  set (t0 := mkTask (root_dir cfg) 0 None).
  cbn [pool set_active_tasks]. rewrite Hp.
  destruct (seeded_pool (pool w) t0 Hok Hc Hs) as [Hok1 Hc1].
  pose proof (pending_add (pool w) t0 Hok) as Hadd.
  set (w3 := set_pool _ _).
  assert (Hb : depth_bounded (Z.max 0 (max_depth cfg)) (pool w3)).
  { subst w3. cbn [pool set_pool]. intros t Hin. rewrite Hadd in Hin.
    assert (Hnil : pending (pool w) = [])
      by (unfold pending; rewrite Hc; reflexivity).
    rewrite Hnil in Hin.
    destruct (snd (threadpool_add (pool w) t0) =? 0); [|destruct Hin].
    destruct Hin as [[= <-]|[]]. subst t0. cbn [current_depth]. lia. }
  destruct (run_pool env cfg fuel w3) as [w4|o] eqn:Hrun; [discriminate|].
  intros ->.
  apply (run_pool_depth env cfg (Z.max 0 (max_depth cfg)) fuel w3 w' Hm
           ltac:(lia) Hok1 Hb Hrun).
Qed.

Lemma waiting_tasks_within_depth_witness :
  exists w', walk tree_env (from_a 1) idle_world 1 = OutOfFuel w'
             /\ pending (pool w') = [Some (mkTask "a/b" 1 None)]
             /\ depth_bounded (Z.max 0 (max_depth (from_a 1))) (pool w').
Proof.
  eexists. split; [vm_compute; reflexivity|]. split; [vm_compute; reflexivity|].
  apply (waiting_tasks_within_depth tree_env (from_a 1) idle_world 1).
  - unfold ring_ok, idle_world. simpl.
    split; [lia|]. split; [reflexivity|]. split; [lia|].
    split; [reflexivity|]. split; [lia|]. intros k Hk. lia.
  - reflexivity.
  - reflexivity.
  - discriminate.
  - vm_compute. reflexivity.
Defined.

(** ** What a walk writes and requests *)

Lemma fputs_empty f : fputs "" f = f.
Proof. destruct f. reflexivity. Qed.

Lemma contents_fputs_fresh s seek : contents (fputs s (fresh_stream seek)) = s.
Proof.
  unfold contents, fputs, fresh_stream. cbn [behind ahead].
  rewrite skipn_nil, !rev_append_rev, rev_app_distr, rev_involutive.
  cbn [rev app]. rewrite app_nil_r. apply string_of_list_ascii_of_string.
Qed.

Lemma body_app env cfg ms1 : forall n ms2,
  body env cfg n (ms1 ++ ms2)
  = body env cfg n ms1 +:+ body env cfg (n + Z.of_nat (List.length ms1)) ms2.
Proof.
  induction ms1 as [|m ms1 IH]; intros n ms2.
  - cbn [app body List.length]. rewrite Z.add_0_r. reflexivity.
  - cbn [app body List.length]. rewrite IH, append_assoc.
    do 3 f_equal. lia.
Qed.

Lemma requested_app cfg ms1 ms2 :
  requested cfg (ms1 ++ ms2) = (requested cfg ms1 ++ requested cfg ms2)%list.
Proof.
  unfold requested. destruct (handler_off cfg); [reflexivity|].
  destruct (exec_command cfg); [apply map_app|].
  destruct (delete_files cfg); [apply map_app|reflexivity].
Qed.

Lemma extends_nil env cfg w w' :
  matches_found w' = matches_found w -> actions w' = actions w ->
  (handler_off cfg = false -> out_stream w' = out_stream w) ->
  extends env cfg [] w w'.
Proof.
  intros Hm Ha Ho. unfold extends. cbn [List.length body].
  split; [lia|]. split.
  - rewrite Ha. unfold requested.
    destruct (handler_off cfg), (exec_command cfg), (delete_files cfg);
      cbn [map]; rewrite app_nil_r; reflexivity.
  - intros H. rewrite fputs_empty. apply Ho, H.
Qed.

Lemma extends_refl env cfg w : extends env cfg [] w w.
Proof. apply extends_nil; reflexivity. Qed.

Lemma extends_trans env cfg ms1 ms2 w1 w2 w3 :
  extends env cfg ms1 w1 w2 -> extends env cfg ms2 w2 w3 ->
  extends env cfg (ms1 ++ ms2) w1 w3.
Proof.
  intros (Hm1 & Ha1 & Ho1) (Hm2 & Ha2 & Ho2). split; [|split].
  - rewrite Hm2, Hm1, List.length_app. lia.
  - rewrite Ha2, Ha1, requested_app, app_assoc. reflexivity.
  - intros H. rewrite (Ho2 H), (Ho1 H), body_app, fputs_app, Hm1.
    replace (matches_found w1 + 1 + Z.of_nat (List.length ms1))
      with (matches_found w1 + Z.of_nat (List.length ms1) + 1) by lia.
    reflexivity.
Qed.

Lemma scan_lines_extends env cfg rounds path : forall fp line_num found w,
  extends env cfg [] w (snd (scan_lines rounds cfg path fp line_num found w)).
Proof.
  induction rounds as [|r IH]; intros fp n found w; cbn [scan_lines];
    [apply extends_refl|].
  destruct (fgets 4096 fp) as [[buffer fp']|]; [|apply extends_refl].
  destruct (match_regex (content_regex cfg) buffer) eqn:Em; [|apply IH].
  destruct (with_line_number cfg) eqn:En; [|apply extends_refl].
  apply (extends_trans env cfg [] [] w
           (fprintf (content_line path n buffer) w)); [|apply IH].
  apply extends_nil; [reflexivity..|].
  unfold handler_off, match_regex in *. rewrite En.
  apply andb_true_iff in Em as [-> _]. discriminate.
Qed.

Lemma entry_filter_extends env cfg name full_path sb w :
  extends env cfg [] w (snd (entry_filter env cfg name full_path sb w)).
Proof.
  unfold entry_filter, content_rejects, search_file_content.
  match goal with
  | |- context [if ?b && compiled (content_regex cfg) then _ else _] =>
      destruct (b && compiled (content_regex cfg)) eqn:E
  end; [|apply extends_refl].
  apply andb_true_iff in E as [_ ->]. simpl negb. cbv iota.
  destruct (S_ISREG (st_mode sb)); simpl; [|apply extends_refl].
  destruct (fopen_r env full_path) as [fp|]; [|apply extends_refl].
  pose proof (scan_lines_extends env cfg (String.length fp) full_path fp 1
                false w).
  destruct (scan_lines _ _ _ _ _ _ _). assumption.
Qed.

Lemma append_empty_r (a : string) : a +:+ "" = a.
Proof.
  induction a as [|x a IH]; [reflexivity|].
  change (String x (a +:+ "") = String x a). f_equal. exact IH.
Qed.

Lemma handle_match_effects env cfg full_path sb w :
  actions (handle_match env cfg full_path (type_char_of sb) sb w)
  = (actions w ++ requested cfg [(full_path, sb)])%list
  /\ matches_found (handle_match env cfg full_path (type_char_of sb) sb w)
     = matches_found w
  /\ (handler_off cfg = false ->
      out_stream (handle_match env cfg full_path (type_char_of sb) sb w)
      = fputs (shown env cfg (matches_found w) (full_path, sb)) (out_stream w)).
Proof.
  unfold handle_match, requested, shown, handler_off. cbn [fst snd map].
  destruct (with_line_number cfg && compiled (content_regex cfg)).
  { split; [rewrite app_nil_r; reflexivity|]. split; [reflexivity|discriminate]. }
  destruct (exec_command cfg) as [c|].
  { split; [reflexivity|]. split; [reflexivity|].
    intros _. rewrite fputs_empty. reflexivity. }
  destruct (delete_files cfg).
  { split; [reflexivity|]. split; [reflexivity|].
    intros _. rewrite fputs_empty. reflexivity. }
  unfold print_result, print_long_listing.
  fold (long_listing_line env full_path sb).
  destruct (long_listing cfg).
  { split; [rewrite app_nil_r; reflexivity|]. split; reflexivity. }
  destruct (String.eqb (output_format cfg) "json").
  { destruct (1 <? matches_found w).
    - split; [rewrite app_nil_r; reflexivity|]. split; [reflexivity|].
      intros _. rewrite fputs_app. reflexivity.
    - split; [rewrite app_nil_r; reflexivity|]. split; reflexivity. }
  destruct (String.eqb (output_format cfg) "csv");
    (split; [rewrite app_nil_r; reflexivity|]; split; reflexivity).
Qed.

Lemma report_match_extends env cfg full_path sb w :
  extends env cfg [(full_path, sb)] w (report_match env cfg full_path sb w).
Proof.
  unfold report_match. cbv zeta.
  set (u := set_matches_found _ _).
  assert (Hu : matches_found u = matches_found w + 1 /\ actions u = actions w
               /\ out_stream u = out_stream w).
  { subst u. destruct (S_ISREG (st_mode sb)); auto. }
  destruct Hu as (Hm & Ha & Ho).
  destruct (handle_match_effects env cfg full_path sb u) as (Ea & Em & Eo).
  unfold extends. cbn [List.length body]. rewrite append_empty_r.
  rewrite Ea, Em, Ha, Hm. split; [lia|]. split; [reflexivity|].
  intros H. rewrite (Eo H), Hm, Ho. reflexivity.
Qed.

Lemma submit_child_extends env cfg inherited full_path depth w :
  extends env cfg [] w (submit_child inherited full_path depth w).
Proof.
  unfold submit_child.
  set (u := match inherited with Some i => incr_refcount i w | None => w end).
  assert (Hu : matches_found u = matches_found w /\ actions u = actions w
               /\ out_stream u = out_stream w).
  { subst u. destruct inherited as [i|]; [|auto].
    rewrite incr_refcount_set_heap. auto. }
  destruct Hu as (Hm & Ha & Ho).
  cbv zeta. destruct (threadpool_add _ _) as [p r].
  destruct (r =? 0); [apply extends_nil; auto|].
  rewrite free_ignore_patterns_set_heap. apply extends_nil; auto.
Qed.

Lemma process_entry_extends env cfg task local_ignore w d_name :
  exists ms, extends env cfg ms w
               (process_entry env cfg task local_ignore w d_name).
Proof.
  unfold process_entry.
  destruct (String.eqb d_name "." || String.eqb d_name "..");
    [exists []; apply extends_refl|].
  destruct (lstat env _) as [sb|]; [|exists []; apply extends_refl].
  destruct (no_hidden cfg && _); [exists []; apply extends_refl|].
  destruct (existsb _ _); [exists []; apply extends_refl|].
  destruct (ignore_vcs cfg && _); [exists []; apply extends_refl|].
  pose proof (entry_filter_extends env cfg d_name
                (path task +:+ "/" +:+ d_name) sb w) as Hf.
  destruct (entry_filter env cfg d_name _ sb w) as [is_match w1]. simpl in Hf.
  set (w2 := if is_match then _ else w1).
  assert (H2 : exists ms, extends env cfg ms w w2).
  { subst w2. destruct is_match; [|exists []; exact Hf].
    exists ([] ++ [(path task +:+ "/" +:+ d_name, sb)])%list.
    apply (extends_trans env cfg _ _ w w1 _ Hf). apply report_match_extends. }
  destruct H2 as [ms H2].
  destruct (S_ISDIR (st_mode sb) && recursion_gate cfg task);
    [|exists ms; exact H2].
  exists (ms ++ [])%list. apply (extends_trans env cfg _ _ w w2 _ H2).
  rewrite spawn_child_shared. apply submit_child_extends.
Qed.

Lemma fold_process_entry_extends env cfg task local_ignore names : forall w,
  exists ms, extends env cfg ms w
               (fold_left (process_entry env cfg task local_ignore) names w).
Proof.
  induction names as [|d names IH]; intros w; simpl;
    [exists []; apply extends_refl|].
  destruct (process_entry_extends env cfg task local_ignore w d) as [ms1 H1].
  destruct (IH (process_entry env cfg task local_ignore w d)) as [ms2 H2].
  exists (ms1 ++ ms2)%list. eapply extends_trans; eassumption.
Qed.

Lemma search_directory_extends env cfg task w :
  exists ms, extends env cfg ms w (search_directory env cfg task w).
Proof.
  unfold search_directory. cbv zeta.
  assert (Hend : forall w1 ms, extends env cfg ms w w1 ->
            exists ms', extends env cfg ms' w
                          (set_active_tasks (active_tasks w1 - 1) w1)).
  { intros w1 ms H. exists ms. exact H. }
  destruct (negb (max_depth cfg =? -1) && _);
    [apply (Hend w []), extends_refl|].
  destruct (opendir env (path task)) as [names|];
    [|apply (Hend _ []), extends_nil; reflexivity].
  assert (Hload : exists l u,
            (if ignore_vcs cfg
             then load_ignore_file env (path task)
                    (set_dirs_scanned (dirs_scanned w + 1) w)
             else (None, set_dirs_scanned (dirs_scanned w + 1) w)) = (l, u)
            /\ extends env cfg [] w u).
  { destruct (ignore_vcs cfg);
      [|do 2 eexists; split; [reflexivity|apply extends_nil; reflexivity]].
    unfold load_ignore_file. destruct (fopen_r env _);
      do 2 eexists; (split; [reflexivity|apply extends_nil; reflexivity]). }
  destruct Hload as (l & u & -> & Hu).
  destruct (fold_process_entry_extends env cfg task l names u) as [ms Hf].
  set (f := fold_left _ names u) in *.
  apply (Hend _ ([] ++ ms ++ [])%list).
  apply (extends_trans env cfg _ _ w u _ Hu).
  apply (extends_trans env cfg _ _ u f _ Hf).
  rewrite (free_ignore_patterns_set_heap l f). apply extends_nil; reflexivity.
Qed.

Lemma run_pool_extends env cfg fuel : forall w w',
  ring_ok (pool w) ->
  run_pool env cfg fuel w = inl w' ->
  exists ms, extends env cfg ms w w'.
Proof.
  induction fuel as [|f IH]; intros w w' Hok; cbn [run_pool]; [discriminate|].
  destruct (negb (shutdown (pool w)) && (active_tasks w <=? 0)).
  { intros H.
    destruct (IH (set_pool (begin_shutdown (pool w)) w) w' Hok H) as [ms Hms].
    exists ms. exact Hms. }
  destruct (count (pool w) =? 0)%nat eqn:Ecount.
  { destruct (shutdown (pool w)); [|discriminate]. intros [= <-].
    exists []. apply extends_refl. }
  apply Nat.eqb_neq in Ecount.
  destruct (take_ok (pool w) Hok ltac:(lia)) as (t & Ht & Hok' & _).
  destruct (take (pool w)) as [o p]. cbn [fst snd] in *. subst o.
  intros H.
  destruct (search_directory_balanced env cfg t (set_pool p w) Hok')
    as (Hok2 & _).
  destruct (IH _ _ Hok2 H) as [ms2 H2].
  destruct (search_directory_extends env cfg t (set_pool p w)) as [ms1 H1].
  exists (ms1 ++ ms2)%list. eapply extends_trans; [|exact H2]. exact H1.
Qed.

Lemma setup_streams env l positional cfg w :
  setup env l positional = inr (cfg, w) ->
  out_stream w = fresh_stream (seekable (out_stream w)).
Proof.
  unfold setup. destruct (name_pattern l); [|discriminate].
  destruct (match output_file _ with Some _ => _ | None => _ end) as [out|] eqn:Eo;
    [|discriminate].
  destruct (compile_regex env _ _); [|discriminate].
  destruct (match content_pattern l with Some _ => _ | None => _ end);
    [|discriminate].
  destruct (threadpool_create _ 4096) as [p|]; [|discriminate].
  intros [= _ <-]. cbn [out_stream].
  destruct (output_file _).
  - destruct (fopen_w env _); [|discriminate]. injection Eo as <-. reflexivity.
  - injection Eo as <-. reflexivity.
Qed.

Lemma fputs_seekable s f : seekable (fputs s f) = seekable f.
Proof. reflexivity. Qed.

(** What a finished walk has written and requested, from the world that
    [setup] made. *)
Lemma walk_effects env l positional cfg w fuel code w' :
  setup env l positional = inr (cfg, w) ->
  walk env cfg w fuel = Exit code w' ->
  exists ms,
    matches_found w' = Z.of_nat (List.length ms)
    /\ actions w' = requested cfg ms
    /\ (handler_off cfg = false ->
        seekable (out_stream w) = false
        \/ String.eqb (output_format cfg) "json" = false \/ ms = [] ->
        contents (out_stream w')
        = header cfg +:+ body env cfg 1 ms +:+ trailer cfg ms).
Proof.
  intros Hsetup.
  destruct (setup_pool env l positional cfg w Hsetup) as (Hok & Hc & Hs).
  destruct (setup_world env l positional cfg w Hsetup)
    as (_ & _ & _ & Hm & _ & Ha & _).
  pose proof (setup_streams env l positional cfg w Hsetup) as Hout.
  unfold walk.
  set (w1 := if String.eqb (output_format cfg) "json" then _ else w).
  set (w2 := if String.eqb (output_format cfg) "csv" then _ else w1).
  assert (H2 : w2 = fprintf (header cfg) w).
  { subst w2 w1. unfold header.
    destruct (String.eqb _ "json"), (String.eqb _ "csv");
      rewrite ?fprintf_app, ?fprintf_empty; reflexivity. }
  set (t0 := mkTask (root_dir cfg) 0 None).
  set (w3 := set_pool _ _).
  assert (Hok3 : ring_ok (pool w3)).
  { subst w3. cbn [pool set_pool set_active_tasks]. rewrite H2.
    apply (seeded_pool (pool w) t0 Hok Hc Hs). }
  destruct (run_pool env cfg fuel w3) as [w4|o] eqn:Hrun.
  2:{ intros ->.
      assert (Hrun3 : running w3 = 0).
      { subst w3. unfold running. cbn [pool set_pool active_tasks
          set_active_tasks]. rewrite H2.
        destruct (seeded_pool (pool w) t0 Hok Hc Hs) as [_ Hc1].
        cbn [pool fprintf set_out_stream]. rewrite Hc1. reflexivity. }
      pose proof (run_pool_not_stuck env cfg fuel w3 Hok3 Hrun3) as Hns.
      rewrite Hrun in Hns. contradiction. }
  intros [= _ <-].
  destruct (run_pool_extends env cfg fuel w3 w4 Hok3 Hrun) as (ms & Em & Ea & Eo).
  assert (Hm3 : matches_found w3 = 0) by (subst w3; rewrite H2; exact Hm).
  assert (Ha3 : actions w3 = []) by (subst w3; rewrite H2; exact Ha).
  assert (Ho3 : out_stream w3
                = fputs (header cfg) (fresh_stream (seekable (out_stream w)))).
  { subst w3. rewrite H2. cbn [out_stream set_pool set_active_tasks fprintf
      set_out_stream]. rewrite Hout at 1. reflexivity. }
  rewrite Hm3 in Em, Eo. rewrite Ha3 in Ea. cbn [app] in Ea.
  exists ms.
  destruct (json_trailer_quiet cfg w4) as (_ & _ & _ & _ & Jm).
  split; [cbn [matches_found set_err_stream]; rewrite Jm, Em; lia|].
  split.
  { cbn [actions set_err_stream]. rewrite <- Ea. unfold json_trailer.
    destruct (String.eqb _ "json"); [|reflexivity].
    destruct (0 <? matches_found w4); reflexivity. }
  intros Hoff Hcase. specialize (Eo Hoff). rewrite Ho3 in Eo.
  rewrite <- fputs_app in Eo. cbn [out_stream set_err_stream].
  unfold json_trailer, trailer.
  destruct (String.eqb (output_format cfg) "json") eqn:Ej.
  - assert (Hseek : ms <> [] -> seekable (out_stream w) = false).
    { intros Hne. destruct Hcase as [?|[?|?]]; [assumption|discriminate|
                                                 contradiction]. }
    destruct ms as [|m ms].
    + replace (0 <? matches_found w4) with false
        by (symmetry; apply Z.ltb_ge; cbn [List.length] in Em; lia).
      cbn [out_stream fprintf set_out_stream]. rewrite Eo, <- fputs_app.
      rewrite contents_fputs_fresh, ?append_assoc. reflexivity.
    + replace (0 <? matches_found w4) with true
        by (symmetry; apply Z.ltb_lt; cbn [List.length] in Em; lia).
      cbn [out_stream fprintf set_out_stream]. rewrite Eo.
      unfold fseek_back. rewrite fputs_seekable. cbn [seekable fresh_stream].
      rewrite (Hseek ltac:(discriminate)). cbn [andb].
      rewrite <- !fputs_app, contents_fputs_fresh, ?append_assoc. reflexivity.
  - rewrite Eo, contents_fputs_fresh, ?append_assoc, append_empty_r.
    reflexivity.
Qed.

Lemma main_setup env opts positional fuel cfg w :
  setup_of env opts positional = Some (cfg, w) ->
  main env opts positional fuel = walk env cfg w fuel
  /\ exists l, setup env l positional = inr (cfg, w).
Proof.
  unfold main, setup_of.
  destruct (parse_options env opts _) as [c|l]; [discriminate|].
  destruct (setup env l positional) as [c|[cfg' w0]] eqn:Hs; [discriminate|].
  intros [= <- <-]. split; [reflexivity|]. exists l. exact Hs.
Qed.




(** X7. The exec and delete hooks are asked exactly what the options say.
    When [main] returns after the walk there is a list of matches, as
    many as the counter of matches says, such that the hooks were asked
    nothing if the line-number flag is set with a content pattern; else
    to run the exec command once for each match, in order, if one is
    given; else to delete each match if the delete flag is set; else
    nothing.  In particular an exec command keeps every deletion off. *)
Theorem requests_follow_options env opts positional fuel code w' cfg w :
  main env opts positional fuel = Exit code w' ->
  setup_of env opts positional = Some (cfg, w) ->
  exists ms,
    matches_found w' = Z.of_nat (List.length ms)
    /\ actions w' = requested cfg ms.
Proof.
  intros H Hs. destruct (main_setup env opts positional fuel cfg w Hs)
    as (Hm & l & Hl). rewrite Hm in H.
  destruct (walk_effects env l positional cfg w fuel code w' Hl H)
    as (ms & Hmf & Ha & _).
  exists ms. auto.
Qed.

Lemma requests_follow_options_witness :
  exists w' cfg ms,
    main tree_env delete_and_exec None 4 = Exit 0 w'
    /\ exec_command cfg = Some "echo" /\ delete_files cfg = true
    /\ matches_found w' = Z.of_nat (List.length ms)
    /\ actions w' = requested cfg ms
    /\ List.length (actions w') = 4%nat.
Proof.
  evar (w' : world). evar (cfg : search_config_t). evar (w : world).
  assert (H : main tree_env delete_and_exec None 4 = Exit 0 w')
    by (subst w'; vm_compute; reflexivity).
  assert (Hs : setup_of tree_env delete_and_exec None = Some (cfg, w))
    by (subst cfg w; vm_compute; reflexivity).
  destruct (requests_follow_options _ _ _ _ _ _ _ _ H Hs) as (ms & Hm & Ha).
  exists w', cfg, ms. split; [exact H|]. split; [reflexivity|].
  split; [reflexivity|]. split; [exact Hm|]. split; [exact Ha|]. reflexivity.
Defined.

(** X8. In a run with one worker thread and neither an exec command
    nor the delete flag, unless the line-number flag is set with a
    content pattern, the output stream of a finished walk holds the
    header of the format, then the record that [print_result] writes for
    each match in turn, then the closing line of the format, and nothing
    else.  This holds for every format when the output cannot seek, and
    for the formats other than JSON on any output. *)
Theorem output_is_header_records_trailer env opts positional fuel code w'
    cfg w :
  main env opts positional fuel = Exit code w' ->
  setup_of env opts positional = Some (cfg, w) ->
  workers env cfg = 1 ->
  exec_command cfg = None -> delete_files cfg = false ->
  handler_off cfg = false ->
  seekable (out_stream w) = false
  \/ String.eqb (output_format cfg) "json" = false ->
  exists ms,
    matches_found w' = Z.of_nat (List.length ms)
    /\ contents (out_stream w')
       = header cfg +:+ body env cfg 1 ms +:+ trailer cfg ms.
Proof.
  intros H Hs _ _ _ Hoff Hcase.
  destruct (main_setup env opts positional fuel cfg w Hs) as (Hm & l & Hl).
  rewrite Hm in H.
  destruct (walk_effects env l positional cfg w fuel code w' Hl H)
    as (ms & Hmf & _ & Ho).
  exists ms. split; [exact Hmf|]. apply Ho; [exact Hoff|].
  destruct Hcase as [?|?]; auto.
Qed.

Lemma output_is_header_records_trailer_witness :
  exists w' cfg ms,
    main tree_env csv_to_pipe None 4 = Exit 0 w'
    /\ matches_found w' = Z.of_nat (List.length ms)
    /\ contents (out_stream w')
       = header cfg +:+ body tree_env cfg 1 ms +:+ trailer cfg ms.
Proof.
  evar (w' : world). evar (cfg : search_config_t). evar (w : world).
  assert (H : main tree_env csv_to_pipe None 4 = Exit 0 w')
    by (subst w'; vm_compute; reflexivity).
  assert (Hs : setup_of tree_env csv_to_pipe None = Some (cfg, w))
    by (subst cfg w; vm_compute; reflexivity).
  destruct (output_is_header_records_trailer _ _ _ _ _ _ _ _ H Hs eq_refl
              eq_refl eq_refl eq_refl (or_introl eq_refl)) as (ms & Hm & Ho).
  exists w', cfg, ms. split; [exact H|]. split; [exact Hm|exact Ho].
Defined.



(** ** utils.c: the time argument *)

Lemma toupper_is_D c :
  Ascii.eqb (toupper c) "D" = Ascii.eqb c "D" || Ascii.eqb c "d".
Proof.
  destruct c as [b0 b1 b2 b3 b4 b5 b6 b7].
  destruct b0, b1, b2, b3, b4, b5, b6, b7; vm_compute; auto.
Qed.

Lemma parse_time_string_days arg N rest :
  strtoll 10 arg = Some (N, rest) ->
  LLONG_MIN <= N * 86400 <= LLONG_MAX ->
  parse_time_string arg = if day_suffix (deref rest) then N * 86400 else -1.
Proof.
  intros Hs Hr. unfold parse_time_string, day_suffix. rewrite Hs, toupper_is_D.
  replace (N * 24 * 60 * 60) with (N * 86400) by lia.
  rewrite (wrap64_small _ Hr).
  destruct (Ascii.eqb (deref rest) zero), (Ascii.eqb (deref rest) "d"),
    (Ascii.eqb (deref rest) "D"); reflexivity.
Qed.

Lemma handle_option_mtime_eq env optarg l :
  handle_option env OptMtime optarg l
  = if parse_time_string (snd (comparator_prefix optarg)) <? 0 then inl 1
    else inr (on_config
                (fun c => with_mtime_filter
                            (parse_time_string (snd (comparator_prefix optarg)))
                            (with_mtime_op (fst (comparator_prefix optarg)) c))
                l).
Proof. unfold handle_option. destruct (comparator_prefix optarg). reflexivity. Qed.

Lemma parse_time_string_other arg N rest :
  strtoll 10 arg = Some (N, rest) -> day_suffix (deref rest) = false ->
  parse_time_string arg = -1.
Proof.
  intros Hs Hd. unfold parse_time_string, day_suffix in *.
  rewrite Hs, toupper_is_D.
  destruct (Ascii.eqb (deref rest) zero), (Ascii.eqb (deref rest) "d"),
    (Ascii.eqb (deref rest) "D"); try discriminate Hd; reflexivity.
Qed.

(** X10. The time argument is an optional '+' or '-', a decimal number N
    of days and the character after it.  With the end of the argument, d
    or D there, whatever follows the d, and N times 86400 in the range of
    a [long long]: the threshold is N times 86400 seconds when N is not
    negative, and [main] returns 1 while reading the options when N is
    negative.  With any other character after the number, whatever the
    number, or without a number, [main] returns 1 while reading the
    options. *)
Theorem mtime_argument env optarg l :
  let arg := snd (comparator_prefix optarg) in
  (strtoll 10 arg = None -> handle_option env OptMtime optarg l = inl 1)
  /\ (forall N rest,
        strtoll 10 arg = Some (N, rest) ->
        if day_suffix (deref rest)
        then
          LLONG_MIN <= N * 86400 <= LLONG_MAX ->
          if N <? 0 then handle_option env OptMtime optarg l = inl 1
          else
            exists l', handle_option env OptMtime optarg l = inr l'
                       /\ mtime_filter (config l') = N * 86400
                       /\ mtime_op (config l') = fst (comparator_prefix optarg)
        else handle_option env OptMtime optarg l = inl 1)
  /\ (handle_option env OptMtime optarg l = inl 1 ->
      forall opts1 opts2 positional fuel l1,
        parse_options env opts1 no_locals = inr l1 ->
        main env (opts1 ++ (OptMtime, optarg) :: opts2) positional fuel
        = SetupExit 1).
Proof.
  cbv zeta. rewrite handle_option_mtime_eq.
  split; [|split].
  - intros Hs. unfold parse_time_string. rewrite Hs. reflexivity.
  - intros N rest Hs.
    destruct (day_suffix (deref rest)) eqn:Hd.
    + intros Hr. pose proof (parse_time_string_days _ N rest Hs Hr) as Hv.
      rewrite Hd in Hv. rewrite Hv.
      destruct (N <? 0) eqn:EN.
      * apply Z.ltb_lt in EN.
        replace (N * 86400 <? 0) with true by (symmetry; apply Z.ltb_lt; lia).
        reflexivity.
      * apply Z.ltb_ge in EN.
        replace (N * 86400 <? 0) with false by (symmetry; apply Z.ltb_ge; lia).
        eexists. split; [reflexivity|]. split; reflexivity.
    + rewrite (parse_time_string_other _ N rest Hs Hd). reflexivity.
  - intros Hf opts1 opts2 positional fuel l1 H1.
    apply (main_option_error env opts1 OptMtime optarg opts2 positional fuel
             l1 1 H1).
    rewrite handle_option_mtime_eq.
    destruct (parse_time_string _ <? 0); [reflexivity|discriminate].
Qed.

Lemma mtime_argument_witness :
  (exists l', handle_option bare_env OptMtime "+7days" no_locals = inr l'
              /\ mtime_filter (config l') = 7 * 86400
              /\ mtime_op (config l') = 1)
  /\ handle_option bare_env OptMtime "99999999999999999h" no_locals = inl 1
  /\ handle_option bare_env OptMtime "+-7d" no_locals = inl 1.
Proof.
  pose proof (proj1 (proj2 (mtime_argument bare_env "+7days" no_locals))
                7 "days" eq_refl) as H1. cbn in H1.
  pose proof (proj1 (proj2 (mtime_argument bare_env "99999999999999999h"
                              no_locals))
                99999999999999999 "h" eq_refl) as H2. cbn in H2.
  pose proof (proj1 (proj2 (mtime_argument bare_env "+-7d" no_locals))
                (-7) "d" eq_refl) as H3. cbn in H3.
  split; [apply H1; unfold LLONG_MIN, LLONG_MAX; lia|].
  split; [exact H2|].
  apply H3; unfold LLONG_MIN, LLONG_MAX; lia.
Defined.

(** ** utils.c: the permissions argument *)

Lemma octal_digit_val d :
  (d < 8)%nat ->
  digit_val 8 (octal_digit d) = Some (Z.of_nat d)
  /\ isspace (octal_digit d) = false
  /\ Ascii.eqb (octal_digit d) "-" = false
  /\ Ascii.eqb (octal_digit d) "+" = false.
Proof.
  intros H. do 8 (destruct d as [|d]; [repeat split|]). lia.
Qed.

Lemma read_digits_octal ds : forall acc,
  Forall (fun d => (d < 8)%nat) ds ->
  read_digits 8 acc (octal_string ds)
  = (fold_left (fun acc d => acc * 8 + Z.of_nat d) ds acc, "").
Proof.
  induction ds as [|d ds IH]; intros acc Hds; [reflexivity|].
  inversion Hds as [|? ? Hd Hrest]; subst.
  change (octal_string (d :: ds)) with (String (octal_digit d) (octal_string ds)).
  cbn [read_digits fold_left].
  destruct (octal_digit_val d Hd) as (-> & _). apply IH, Hrest.
Qed.

Lemma octal_fold_nonneg ds : forall acc,
  0 <= acc -> 0 <= fold_left (fun acc d => acc * 8 + Z.of_nat d) ds acc.
Proof.
  induction ds as [|d ds IH]; intros acc H; [exact H|].
  cbn [fold_left]. apply IH. lia.
Qed.

(** X11. A permissions argument made of octal digits only is accepted
    exactly when its value is at most 0777, and the filter is that value;
    the empty argument is accepted as mode 0. *)
Theorem parse_permissions_octal ds :
  Forall (fun d => (d < 8)%nat) ds ->
  parse_permissions (octal_string ds)
  = if octal_value ds <=? 511 then Some (octal_value ds) else None.
Proof.
  intros Hds. destruct ds as [|d ds]; [reflexivity|].
  inversion Hds as [|? ? Hd Hrest]; subst.
  pose proof (read_digits_octal (d :: ds) 0 Hds) as Hread.
  pose proof (octal_fold_nonneg (d :: ds) 0 ltac:(lia)) as Hpos.
  fold (octal_value (d :: ds)) in Hread, Hpos.
  destruct (octal_digit_val d Hd) as (Hv & Hsp & Hm & Hp).
  unfold parse_permissions, strtoll.
  change (octal_string (d :: ds)) with (String (octal_digit d) (octal_string ds))
    in *.
  cbn [skip_spaces]. rewrite Hsp.
  assert (Hsign : (match String (octal_digit d) (octal_string ds) with
                   | String "-" s' => (true, s')
                   | String "+" s' => (false, s')
                   | _ => (false, String (octal_digit d) (octal_string ds))
                   end) = (false, String (octal_digit d) (octal_string ds))).
  { apply Ascii.eqb_neq in Hm, Hp.
    destruct (octal_digit d) as [[] [] [] [] [] [] [] []]; try reflexivity;
      congruence. }
  rewrite Hsign. cbn [deref]. rewrite Hv, Hread. cbn [deref].
  change (Ascii.eqb zero zero) with true. cbn [negb orb].
  unfold clamp64, LLONG_MIN, LLONG_MAX.
  destruct (octal_value (d :: ds) <=? 511) eqn:E.
  - apply Z.leb_le in E. rewrite Z.min_r, Z.max_r by lia.
    replace (_ <? 0) with false by (symmetry; apply Z.ltb_ge; lia).
    replace (511 <? _) with false by (symmetry; apply Z.ltb_ge; lia).
    reflexivity.
  - apply Z.leb_gt in E.
    replace (Z.max _ _ <? 0) with false by (symmetry; apply Z.ltb_ge; lia).
    replace (511 <? Z.max _ _) with true by (symmetry; apply Z.ltb_lt; lia).
    reflexivity.
Qed.

Lemma parse_permissions_octal_witness :
  parse_permissions "0755" = Some 493 /\ parse_permissions "1000" = None.
Proof.
  split.
  - exact (parse_permissions_octal [0; 7; 5; 5]%nat
             ltac:(repeat constructor)).
  - exact (parse_permissions_octal [1; 0; 0; 0]%nat
             ltac:(repeat constructor)).
Defined.

(** ** main.c: the type argument *)

Lemma type_mask_of_lor s : forall mask,
  type_mask_of s mask = Z.lor mask (type_mask_of s 0).
Proof.
  induction s as [|c s IH]; intros mask; cbn [type_mask_of].
  - rewrite Z.lor_0_r. reflexivity.
  - rewrite IH. rewrite (IH (if Ascii.eqb c "f" then _ else _)).
    destruct (Ascii.eqb c "f"); [rewrite Z.lor_assoc; reflexivity|].
    destruct (Ascii.eqb c "d"); [rewrite Z.lor_assoc; reflexivity|].
    destruct (Ascii.eqb c "l"); [rewrite Z.lor_assoc; reflexivity|].
    reflexivity.
Qed.

Lemma setup_type_mask env l positional cfg w :
  setup env l positional = inr (cfg, w) ->
  type_mask cfg = if type_mask (config l) =? 0 then 7 else type_mask (config l).
Proof.
  unfold setup. destruct (name_pattern l); [|discriminate].
  destruct (match output_file _ with Some _ => _ | None => _ end);
    [|discriminate].
  destruct (compile_regex env _ _); [|discriminate].
  destruct (content_pattern l).
  - destruct (compile_regex env _ _); [|discriminate]. cbn [option_map].
    destruct (threadpool_create _ 4096); [|discriminate]. intros [= <- _].
    destruct positional; cbn [type_mask with_root_dir];
      destruct (type_mask (config l) =? 0);
      repeat match goal with
             | |- context [if ?b then _ else _] => destruct b
             end; reflexivity.
  - destruct (threadpool_create _ 4096); [|discriminate]. intros [= <- _].
    destruct positional; cbn [type_mask with_root_dir];
      destruct (type_mask (config l) =? 0);
      repeat match goal with
             | |- context [if ?b then _ else _] => destruct b
             end; reflexivity.
Qed.

(** X12. The type argument sets one bit for each of the letters f, d and
    l that occurs in it, however often and in whatever order; every other
    letter is ignored.  An argument with none of the three letters leaves
    the mask at 0, which the setup turns into all three types: such an
    argument filters nothing. *)
Theorem type_argument s :
  type_mask_of s 0
  = (if occurs "f" s then TYPE_FILE else 0)
    + (if occurs "d" s then TYPE_DIR else 0)
    + (if occurs "l" s then TYPE_LINK else 0)
  /\ forall env l positional cfg w,
       setup env (on_config (with_type_mask (type_mask_of s 0)) l) positional
       = inr (cfg, w) ->
       type_mask cfg
       = if occurs "f" s || occurs "d" s || occurs "l" s
         then type_mask_of s 0 else TYPE_FILE + TYPE_DIR + TYPE_LINK.
Proof.
  assert (H : type_mask_of s 0
              = (if occurs "f" s then TYPE_FILE else 0)
                + (if occurs "d" s then TYPE_DIR else 0)
                + (if occurs "l" s then TYPE_LINK else 0)).
  { induction s as [|c s IH]; [reflexivity|].
    cbn [type_mask_of occurs]. rewrite type_mask_of_lor, IH.
    destruct (Ascii.eqb c "f") eqn:Ef.
    { apply Ascii.eqb_eq in Ef. subst c.
      destruct (occurs "f" s), (occurs "d" s), (occurs "l" s); reflexivity. }
    destruct (Ascii.eqb c "d") eqn:Ed.
    { apply Ascii.eqb_eq in Ed. subst c.
      destruct (occurs "f" s), (occurs "d" s), (occurs "l" s); reflexivity. }
    destruct (Ascii.eqb c "l") eqn:El.
    { apply Ascii.eqb_eq in El. subst c.
      destruct (occurs "f" s), (occurs "d" s), (occurs "l" s); reflexivity. }
    destruct (occurs "f" s), (occurs "d" s), (occurs "l" s); reflexivity. }
  split; [exact H|].
  intros env l positional cfg w Hs.
  rewrite (setup_type_mask _ _ _ _ _ Hs).
  unfold on_config. cbn [config]. 
  replace (type_mask (with_type_mask (type_mask_of s 0) (config l)))
    with (type_mask_of s 0) by reflexivity.
  rewrite H.
  destruct (occurs "f" s), (occurs "d" s), (occurs "l" s); reflexivity.
Qed.

Lemma type_argument_witness :
  exists cfg w,
    setup tree_env (on_config (with_type_mask (type_mask_of "xyz" 0))
                      (mkLocals init_search_config (Some ".*") None)) None
    = inr (cfg, w)
    /\ type_mask cfg = 7.
Proof.
  evar (cfg : search_config_t). evar (w : world).
  assert (Hs : setup tree_env
                 (on_config (with_type_mask (type_mask_of "xyz" 0))
                    (mkLocals init_search_config (Some ".*") None)) None
               = inr (cfg, w)) by (subst cfg w; vm_compute; reflexivity).
  exists cfg, w. split; [exact Hs|].
  exact (proj2 (type_argument "xyz") tree_env _ None cfg w Hs).
Defined.

(** ** search.c: the extension test *)

Lemma strn_eq_same a : forall b,
  strn_eq (fun c => c) a b = true <-> a = b.
Proof.
  induction a as [|x a IH]; intros [|y b]; cbn [strn_eq];
    try (split; [discriminate|discriminate]); [tauto|].
  rewrite andb_true_iff, IH. split.
  - intros [Hx ->]. apply Ascii.eqb_eq in Hx. subst. reflexivity.
  - intros [= -> ->]. split; [apply Ascii.eqb_refl|reflexivity].
Qed.

Lemma strn_eq_lower a : forall b,
  strn_eq tolower a b = true <-> lower a = lower b.
Proof.
  induction a as [|x a IH]; intros [|y b]; cbn [strn_eq lower];
    try (split; [discriminate|discriminate]); [tauto|].
  rewrite andb_true_iff, IH. split.
  - intros [Hx ->]. apply Ascii.eqb_eq in Hx. rewrite Hx. reflexivity.
  - intros [= -> ->]. split; [apply Ascii.eqb_refl|reflexivity].
Qed.

Lemma length_append (a b : string) :
  String.length (a +:+ b) = (String.length a + String.length b)%nat.
Proof. induction a as [|x a IH]; [reflexivity|]. cbn. rewrite <- IH. reflexivity. Qed.

Lemma drop_chars_append pre suf :
  drop_chars (String.length pre) (pre +:+ suf) = suf.
Proof.
  induction pre as [|x pre IH]; [destruct suf; reflexivity|exact IH].
Qed.

Lemma drop_chars_split n : forall s,
  (n <= String.length s)%nat ->
  exists pre, s = pre +:+ drop_chars n s /\ String.length pre = n.
Proof.
  induction n as [|n IH]; intros s Hn.
  - exists "". split; [destruct s; reflexivity|reflexivity].
  - destruct s as [|c s]; [simpl in Hn; lia|].
    destruct (IH s ltac:(simpl in Hn; lia)) as (pre & Hs & Hl).
    exists (String c pre). split; [|simpl; lia].
    cbn [drop_chars]. change (String c s = String c (pre +:+ drop_chars n s)).
    f_equal. exact Hs.
Qed.

(** X13. [ends_with] holds exactly when the string is some prefix
    followed by the suffix, and with the ignore-case flag when it is some
    prefix followed by a tail that equals the suffix once both are in
    lower case.  The suffix is compared as it is given: no dot is added
    to an extension. *)
Theorem ends_with_suffix str suffix :
  (ends_with str suffix false = true <-> exists pre, str = pre +:+ suffix)
  /\ (ends_with str suffix true = true
      <-> exists pre tail, str = pre +:+ tail /\ lower tail = lower suffix).
Proof.
  assert (Hlen : forall a b, lower a = lower b -> String.length a = String.length b).
  { induction a as [|x a IH]; intros [|y b]; cbn [lower]; try discriminate;
      [reflexivity|]. intros [= _ H]. simpl. f_equal. apply IH, H. }
  unfold ends_with. split; split.
  - destruct (String.length str <? String.length suffix)%nat eqn:E;
      [discriminate|]. apply Nat.ltb_ge in E.
    intros H. apply strn_eq_same in H.
    destruct (drop_chars_split (String.length str - String.length suffix) str
                ltac:(lia)) as (pre & Hs & _).
    exists pre. rewrite <- H. exact Hs.
  - intros [pre ->]. rewrite length_append.
    replace (_ <? _)%nat with false by (symmetry; apply Nat.ltb_ge; lia).
    replace (String.length pre + String.length suffix - String.length suffix)%nat
      with (String.length pre) by lia.
    rewrite drop_chars_append. apply strn_eq_same. reflexivity.
  - destruct (String.length str <? String.length suffix)%nat eqn:E;
      [discriminate|]. apply Nat.ltb_ge in E.
    intros H. apply strn_eq_lower in H.
    destruct (drop_chars_split (String.length str - String.length suffix) str
                ltac:(lia)) as (pre & Hs & _).
    exists pre, (drop_chars (String.length str - String.length suffix) str).
    split; [exact Hs|exact H].
  - intros (pre & tail & -> & Hl). rewrite length_append.
    rewrite <- (Hlen _ _ Hl).
    replace (_ <? _)%nat with false by (symmetry; apply Nat.ltb_ge; lia).
    replace (String.length pre + String.length tail - String.length tail)%nat
      with (String.length pre) by lia.
    rewrite drop_chars_append. apply strn_eq_lower. exact Hl.
Qed.

(** ** search.c: the patterns of an ignore file *)

Lemma fgets_aux_room room : forall fp,
  (String.length (fst (fgets_aux room fp)) <= room)%nat.
Proof.
  induction room as [|r IH]; intros [|c rest]; cbn [fgets_aux fst String.length];
    try lia.
  destruct (Ascii.eqb c newline); [simpl; lia|].
  specialize (IH rest). destruct (fgets_aux r rest) as [l rest']. simpl in *. lia.
Qed.

Lemma cut_at_eol_length s : (String.length (cut_at_eol s) <= String.length s)%nat.
Proof.
  induction s as [|c s IH]; [apply le_n|]. cbn [cut_at_eol].
  destruct (Ascii.eqb c newline || Ascii.eqb c "013"); simpl; lia.
Qed.

Lemma cut_at_eol_clean s :
  occurs newline (cut_at_eol s) = false /\ occurs "013" (cut_at_eol s) = false.
Proof.
  induction s as [|c s [IH1 IH2]]; [split; reflexivity|]. cbn [cut_at_eol].
  destruct (Ascii.eqb c newline) eqn:E1; [split; reflexivity|].
  destruct (Ascii.eqb c "013") eqn:E2; [split; reflexivity|].
  cbn [orb occurs]. rewrite E1, E2, IH1, IH2. split; reflexivity.
Qed.

Lemma rstrip_length s : (String.length (rstrip s) <= String.length s)%nat.
Proof.
  induction s as [|c s IH]; [apply le_n|]. cbn [rstrip].
  destruct (rstrip s); [destruct (isspace c)|]; simpl in *; lia.
Qed.

Lemma rstrip_occurs x s : occurs x s = false -> occurs x (rstrip s) = false.
Proof.
  induction s as [|c s IH]; [reflexivity|]. cbn [occurs rstrip].
  intros H. apply orb_false_iff in H as [Hc Hs]. specialize (IH Hs).
  destruct (rstrip s); [destruct (isspace c)|]; cbn [occurs] in *;
    rewrite ?Hc, ?IH; reflexivity.
Qed.

Lemma rstrip_idempotent s : rstrip (rstrip s) = rstrip s.
Proof.
  induction s as [|c s IH]; [reflexivity|]. cbn [rstrip].
  destruct (rstrip s) as [|x r] eqn:E.
  - destruct (isspace c) eqn:Ec; [reflexivity|]. cbn [rstrip]. rewrite Ec.
    reflexivity.
  - cbn [rstrip] in *. rewrite IH. reflexivity.
Qed.

(** X14. Every pattern loaded from an ignore file is a piece of a line of
    at most 1023 bytes, is not empty, does not start with '#', holds no
    newline and no carriage return, and has no white space at its end
    after its first byte.  Nothing else is done to a line: leading white
    space stays, and '#' starts a comment in the first column only. *)
Theorem loaded_patterns rounds : forall fp pat,
  In pat (read_patterns rounds fp) ->
  exists c rest,
    pat = String c rest /\ c <> "#"%char /\ c <> zero
    /\ rstrip rest = rest
    /\ (String.length pat <= 1023)%nat
    /\ occurs newline pat = false /\ occurs "013" pat = false.
Proof.
  induction rounds as [|r IH]; intros fp pat; cbn [read_patterns];
    [intros []|].
  destruct (fgets 1024 fp) as [[line fp']|] eqn:Hg; [|intros []].
  destruct (Ascii.eqb (deref (cut_at_eol line)) "#"
            || Ascii.eqb (deref (cut_at_eol line)) zero) eqn:E;
    [apply IH|].
  intros [<-|Hin]; [|apply (IH _ _ Hin)].
  apply orb_false_iff in E as [E1 E2].
  assert (Hlen : (String.length line <= 1023)%nat).
  { unfold fgets in Hg. destruct fp as [|c0 fp0]; [discriminate|].
    pose proof (fgets_aux_room (1024 - 1) (String c0 fp0)) as H.
    set (got := fgets_aux (1024 - 1) (String c0 fp0)) in *.
    injection Hg as Hg. rewrite Hg in H. exact H. }
  clear Hg IH.
  pose proof (cut_at_eol_length line) as Hcut.
  destruct (cut_at_eol_clean line) as [Hnl Hcr].
  destruct (cut_at_eol line) as [|c s]; [discriminate E2|].
  cbn [deref] in E1, E2. cbn [trim_line].
  exists c, (rstrip s). split; [reflexivity|].
  split; [intros ->; discriminate E1|]. split; [intros ->; discriminate E2|].
  split; [apply rstrip_idempotent|].
  cbn [occurs] in Hnl, Hcr. apply orb_false_iff in Hnl as [Hn1 Hn2].
  apply orb_false_iff in Hcr as [Hc1 Hc2].
  pose proof (rstrip_length s) as Hr.
  split; [cbn [String.length] in *; lia|]. cbn [occurs].
  rewrite Hn1, Hc1, (rstrip_occurs _ _ Hn2), (rstrip_occurs _ _ Hc2).
  split; reflexivity.
Qed.

Lemma loaded_patterns_witness :
  read_patterns (String.length ignore_text) ignore_text = ["*.log"; " keep"]
  /\ exists c rest,
       "*.log" = String c rest /\ c <> "#"%char /\ c <> zero
       /\ rstrip rest = rest
       /\ (String.length "*.log" <= 1023)%nat
       /\ occurs newline "*.log" = false /\ occurs "013" "*.log" = false.
Proof.
  split; [vm_compute; reflexivity|].
  apply (loaded_patterns (String.length ignore_text) ignore_text "*.log").
  vm_compute. left. reflexivity.
Defined.

(** ** search.c: the filters do not prune the walk *)

(** X15. A directory entry that is not passed over and lies within the
    depth limit is queued as a task of its own whether or not it passes
    the filters: with room in the queue, the task of its path, one level
    deeper, is put behind the waiting ones.  The set of ignore patterns
    it inherits is the one loaded in its parent directory if there is
    one, otherwise the one its parent inherited. *)
Theorem filters_do_not_prune env cfg task local_ignore w d_name sb :
  ring_ok (pool w) ->
  (count (pool w) < queue_size (pool w))%nat -> shutdown (pool w) = false ->
  skipped env cfg task local_ignore w d_name = false ->
  lstat env (path task +:+ "/" +:+ d_name) = Some sb ->
  S_ISDIR (st_mode sb) = true ->
  recursion_gate cfg task = true ->
  pending (pool (process_entry env cfg task local_ignore w d_name))
  = (pending (pool w)
     ++ [Some (mkTask (path task +:+ "/" +:+ d_name) (current_depth task + 1)
                      (match local_ignore with
                       | Some l => Some l
                       | None => parent_ignore task
                       end))])%list.
Proof.
  intros Hok Hroom Hs Hskip Hstat Hdir Hgate.
  unfold skipped in Hskip.
  repeat (apply orb_false_iff in Hskip as [Hskip ?]).
  unfold process_entry.
  replace (String.eqb d_name "." || String.eqb d_name "..") with false
    by (symmetry; apply orb_false_iff; auto).
  rewrite Hstat, Hdir, Hgate.
  repeat match goal with
         | H : ?b = false |- context [if ?b then _ else _] => rewrite H
         end.
  pose proof (entry_filter_same_tasks env cfg d_name
                (path task +:+ "/" +:+ d_name) sb w) as Hf.
  destruct (entry_filter env cfg d_name _ sb w) as [is_match w1]. simpl in Hf.
  set (w2 := if is_match then _ else w1).
  assert (Hw2 : pool w2 = pool w).
  { subst w2. destruct is_match; [|apply Hf].
    destruct (report_match_same_tasks env cfg (path task +:+ "/" +:+ d_name)
                sb w1) as [-> _]. apply Hf. }
  cbn [andb]. rewrite spawn_child_shared. fold (shared_set task local_ignore).
  unfold submit_child.
  set (u := match shared_set task local_ignore with
            | Some i => incr_refcount i w2 | None => w2 end).
  assert (Hu : pool u = pool w).
  { subst u. destruct (shared_set task local_ignore);
      [rewrite incr_refcount_pool|]; exact Hw2. }
  cbv zeta. cbn [pool set_active_tasks]. rewrite Hu.
  pose proof (pending_add (pool w)
                (mkTask (path task +:+ "/" +:+ d_name) (current_depth task + 1)
                        (shared_set task local_ignore)) Hok) as Ha.
  unfold threadpool_add in *.
  replace ((count (pool w) =? queue_size (pool w))%nat || shutdown (pool w))
    with false in *
    by (symmetry; apply orb_false_iff; split; [apply Nat.eqb_neq; lia|exact Hs]).
  cbn [fst snd Z.eqb] in *. exact Ha.
Qed.

Lemma filters_do_not_prune_witness :
  pending (pool (process_entry tree_env no_name (mkTask "a" 0 None) None
                   idle_world "b"))
  = [Some (mkTask "a/b" 1 None)]
  /\ matches_found (process_entry tree_env no_name (mkTask "a" 0 None) None
                      idle_world "b") = 0.
Proof.
  split; [|reflexivity].
  apply (filters_do_not_prune tree_env no_name (mkTask "a" 0 None) None
           idle_world "b" dir_stat).
  - unfold ring_ok, idle_world. simpl.
    split; [lia|]. split; [reflexivity|]. split; [lia|].
    split; [reflexivity|]. split; [lia|]. intros k Hk. lia.
  - simpl. lia.
  - reflexivity.
  - reflexivity.
  - reflexivity.
  - reflexivity.
  - reflexivity.
Defined.

(** ** search.c: every reference to an ignore set is counted *)

Lemma holds_nonneg o i : 0 <= holds o i <= 1.
Proof. unfold holds. destruct o as [j|]; [destruct (j =? i)%nat|]; lia. Qed.

Lemma refs_nonneg l i : 0 <= refs l i.
Proof.
  induction l as [|o l IH]; [cbn; lia|].
  destruct o as [t|]; cbn [refs fold_right]; fold (refs l i); [|lia].
  pose proof (holds_nonneg (parent_ignore t) i). lia.
Qed.

Lemma refs_snoc l t i :
  refs (l ++ [Some t]) i = refs l i + holds (parent_ignore t) i.
Proof.
  induction l as [|o l IH]; [cbn; lia|].
  destruct o as [t'|]; cbn [app refs fold_right]; fold (refs l i);
    fold (refs (l ++ [Some t]) i); lia.
Qed.

Lemma allowance_insert h i q j :
  (i < List.length h)%nat ->
  allowance (<[i := q]> h) j = if (i =? j)%nat then refcount q else allowance h j.
Proof.
  intros Hi. unfold allowance. destruct (i =? j)%nat eqn:E.
  - apply Nat.eqb_eq in E. subst j. rewrite list_lookup_insert_eq by exact Hi.
    reflexivity.
  - apply Nat.eqb_neq in E. rewrite list_lookup_insert_ne by exact E.
    reflexivity.
Qed.

Lemma counted_weaken extra extra' p h :
  (forall i, extra' i <= extra i) -> counted extra p h -> counted extra' p h.
Proof.
  intros Hle (Hok & Hc & Hn). split; [exact Hok|]. split; [exact Hc|].
  intros i. specialize (Hn i). specialize (Hle i). lia.
Qed.

(** A counted pointer is the address of a live set. *)
Lemma counted_live extra p h j :
  counted extra p h -> 0 < refs (pending p) j + extra j ->
  exists q, h !! j = Some q /\ 0 < refcount q /\ freed q = false.
Proof.
  intros (_ & Hc & Hn) Hpos. specialize (Hn j). unfold allowance in Hn.
  destruct (h !! j) as [q|] eqn:Hq; [|lia].
  exists q. split; [reflexivity|]. split; [lia|].
  destruct (Forall_lookup_1 _ _ _ _ Hc Hq) as [_ ->].
  apply Z.eqb_neq. lia.
Qed.

Lemma submit_child_counted extra inherited full_path depth w :
  counted extra (pool w) (heap w) ->
  (forall i, holds inherited i <= extra i) ->
  counted extra (pool (submit_child inherited full_path depth w))
          (heap (submit_child inherited full_path depth w)).
Proof.
  intros Hcnt Hextra. pose proof Hcnt as (Hok & Hc & Hn).
  unfold submit_child. cbv zeta.
  destruct inherited as [j|].
  - assert (Hpos : 0 < refs (pending (pool w)) j + extra j).
    { specialize (Hextra j). unfold holds in Hextra. rewrite Nat.eqb_refl in Hextra.
      pose proof (refs_nonneg (pending (pool w)) j). lia. }
    destruct (counted_live extra _ _ j Hcnt Hpos) as (q & Hq & Hlive & Hfree).
    assert (Hj : (j < List.length (heap w))%nat) by (eapply lookup_lt_Some, Hq).
    cbn [pool set_active_tasks]. rewrite incr_refcount_pool.
    pose proof (pending_add (pool w) (mkTask full_path depth (Some j)) Hok) as Ha.
    pose proof (threadpool_add_ok (pool w) (mkTask full_path depth (Some j)) Hok)
      as Hr.
    destruct (threadpool_add (pool w) _) as [p' r]. cbn [fst snd] in Ha.
    destruct Hr as (Hok' & _ & Hr).
    destruct (r =? 0) eqn:Er.
    + cbn [pool heap set_pool set_active_tasks].
      unfold incr_refcount. rewrite Hq. cbn [heap set_heap].
      split; [exact Hok'|]. split.
      * apply Forall_insert; [exact Hc|]. split; cbn [refcount freed]; [lia|].
        rewrite Hfree. symmetry. apply Z.eqb_neq. lia.
      * intros i. rewrite Ha, refs_snoc, allowance_insert by exact Hj.
        cbn [parent_ignore holds refcount]. specialize (Hn i).
        destruct (j =? i)%nat eqn:E; [|lia].
        apply Nat.eqb_eq in E. subst i. unfold allowance in Hn.
        rewrite Hq in Hn. lia.
    + assert (Hp' : p' = pool w).
      { destruct Hr as [[-> _]|[_ ->]]; [discriminate|reflexivity]. }
      cbn [parent_ignore].
      change (set_active_tasks ?a (set_active_tasks ?b ?u))
        with (set_active_tasks a u).
      rewrite incr_then_free by (intros q' Hq'; rewrite Hq in Hq';
                                 injection Hq' as <-; exact Hlive).
      exact Hcnt.
  - cbn [pool set_active_tasks parent_ignore].
    pose proof (pending_add (pool w) (mkTask full_path depth None) Hok) as Ha.
    pose proof (threadpool_add_ok (pool w) (mkTask full_path depth None) Hok)
      as Hr.
    destruct (threadpool_add (pool w) _) as [p' r]. cbn [fst snd] in Ha.
    destruct Hr as (Hok' & _ & Hr).
    destruct (r =? 0) eqn:Er.
    + cbn [pool heap set_pool set_active_tasks].
      split; [exact Hok'|]. split; [exact Hc|].
      intros i. rewrite Ha, refs_snoc. cbn [parent_ignore holds].
      specialize (Hn i). lia.
    + exact Hcnt.
Qed.

Lemma process_entry_counted extra env cfg task local_ignore w d_name :
  counted extra (pool w) (heap w) ->
  (forall i, holds (shared_set task local_ignore) i <= extra i) ->
  counted extra (pool (process_entry env cfg task local_ignore w d_name))
          (heap (process_entry env cfg task local_ignore w d_name)).
Proof.
  intros Hcnt Hextra. unfold process_entry.
  destruct (String.eqb d_name "." || String.eqb d_name ".."); [exact Hcnt|].
  destruct (lstat env _) as [sb|]; [|exact Hcnt].
  destruct (no_hidden cfg && _); [exact Hcnt|].
  destruct (existsb _ _); [exact Hcnt|].
  destruct (ignore_vcs cfg && _); [exact Hcnt|].
  pose proof (entry_filter_same_tasks env cfg d_name
                (path task +:+ "/" +:+ d_name) sb w) as Hf.
  destruct (entry_filter env cfg d_name _ sb w) as [is_match w1]. simpl in Hf.
  set (w2 := if is_match then _ else w1).
  assert (H2 : pool w2 = pool w /\ heap w2 = heap w).
  { subst w2. destruct Hf as (Hp & Hh & _). destruct is_match; [|auto].
    destruct (report_match_same_tasks env cfg (path task +:+ "/" +:+ d_name)
                sb w1) as (-> & -> & _). auto. }
  destruct H2 as [Hp2 Hh2].
  assert (Hcnt2 : counted extra (pool w2) (heap w2))
    by (rewrite Hp2, Hh2; exact Hcnt).
  destruct (S_ISDIR (st_mode sb) && recursion_gate cfg task); [|exact Hcnt2].
  rewrite spawn_child_shared. apply submit_child_counted; assumption.
Qed.

Lemma fold_process_entry_counted extra env cfg task local_ignore names :
  (forall i, holds (shared_set task local_ignore) i <= extra i) ->
  forall w, counted extra (pool w) (heap w) ->
  counted extra
    (pool (fold_left (process_entry env cfg task local_ignore) names w))
    (heap (fold_left (process_entry env cfg task local_ignore) names w)).
Proof.
  intros Hextra. induction names as [|d names IH]; intros w Hcnt; simpl;
    [exact Hcnt|].
  apply IH. apply process_entry_counted; assumption.
Qed.

(** A task that holds a counted reference to the set it inherited leaves
    every reference counted; it has given back the reference to the set it
    loaded. *)
Lemma search_directory_counted env cfg task w :
  counted (holds (parent_ignore task)) (pool w) (heap w) ->
  counted (fun _ => 0) (pool (search_directory env cfg task w))
          (heap (search_directory env cfg task w)).
Proof.
  intros Hcnt.
  assert (H0 : counted (fun _ => 0) (pool w) (heap w)).
  { eapply counted_weaken; [|exact Hcnt]. intros i. apply holds_nonneg. }
  unfold search_directory. cbv zeta. cbn [pool heap set_active_tasks].
  destruct (negb (max_depth cfg =? -1) && _); [exact H0|].
  destruct (opendir env (path task)) as [names|]; [|exact H0].
  set (d := set_dirs_scanned (dirs_scanned w + 1) w).
  destruct (ignore_vcs cfg) eqn:Evcs.
  2:{ rewrite (free_ignore_patterns_set_heap None). cbn [pool heap set_heap].
      change (free_ignore_patterns None ?u) with u.
      eapply counted_weaken;
        [|apply (fold_process_entry_counted (holds (parent_ignore task)));
          [|exact Hcnt]].
      - intros i. apply holds_nonneg.
      - intros i. unfold shared_set. lia. }
  unfold load_ignore_file. destruct (fopen_r env _) as [fp|].
  2:{ change (free_ignore_patterns None ?u) with u.
      eapply counted_weaken;
        [|apply (fold_process_entry_counted (holds (parent_ignore task)));
          [|exact Hcnt]].
      - intros i. apply holds_nonneg.
      - intros i. unfold shared_set. lia. }
  set (n := List.length (heap d)).
  set (pats := read_patterns (String.length fp) fp).
  set (u := set_heap (heap d ++ [mkIgnore pats 1 false]) d).
  set (extra := fun i => holds (parent_ignore task) i + holds (Some n) i).
  assert (Hu : counted extra (pool u) (heap u)).
  { destruct Hcnt as (Hok & Hc & Hn). subst u. cbn [pool heap set_heap].
    change (pool d) with (pool w). change (heap d) with (heap w) in *.
    split; [exact Hok|]. split.
    - apply Forall_app. split; [exact Hc|].
      constructor; [split; cbn [refcount freed]; [lia|reflexivity]|constructor].
    - intros i. subst extra. cbv beta. specialize (Hn i).
      unfold allowance in *. cbn [holds].
      destruct (n =? i)%nat eqn:E.
      + apply Nat.eqb_eq in E. subst i.
        rewrite lookup_app_r by apply le_n.
        replace (n - List.length (heap w))%nat with 0%nat by (subst n; lia).
        cbn [lookup list_lookup refcount].
        rewrite lookup_ge_None_2 in Hn by apply le_n. simpl. lia.
      + apply Nat.eqb_neq in E.
        destruct (heap w !! i) as [q|] eqn:Hq.
        * rewrite (lookup_app_l_Some _ _ _ _ Hq). lia.
        *
          assert (0 <= match (heap w ++ [mkIgnore pats 1 false]) !! i with
                       | Some p => refcount p | None => 0 end).
          { destruct ((heap w ++ _) !! i) as [q|] eqn:Hq'; [|lia].
            apply lookup_app_Some in Hq' as [Hq'|[Hge Hq']];
              [congruence|].
            destruct (i - List.length (heap w))%nat as [|k] eqn:Ek;
              [|discriminate Hq'].
            apply lookup_ge_None_1 in Hq. subst n. lia. }
          lia. }
  pose proof (fold_process_entry_counted extra env cfg task (Some n) names
                ltac:(intros i; subst extra; cbv beta; cbn [shared_set];
                      pose proof (holds_nonneg (parent_ignore task) i); lia)
                u Hu) as Hf.
  set (f := fold_left _ names u) in *.
  assert (Hpos : 0 < refs (pending (pool f)) n + extra n).
  { subst extra. cbv beta. cbn [holds]. rewrite Nat.eqb_refl.
    pose proof (refs_nonneg (pending (pool f)) n).
    pose proof (holds_nonneg (parent_ignore task) n). lia. }
  destruct (counted_live extra _ _ n Hf Hpos) as (q & Hq & Hlive & Hfree).
  destruct (free_ignore_patterns_same (Some n) f) as [-> _].
  unfold free_ignore_patterns. rewrite Hq. cbn [heap set_heap].
  destruct Hf as (Hok & Hc & Hn).
  assert (Hlt : (n < List.length (heap f))%nat) by (eapply lookup_lt_Some, Hq).
  split; [exact Hok|]. split.
  - apply Forall_insert; [exact Hc|]. split; cbn [refcount freed]; [lia|].
    destruct (1 <? refcount q) eqn:E1.
    + apply Z.ltb_lt in E1. rewrite Hfree. symmetry. apply Z.eqb_neq. lia.
    + apply Z.ltb_ge in E1. symmetry. apply Z.eqb_eq. lia.
  - intros i. rewrite allowance_insert by exact Hlt. cbn [refcount].
    specialize (Hn i). subst extra. cbv beta in Hn. cbn [holds] in Hn.
    pose proof (holds_nonneg (parent_ignore task) i).
    destruct (n =? i)%nat eqn:E; [|lia].
    apply Nat.eqb_eq in E. subst i. unfold allowance in Hn. rewrite Hq in Hn.
    lia.
Qed.

Lemma run_pool_counted env cfg fuel : forall w,
  counted (fun _ => 0) (pool w) (heap w) ->
  match run_pool env cfg fuel w with
  | inl w' | inr (OutOfFuel w') => counted (fun _ => 0) (pool w') (heap w')
  | inr (Hang _) | inr (Fault _) => True
  | inr _ => False
  end.
Proof.
  induction fuel as [|f IH]; intros w Hcnt; cbn [run_pool]; [exact Hcnt|].
  destruct (negb (shutdown (pool w)) && (active_tasks w <=? 0)).
  { apply IH. exact Hcnt. }
  destruct (count (pool w) =? 0)%nat eqn:Ecount.
  { destruct (shutdown (pool w)); [exact Hcnt|exact I]. }
  apply Nat.eqb_neq in Ecount. destruct Hcnt as (Hok & Hc & Hn).
  destruct (take_ok (pool w) Hok ltac:(lia)) as (t & Ht & Hok' & _).
  pose proof (pending_take (pool w) Hok ltac:(lia)) as Hpt.
  destruct (take (pool w)) as [o p]. cbn [fst snd] in *. subst o.
  apply IH. apply search_directory_counted. cbn [pool heap set_pool].
  split; [exact Hok'|]. split; [exact Hc|].
  intros i. specialize (Hn i). rewrite Hpt in Hn. cbn [refs fold_right] in Hn.
  fold (refs (pending p) i) in Hn. lia.
Qed.

(** X16. The reference counts of the ignore sets are sound at every
    moment of a walk, after any number of worker rounds and at its end:
    no count is negative, a set has been freed exactly when its count is
    0, and the set that a waiting task inherited is still allocated with a
    positive count.  So no set is freed twice or read after it was
    freed. *)
Theorem ignore_sets_counted env opts positional fuel w :
  reached (main env opts positional fuel) = Some w ->
  Forall consistent (heap w)
  /\ forall t i, In (Some t) (pending (pool w)) -> parent_ignore t = Some i ->
       exists p, heap w !! i = Some p /\ 0 < refcount p /\ freed p = false.
Proof.
  intros Hr.
  assert (Hcnt : counted (fun _ => 0) (pool w) (heap w)).
  { revert Hr. unfold main.
    destruct (parse_options env opts _) as [c|l]; [discriminate|].
    destruct (setup env l positional) as [c|[cfg w0]] eqn:Hsetup;
      [discriminate|].
    destruct (setup_pool env l positional cfg w0 Hsetup) as (Hok & Hc & Hs).
    destruct (setup_world env l positional cfg w0 Hsetup)
      as (_ & _ & _ & _ & Hh & _).
    unfold walk.
    set (w1 := if String.eqb (output_format cfg) "json" then _ else w0).
    set (w2 := if String.eqb (output_format cfg) "csv" then _ else w1).
    assert (Hp : pool w2 = pool w0 /\ heap w2 = heap w0).
    { subst w2 w1. destruct (String.eqb _ "json"), (String.eqb _ "csv");
        split; reflexivity. }
    destruct Hp as [Hp Hh2].
    set (t0 := mkTask (root_dir cfg) 0 None).
    set (w3 := set_pool _ _).
    assert (H3 : counted (fun _ => 0) (pool w3) (heap w3)).
    { subst w3. cbn [pool heap set_pool set_active_tasks]. rewrite Hp, Hh2, Hh.
      destruct (seeded_pool (pool w0) t0 Hok Hc Hs) as [Hok1 _].
      split; [exact Hok1|]. split; [constructor|].
      intros i. rewrite (pending_add (pool w0) t0 Hok).
      assert (Hnil : pending (pool w0) = [])
        by (unfold pending; rewrite Hc; reflexivity).
      rewrite Hnil. unfold allowance. rewrite lookup_nil.
      destruct (snd (threadpool_add (pool w0) t0) =? 0); cbn; lia. }
    pose proof (run_pool_counted env cfg fuel w3 H3) as Hrun.
    destruct (run_pool env cfg fuel w3) as [w4|[]]; cbn [reached];
      try discriminate; try contradiction.
    - intros [= <-]. cbn [pool heap set_err_stream].
      unfold json_trailer. destruct (String.eqb _ "json"); [|exact Hrun].
      destruct (0 <? matches_found w4); exact Hrun.
    - intros [= <-]. exact Hrun. }
  split; [apply Hcnt|].
  intros t i Hin Hpar.
  apply (counted_live (fun _ => 0) (pool w) (heap w) i Hcnt).
  assert (Hge : forall l, In (Some t) l -> 1 <= refs l i).
  { induction l as [|o l IH]; intros H; [destruct H|].
    destruct o as [t'|]; cbn [refs fold_right]; fold (refs l i).
    - destruct H as [[= ->]|H].
      + rewrite Hpar. cbn [holds]. rewrite Nat.eqb_refl.
        pose proof (refs_nonneg l i). lia.
      + pose proof (holds_nonneg (parent_ignore t') i). specialize (IH H). lia.
    - destruct H as [H|H]; [discriminate|]. apply IH, H. }
  specialize (Hge _ Hin). lia.
Qed.

Lemma ignore_sets_counted_witness :
  exists w, reached (main ignore_env just_pattern None 1) = Some w
            /\ pending (pool w) = [Some (mkTask "a/src" 1 (Some 0%nat))]
            /\ Forall consistent (heap w)
            /\ forall t i, In (Some t) (pending (pool w)) ->
                 parent_ignore t = Some i ->
                 exists p, heap w !! i = Some p /\ 0 < refcount p
                           /\ freed p = false.
Proof.
  eexists. split; [vm_compute; reflexivity|].
  split; [vm_compute; reflexivity|].
  apply (ignore_sets_counted ignore_env just_pattern None 1).
  vm_compute. reflexivity.
Defined.

(** ** search.c: the command line of the exec hook *)

Lemma starts_with_braces s :
  starts_with "{}" s = true -> exists rest, s = "{}" +:+ rest.
Proof.
  destruct s as [|a [|b rest]]; cbn [starts_with]; try discriminate.
  - rewrite andb_false_r. discriminate.
  - rewrite andb_true_r. intros H. apply andb_true_iff in H as [Ha Hb].
    apply Ascii.eqb_eq in Ha, Hb. subst. exists rest. reflexivity.
Qed.

Lemma strstr_none s :
  (forall a b, s <> a +:+ "{}" +:+ b) -> strstr "{}" s = None.
Proof.
  induction s as [|c s IH]; intros H; [reflexivity|].
  cbn [strstr]. destruct (starts_with "{}" (String c s)) eqn:E.
  - apply starts_with_braces in E as [rest E]. exfalso.
    apply (H "" rest). exact E.
  - rewrite IH; [reflexivity|]. intros a b ->. apply (H (String c a) b).
    reflexivity.
Qed.

Lemma strstr_first before after :
  (forall a b, before <> a +:+ "{}" +:+ b) ->
  strstr "{}" (before +:+ "{}" +:+ after) = Some (before, after).
Proof.
  induction before as [|c before IH]; intros H.
  { destruct after; reflexivity. }
  change (String c before +:+ "{}" +:+ after)
    with (String c (before +:+ "{}" +:+ after)).
  cbn [strstr].
  destruct (starts_with "{}" (String c (before +:+ "{}" +:+ after))) eqn:E.
  - exfalso. apply starts_with_braces in E as [rest E].
    destruct before as [|x before].
    + cbn in E. injection E as _ E. discriminate E.
    + cbn in E. injection E as -> -> _. apply (H "" before). reflexivity.
  - rewrite IH; [reflexivity|]. intros a b ->. apply (H (String c a) b).
    reflexivity.
Qed.

(** X17. The command line of the exec hook is the template with its first
    pair of braces replaced by the path between single quotes; later
    pairs of braces stay as they are.  A template without braces is
    followed by a space and the quoted path.  The path is put between the
    quotes as it is, quotes of its own included, and the command line is
    cut after 8191 bytes. *)
Theorem exec_command_line before after path :
  (forall a b, before <> a +:+ "{}" +:+ b) ->
  final_cmd (before +:+ "{}" +:+ after) path
  = snprintf (PATH_MAX * 2) (before +:+ "'" +:+ path +:+ "'" +:+ after)
  /\ final_cmd before path
     = snprintf (PATH_MAX * 2) (before +:+ " '" +:+ path +:+ "'").
Proof.
  intros H. unfold final_cmd.
  rewrite (strstr_first before after H), (strstr_none before H).
  split; reflexivity.
Qed.

Lemma exec_command_line_witness :
  final_cmd "mv {} {}.bak" "a/it's" = "mv 'a/it's' {}.bak"
  /\ final_cmd "ls" "a/b" = "ls 'a/b'".
Proof.
  assert (Hmv : forall a b, "mv " <> a +:+ "{}" +:+ b).
  { intros [|x [|y [|z [|? ?]]]] b; cbn; intros E; try discriminate E;
      injection E as E; subst; discriminate. }
  assert (Hls : forall a b, "ls" <> a +:+ "{}" +:+ b).
  { intros [|x [|y [|? ?]]] b; cbn; intros E; try discriminate E;
      injection E as E; subst; discriminate. }
  split.
  - change "mv {} {}.bak" with ("mv " +:+ "{}" +:+ " {}.bak").
    rewrite (proj1 (exec_command_line "mv " " {}.bak" "a/it's" Hmv)).
    vm_compute. reflexivity.
  - rewrite (proj2 (exec_command_line "ls" "" "a/b" Hls)).
    vm_compute. reflexivity.
Defined.

(** ** regex_utils.c: the content scan without line numbers *)

Lemma scan_lines_stops cfg path : forall ls fp rounds n found w,
  with_line_number cfg = false ->
  lines_of fp = ls ->
  Forall (fun l => (String.length l <= 4095)%nat) ls ->
  (List.length ls <= rounds)%nat ->
  scan_lines rounds cfg path fp n found w
  = (found || existsb (match_regex (content_regex cfg)) ls, w).
Proof.
  induction ls as [|l ls IH]; intros fp rounds n found w Hn Hl Hshort Hr.
  - apply lines_of_nil in Hl. subst fp. cbn [existsb].
    rewrite orb_false_r. destruct rounds; reflexivity.
  - destruct rounds as [|r]; [simpl in Hr; lia|].
    inversion Hshort as [|? ? Hlen Hrest]; subst.
    destruct (fgets_aux_line fp l ls 4095 Hl Hlen) as (rest & Hg & Hrest').
    assert (Hf : fgets 4096 fp = Some (l, rest)).
    { unfold fgets. destruct fp; [discriminate Hl|]. simpl Nat.sub.
      rewrite Hg. reflexivity. }
    cbn [scan_lines]. rewrite Hf. cbn [existsb].
    simpl in Hr.
    destruct (match_regex (content_regex cfg) l).
    + rewrite Hn, orb_true_r. reflexivity.
    + rewrite (IH rest r (wrap32 (n + 1)) found w Hn Hrest' Hrest ltac:(lia)).
      reflexivity.
Qed.

(** X18. Without the line-number flag the content scan writes nothing: on
    a readable file whose lines, newline included, have at most 4095
    bytes it returns 1 exactly when some line, taken with its newline,
    matches the content pattern, and leaves the state as it was. *)
Theorem content_scan_is_silent env cfg path fp w :
  with_line_number cfg = false ->
  compiled (content_regex cfg) = true ->
  fopen_r env path = Some fp ->
  Forall (fun l => (String.length l <= 4095)%nat) (lines_of fp) ->
  search_file_content env cfg path w
  = (if existsb (match_regex (content_regex cfg)) (lines_of fp) then 1 else 0,
     w).
Proof.
  intros Hn Hc Hopen Hshort. unfold search_file_content.
  rewrite Hc, Hopen. simpl negb. cbv iota.
  rewrite (scan_lines_stops cfg path (lines_of fp) fp (String.length fp) 1
             false w Hn eq_refl Hshort (lines_of_length fp)).
  reflexivity.
Qed.

Lemma content_scan_is_silent_witness :
  search_file_content (secret_env secret_text)
    (with_with_line_number false token_config) "a/secret.txt" idle_world
  = (1, idle_world).
Proof.
  apply (content_scan_is_silent (secret_env secret_text)
           (with_with_line_number false token_config) "a/secret.txt"
           secret_text idle_world);
    [reflexivity|reflexivity|reflexivity|].
  vm_compute. repeat constructor.
Defined.

(** ** Colours *)

Lemma setup_use_colors env l positional cfg w :
  setup env l positional = inr (cfg, w) ->
  use_colors cfg = true ->
  isatty_stdout env = true /\ output_file cfg = None.
Proof.
  unfold setup. destruct (name_pattern l); [|discriminate].
  destruct (match output_file _ with Some _ => _ | None => _ end);
    [|discriminate].
  destruct (compile_regex env _ _); [|discriminate].
  destruct (content_pattern l).
  - destruct (compile_regex env _ _); [|discriminate]. cbn [option_map].
    destruct (threadpool_create _ 4096); [|discriminate]. intros [= <- _].
    destruct positional, (type_mask _ =? 0); simpl;
      destruct (isatty_stdout env), (output_file (config l)) eqn:Eo; simpl;
      rewrite ?Eo; simpl; intros H;
      first [discriminate H|split; reflexivity].
  - destruct (threadpool_create _ 4096); [|discriminate]. intros [= <- _].
    destruct positional, (type_mask _ =? 0); simpl;
      destruct (isatty_stdout env), (output_file (config l)) eqn:Eo; simpl;
      rewrite ?Eo; simpl; intros H;
      first [discriminate H|split; reflexivity].
Qed.

(** X19. When the standard output is not a terminal, or an output file
    is given, the text record of a match is its path without a colour
    before it, but still followed by the reset sequence, the grey
    sequence around the type letter in brackets and another reset: the
    escape sequences of the type are written whether colours are on or
    not. *)
Theorem plain_text_record env opts positional cfg w n m :
  setup_of env opts positional = Some (cfg, w) ->
  isatty_stdout env = false \/ output_file cfg <> None ->
  exec_command cfg = None -> delete_files cfg = false ->
  long_listing cfg = false ->
  String.eqb (output_format cfg) "json" = false ->
  String.eqb (output_format cfg) "csv" = false ->
  shown env cfg n m
  = fst m +:+ ESC +:+ "[0m " +:+ ESC +:+ "[90m["
      +:+ String (type_char_of (snd m)) "]" +:+ ESC +:+ "[0m" +:+ NL.
Proof.
  intros Hs Hplain He Hd Hl Hj Hc.
  assert (Hcol : use_colors cfg = false).
  { destruct (use_colors cfg) eqn:E; [|reflexivity]. exfalso.
    unfold setup_of in Hs.
    destruct (parse_options env opts _) as [?|l]; [discriminate|].
    destruct (setup env l positional) as [?|[cfg' w']] eqn:Hsetup;
      [discriminate|]. injection Hs as -> ->.
    destruct (setup_use_colors env l positional cfg w Hsetup E) as [Ht Ho].
    destruct Hplain as [Hp|Hp]; [congruence|contradiction]. }
  unfold shown, text_record. rewrite He, Hd, Hl, Hj, Hc, Hcol.
  unfold C_FILE, C_RESET, C_TYPE. cbn [append].
  rewrite !append_assoc. reflexivity.
Qed.

Lemma plain_text_record_witness :
  exists cfg w,
    setup_of tree_env just_pattern None = Some (cfg, w)
    /\ shown tree_env cfg 1 ("a/b", dir_stat)
       = "a/b" +:+ ESC +:+ "[0m " +:+ ESC +:+ "[90m[d]" +:+ ESC +:+ "[0m" +:+ NL.
Proof.
  evar (cfg : search_config_t). evar (w : world).
  assert (Hs : setup_of tree_env just_pattern None = Some (cfg, w))
    by (subst cfg w; vm_compute; reflexivity).
  exists cfg, w. split; [exact Hs|].
  apply (plain_text_record tree_env just_pattern None cfg w 1 ("a/b", dir_stat)
           Hs (or_introl eq_refl)); reflexivity.
Defined.

(** ** main.c: a walk whose first task submits nothing *)

Lemma walk_one_task env cfg w fuel :
  ring_ok (pool w) -> count (pool w) = 0%nat -> shutdown (pool w) = false ->
  (forall u,
     pool (search_directory env cfg (mkTask (root_dir cfg) 0 None) u) = pool u
     /\ active_tasks (search_directory env cfg (mkTask (root_dir cfg) 0 None) u)
        = active_tasks u - 1) ->
  (3 <= fuel)%nat ->
  exists p',
    walk env cfg w fuel
    = Exit 0 (walk_end env cfg
                (set_pool (begin_shutdown p')
                   (search_directory env cfg (mkTask (root_dir cfg) 0 None)
                      (set_pool p' (set_active_tasks 1
                                      (fprintf (header cfg) w)))))).
Proof.
  intros Hok Hc Hs Hquiet Hfuel. unfold walk.
  set (w1 := if String.eqb (output_format cfg) "json" then _ else w).
  set (w2 := if String.eqb (output_format cfg) "csv" then _ else w1).
  assert (H2 : w2 = fprintf (header cfg) w).
  { subst w2 w1. unfold header.
    destruct (String.eqb _ "json"), (String.eqb _ "csv");
      rewrite ?fprintf_app, ?fprintf_empty; reflexivity. }
  rewrite H2. clear H2 w2 w1.
  set (t0 := mkTask (root_dir cfg) 0 None) in *.
  set (h := fprintf (header cfg) w).
  change (pool (set_active_tasks 1 h)) with (pool w).
  destruct (take_seeded (pool w) t0 Hok Hc Hs) as (p' & Htake & Hok' & Hc' & Hs').
  destruct (seeded_pool (pool w) t0 Hok Hc Hs) as [Hok1 Hc1].
  pose proof (threadpool_add_ok (pool w) t0 Hok) as Hres.
  destruct (threadpool_add (pool w) t0) as [p1 r]. cbn [fst] in *.
  destruct Hres as (_ & Hs1 & _). rewrite Hs in Hs1.
  destruct fuel as [|[|[|f]]]; try lia.
  set (u := set_pool p' (set_active_tasks 1 h)).
  destruct (Hquiet u) as [Hpool Hact].
  assert (Hrun : run_pool env cfg (S (S (S f)))
                   (set_pool p1 (set_active_tasks 1 h))
                 = inl (set_pool (begin_shutdown p')
                          (search_directory env cfg t0 u))).
  { cbn [run_pool pool set_pool active_tasks set_active_tasks].
    rewrite Hs1, Hc1, Htake. cbn [negb andb Z.leb Z.compare Nat.eqb].
    change (set_pool p' (set_pool p1 (set_active_tasks 1 h))) with u.
    rewrite Hpool, Hact. subst u. cbn [pool set_pool active_tasks
      set_active_tasks]. rewrite Hs'. cbn [negb andb].
    change (1 - 1 <=? 0) with true. cbv iota.
    cbn [begin_shutdown shutdown count negb andb]. rewrite Hc'. reflexivity. }
  rewrite Hrun. exists p'. reflexivity.
Qed.

(** X20. When the starting directory cannot be opened the run is silent
    about it: it ends with exit code 0, counts one directory and no
    match, writes the header and the closing line of the format and
    nothing else, and the error stream holds the summary only. *)
Theorem unreadable_start_is_silent env opts positional fuel cfg w :
  setup_of env opts positional = Some (cfg, w) ->
  opendir env (root_dir cfg) = None ->
  max_depth cfg = -1 \/ 0 <= max_depth cfg ->
  (3 <= fuel)%nat ->
  exists w',
    main env opts positional fuel = Exit 0 w'
    /\ dirs_scanned w' = 1 /\ matches_found w' = 0 /\ files_scanned w' = 0
    /\ contents (out_stream w') = header cfg +:+ trailer cfg []
    /\ contents (err_stream w') = summary env w'.
Proof.
  intros Hs Hopen Hdepth Hfuel.
  destruct (main_setup env opts positional fuel cfg w Hs) as (-> & l & Hl).
  destruct (setup_pool env l positional cfg w Hl) as (Hok & Hc & Hsd).
  destruct (setup_world env l positional cfg w Hl)
    as (_ & Hf & Hd & Hm & _ & _ & He).
  pose proof (setup_streams env l positional cfg w Hl) as Hout.
  assert (Hsd0 : forall u,
            search_directory env cfg (mkTask (root_dir cfg) 0 None) u
            = set_active_tasks (active_tasks u - 1)
                (set_dirs_scanned (dirs_scanned u + 1) u)).
  { intros u. unfold search_directory. cbn [path current_depth].
    replace (negb (max_depth cfg =? -1) && (max_depth cfg <? 0)) with false.
    - rewrite Hopen. reflexivity.
    - symmetry. destruct Hdepth as [->|Hge]; [reflexivity|].
      apply andb_false_iff. right. apply Z.ltb_ge. exact Hge. }
  destruct (walk_one_task env cfg w fuel Hok Hc Hsd
              ltac:(intros u; rewrite Hsd0; split; reflexivity) Hfuel)
    as (p' & ->).
  rewrite Hsd0. eexists. split; [reflexivity|].
  set (w4 := set_pool _ _).
  assert (H4 : dirs_scanned w4 = 1 /\ matches_found w4 = 0
               /\ files_scanned w4 = 0
               /\ out_stream w4
                  = fputs (header cfg) (fresh_stream (seekable (out_stream w)))
               /\ err_stream w4 = fresh_stream false).
  { subst w4. cbn [dirs_scanned matches_found files_scanned out_stream
      err_stream set_pool set_active_tasks set_dirs_scanned fprintf
      set_out_stream]. rewrite Hd, Hm, Hf, He. rewrite Hout at 1. auto. }
  destruct H4 as (H4d & H4m & H4f & H4o & H4e).
  destruct (json_trailer_quiet cfg w4) as (_ & _ & Jf & Jd & Jm).
  unfold walk_end. cbv zeta.
  cbn [dirs_scanned matches_found files_scanned out_stream err_stream
       set_err_stream].
  rewrite Jf, Jd, Jm, H4d, H4m, H4f.
  split; [reflexivity|]. split; [reflexivity|]. split; [reflexivity|].
  assert (Jo : out_stream (json_trailer cfg w4)
               = fputs (trailer cfg []) (out_stream w4)
               /\ err_stream (json_trailer cfg w4) = err_stream w4).
  { unfold json_trailer, trailer. destruct (String.eqb _ "json").
    - rewrite H4m. cbn [Z.ltb Z.compare]. split; reflexivity.
    - rewrite fputs_empty. split; reflexivity. }
  destruct Jo as [-> ->]. rewrite H4o, H4e, <- fputs_app.
  rewrite !contents_fputs_fresh. split; [reflexivity|].
  unfold summary.
  cbn [dirs_scanned matches_found files_scanned set_err_stream].
  rewrite Jf, Jd, Jm. reflexivity.
Qed.

Lemma unreadable_start_is_silent_witness :
  exists w',
    main locked_env just_pattern None 3 = Exit 0 w'
    /\ dirs_scanned w' = 1 /\ matches_found w' = 0 /\ files_scanned w' = 0
    /\ contents (out_stream w') = ""
    /\ contents (err_stream w') = summary locked_env w'.
Proof.
  evar (cfg : search_config_t). evar (w : world).
  assert (Hs : setup_of locked_env just_pattern None = Some (cfg, w))
    by (subst cfg w; vm_compute; reflexivity).
  destruct (unreadable_start_is_silent locked_env just_pattern None 3 cfg w Hs
              eq_refl (or_introl eq_refl) (le_n 3)) as (w' & H).
  exists w'. exact H.
Defined.

(** ** main.c: closing the JSON array on a file *)







(** ** main.c: a command line without a name pattern *)

Lemma handle_option_keeps_pattern env o optarg l l' :
  o <> OptPattern ->
  handle_option env o optarg l = inr l' ->
  name_pattern l' = name_pattern l.
Proof.
  intros Ho. destruct o; try contradiction; cbn [handle_option];
    try (intros [= <-]; reflexivity); try discriminate.
  - destruct (comparator_prefix optarg) as [op arg].
    destruct (parse_size_string arg <? 0); [discriminate|].
    intros [= <-]. reflexivity.
  - destruct (comparator_prefix optarg) as [op arg].
    destruct (parse_time_string arg <? 0); [discriminate|].
    intros [= <-]. reflexivity.
  - destruct (get_uid_from_name env optarg); [|discriminate].
    intros [= <-]. reflexivity.
  - destruct (parse_permissions optarg); [|discriminate].
    intros [= <-]. reflexivity.
Qed.

Lemma handle_option_code env o optarg l code :
  handle_option env o optarg l = inl code -> code = 0 \/ code = 1.
Proof.
  destruct o; cbn [handle_option]; try discriminate;
    try (intros [= <-]; auto).
  - destruct (comparator_prefix optarg) as [op arg].
    destruct (parse_size_string arg <? 0); [|discriminate].
    intros [= <-]. auto.
  - destruct (comparator_prefix optarg) as [op arg].
    destruct (parse_time_string arg <? 0); [|discriminate].
    intros [= <-]. auto.
  - destruct (get_uid_from_name env optarg); [discriminate|].
    intros [= <-]. auto.
  - destruct (parse_permissions optarg); [discriminate|].
    intros [= <-]. auto.
Qed.

(** X22. Without a name pattern among the options no walk starts: [main]
    returns 0 or 1 from the setup, whatever the other options and the
    positional argument are. *)
Theorem no_pattern_no_walk env opts positional fuel :
  Forall (fun oa => fst oa <> OptPattern) opts ->
  exists code, main env opts positional fuel = SetupExit code
               /\ (code = 0 \/ code = 1).
Proof.
  intros Hopts. unfold main.
  assert (H : forall l, name_pattern l = None ->
            match parse_options env opts l with
            | inl code => code = 0 \/ code = 1
            | inr l' => name_pattern l' = None
            end).
  { induction Hopts as [|[o a] opts Ho _ IH]; intros l Hl; [exact Hl|].
    cbn [parse_options].
    destruct (handle_option env o a l) as [code|l1] eqn:E.
    - eapply handle_option_code, E.
    - apply IH. rewrite (handle_option_keeps_pattern env o a l l1 Ho E).
      exact Hl. }
  specialize (H (mkLocals init_search_config None None) eq_refl).
  destruct (parse_options env opts _) as [code|l]; [eauto|].
  unfold setup. rewrite H. eauto.
Qed.

Lemma no_pattern_no_walk_witness :
  exists code,
    main tree_env [(OptDirectory, "a"); (OptType, "f")] None 4 = SetupExit code
    /\ (code = 0 \/ code = 1).
Proof.
  apply (no_pattern_no_walk tree_env [(OptDirectory, "a"); (OptType, "f")]
           None 4).
  repeat constructor; discriminate.
Defined.

(** ** A walk with a depth limit ends *)

Lemma subtree_cost_pos env levels dir : (1 <= subtree_cost env levels dir)%nat.
Proof. destruct levels; simpl; lia. Qed.

Lemma pending_cost_snoc env limit l t :
  pending_cost env limit (l ++ [Some t])
  = (pending_cost env limit l + task_cost env limit t)%nat.
Proof.
  unfold pending_cost. rewrite map_app, list_sum_app. cbn [map list_sum fold_right]. lia.
Qed.

Lemma pending_cost_cons env limit o l :
  pending_cost env limit (o :: l)
  = (match o with Some t => task_cost env limit t | None => 0 end
     + pending_cost env limit l)%nat.
Proof. reflexivity. Qed.

Lemma process_entry_cost env cfg task local_ignore w d_name :
  ring_ok (pool w) ->
  (pending_cost env (max_depth cfg)
     (pending (pool (process_entry env cfg task local_ignore w d_name)))
   <= pending_cost env (max_depth cfg) (pending (pool w))
      + (if recursion_gate cfg task
         then subtree_cost env
                (Z.to_nat (max_depth cfg - (current_depth task + 1)))
                (path task +:+ "/" +:+ d_name)
         else 0))%nat.
Proof.
  intros Hok. unfold process_entry.
  destruct (String.eqb d_name "." || String.eqb d_name ".."); [lia|].
  destruct (lstat env _) as [sb|]; [|lia].
  destruct (no_hidden cfg && _); [lia|].
  destruct (existsb _ _); [lia|].
  destruct (ignore_vcs cfg && _); [lia|].
  pose proof (entry_filter_same_tasks env cfg d_name
                (path task +:+ "/" +:+ d_name) sb w) as Hf.
  destruct (entry_filter env cfg d_name _ sb w) as [is_match w1]. simpl in Hf.
  set (w2 := if is_match then _ else w1).
  assert (H2 : pool w2 = pool w).
  { subst w2. destruct is_match; [|apply Hf].
    destruct (report_match_same_tasks env cfg (path task +:+ "/" +:+ d_name)
                sb w1) as [-> _]. apply Hf. }
  destruct (S_ISDIR (st_mode sb) && recursion_gate cfg task) eqn:E;
    [|rewrite H2; lia].
  apply andb_true_iff in E as [_ ->]. rewrite spawn_child_shared.
  assert (Hok2 : ring_ok (pool w2)) by (rewrite H2; exact Hok).
  destruct (submit_child_pending (shared_set task local_ignore)
              (path task +:+ "/" +:+ d_name) (current_depth task + 1) w2 Hok2)
    as [->| ->]; rewrite H2; [lia|].
  rewrite pending_cost_snoc. apply Nat.add_le_mono_l. apply le_n.
Qed.

Lemma fold_process_entry_cost env cfg task local_ignore names : forall w,
  ring_ok (pool w) ->
  (pending_cost env (max_depth cfg)
     (pending (pool (fold_left (process_entry env cfg task local_ignore)
                       names w)))
   <= pending_cost env (max_depth cfg) (pending (pool w))
      + (if recursion_gate cfg task
         then list_sum
                (map (fun n => subtree_cost env
                          (Z.to_nat (max_depth cfg - (current_depth task + 1)))
                          (path task +:+ "/" +:+ n)) names)
         else 0))%nat.
Proof.
  induction names as [|n names IH]; intros w Hok; cbn [fold_left map].
  - destruct (recursion_gate cfg task); simpl; lia.
  - pose proof (process_entry_cost env cfg task local_ignore w n Hok) as H1.
    pose proof (process_entry_balanced env cfg task local_ignore w n Hok)
      as (Hok1 & _).
    specialize (IH _ Hok1).
    change (list_sum (?a :: ?l)) with (a + list_sum l)%nat.
    destruct (recursion_gate cfg task); lia.
Qed.

(** A task pays for the tasks it submits. *)
Lemma search_directory_cost env cfg task w :
  ring_ok (pool w) -> max_depth cfg <> -1 ->
  (pending_cost env (max_depth cfg)
     (pending (pool (search_directory env cfg task w))) + 1
   <= pending_cost env (max_depth cfg) (pending (pool w))
      + task_cost env (max_depth cfg) task)%nat.
Proof.
  intros Hok Hlimit.
  pose proof (subtree_cost_pos env
                (Z.to_nat (max_depth cfg - current_depth task)) (path task))
    as Hpos.
  unfold search_directory. cbv zeta. cbn [pool set_active_tasks].
  unfold task_cost.
  destruct (negb (max_depth cfg =? -1) && _); [lia|].
  destruct (opendir env (path task)) as [names|] eqn:Hopen;
    [|cbn [pool set_dirs_scanned]; lia].
  assert (Hload : exists l w1,
            (if ignore_vcs cfg
             then load_ignore_file env (path task)
                    (set_dirs_scanned (dirs_scanned w + 1) w)
             else (None, set_dirs_scanned (dirs_scanned w + 1) w)) = (l, w1)
            /\ same_tasks_but_heap w w1).
  { destruct (ignore_vcs cfg); [|do 2 eexists; split; [reflexivity|split; reflexivity]].
    unfold load_ignore_file. destruct (fopen_r env _);
      do 2 eexists; (split; [reflexivity|split; reflexivity]). }
  destruct Hload as (l & w1 & -> & Hp1 & _).
  destruct (free_ignore_patterns_same l
              (fold_left (process_entry env cfg task l) names w1)) as [-> _].
  pose proof (fold_process_entry_cost env cfg task l names w1
                ltac:(rewrite Hp1; exact Hok)) as Hfold.
  rewrite Hp1 in Hfold.
  unfold recursion_gate in Hfold.
  replace (max_depth cfg =? -1) with false in Hfold
    by (symmetry; apply Z.eqb_neq; exact Hlimit).
  cbn [orb] in Hfold.
  destruct (current_depth task <? max_depth cfg) eqn:E; [|lia].
  apply Z.ltb_lt in E.
  replace (Z.to_nat (max_depth cfg - current_depth task))
    with (S (Z.to_nat (max_depth cfg - (current_depth task + 1)))) by lia.
  cbn [subtree_cost]. rewrite Hopen. lia.
Qed.

Lemma run_pool_ends env cfg fuel : forall w,
  ring_ok (pool w) -> running w = 0 -> max_depth cfg <> -1 ->
  (pending_cost env (max_depth cfg) (pending (pool w)) + 2 <= fuel)%nat ->
  exists w', run_pool env cfg fuel w = inl w'.
Proof.
  induction fuel as [|f IH]; intros w Hok Hrun Hlimit Hfuel; [lia|].
  cbn [run_pool].
  destruct (negb (shutdown (pool w)) && (active_tasks w <=? 0)) eqn:Ewake.
  { apply andb_true_iff in Ewake as [_ Ha]. apply Z.leb_le in Ha.
    assert (Hc : count (pool w) = 0%nat) by (unfold running in Hrun; lia).
    destruct f as [|f']; [lia|]. cbn [run_pool pool set_pool begin_shutdown
      shutdown count negb andb]. rewrite Hc. eauto. }
  destruct (count (pool w) =? 0)%nat eqn:Ecount.
  { destruct (shutdown (pool w)) eqn:Es; [eauto|]. exfalso.
    apply Nat.eqb_eq in Ecount. unfold running in Hrun. rewrite Ecount in Hrun.
    simpl in Ewake. apply Z.leb_gt in Ewake. lia. }
  apply Nat.eqb_neq in Ecount.
  destruct (take_ok (pool w) Hok ltac:(lia)) as (t & Ht & Hok' & Hc & Hs).
  pose proof (pending_take (pool w) Hok ltac:(lia)) as Hpt.
  destruct (take (pool w)) as [o p]. cbn [fst snd] in *. subst o.
  destruct (search_directory_balanced env cfg t (set_pool p w) Hok')
    as (Hok2 & _ & Hrun2).
  pose proof (search_directory_cost env cfg t (set_pool p w) Hok' Hlimit)
    as Hcost.
  cbn [pool set_pool] in Hcost.
  rewrite Hpt, pending_cost_cons in Hfuel.
  apply IH; [exact Hok2| |exact Hlimit|lia].
  rewrite Hrun2. unfold running in *. simpl. rewrite Hc. lia.
Qed.

(** X23. With a depth limit the walk always ends: a run that gets past
    the setup returns with exit code 0 within a number of worker rounds
    bounded by the size of the tree down to the limit, whatever the file
    system holds, also when the queue overflows. *)
Theorem depth_limit_ends_the_walk env opts positional cfg w fuel :
  setup_of env opts positional = Some (cfg, w) ->
  max_depth cfg <> -1 ->
  (subtree_cost env (Z.to_nat (max_depth cfg)) (root_dir cfg) + 2 <= fuel)%nat ->
  exists w', main env opts positional fuel = Exit 0 w'.
Proof.
  intros Hs Hlimit Hfuel.
  destruct (main_setup env opts positional fuel cfg w Hs) as (-> & l & Hl).
  destruct (setup_pool env l positional cfg w Hl) as (Hok & Hc & Hsd).
  unfold walk.
  set (w1 := if String.eqb (output_format cfg) "json" then _ else w).
  set (w2 := if String.eqb (output_format cfg) "csv" then _ else w1).
  assert (Hp : pool w2 = pool w).
  { subst w2 w1. destruct (String.eqb _ "json"), (String.eqb _ "csv"); reflexivity. }
  set (t0 := mkTask (root_dir cfg) 0 None).
  set (w3 := set_pool _ _).
  destruct (seeded_pool (pool w) t0 Hok Hc Hsd) as [Hok1 Hc1].
  assert (H3 : ring_ok (pool w3) /\ running w3 = 0
               /\ (pending_cost env (max_depth cfg) (pending (pool w3)) + 2
                   <= fuel)%nat).
  { subst w3. unfold running.
    cbn [pool set_pool active_tasks set_active_tasks]. rewrite Hp.
    split; [exact Hok1|]. split; [rewrite Hc1; reflexivity|].
    rewrite (pending_add (pool w) t0 Hok).
    assert (Hnil : pending (pool w) = [])
      by (unfold pending; rewrite Hc; reflexivity).
    rewrite Hnil.
    destruct (snd (threadpool_add (pool w) t0) =? 0); [|simpl; lia].
    cbn [app]. rewrite pending_cost_cons. unfold task_cost. subst t0.
    cbn [current_depth path].
    replace (max_depth cfg - 0) with (max_depth cfg) by lia.
    change (pending_cost env (max_depth cfg) []) with 0%nat. lia. }
  destruct H3 as (Hok3 & Hrun3 & Hcost3).
  destruct (run_pool_ends env cfg fuel w3 Hok3 Hrun3 Hlimit Hcost3) as [w4 ->].
  eexists. reflexivity.
Qed.

Lemma depth_limit_ends_the_walk_witness :
  exists w', main tree_env depth_one None 7 = Exit 0 w'.
Proof.
  evar (cfg : search_config_t). evar (w : world).
  assert (Hs : setup_of tree_env depth_one None = Some (cfg, w))
    by (subst cfg w; vm_compute; reflexivity).
  apply (depth_limit_ends_the_walk tree_env depth_one None cfg w 7 Hs).
  - discriminate.
  - vm_compute. apply le_n.
Defined.

(** ** C10: a failed submission *)

(** [rest_of_task] is the end of [search_directory]. *)
Lemma search_directory_rest env cfg task w names1 names2 :
  negb (max_depth cfg =? -1) && (max_depth cfg <? current_depth task) = false ->
  opendir env (path task) = Some (names1 ++ names2)%list ->
  search_directory env cfg task w
  = let '(local_ignore, w1) :=
      if ignore_vcs cfg
      then load_ignore_file env (path task)
             (set_dirs_scanned (dirs_scanned w + 1) w)
      else (None, set_dirs_scanned (dirs_scanned w + 1) w) in
    rest_of_task env cfg task local_ignore names2
      (fold_left (process_entry env cfg task local_ignore) names1 w1).
Proof.
  intros Hg Ho. unfold search_directory, rest_of_task. cbv zeta.
  rewrite Hg, Ho.
  destruct (if ignore_vcs cfg then _ else _) as [l w1].
  rewrite fold_left_app. reflexivity.
Qed.

Lemma fold_process_entry_rejected env cfg task local_ignore names : forall w,
  count (pool w) = queue_size (pool w) \/ shutdown (pool w) = true ->
  (forall i p, shared_set task local_ignore = Some i ->
               heap w !! i = Some p -> 0 < refcount p) ->
  same_tasks w (fold_left (process_entry env cfg task local_ignore) names w).
Proof.
  induction names as [|d names IH]; intros w Hfull Hlive; cbn [fold_left];
    [apply same_tasks_refl|].
  pose proof (process_entry_rejected env cfg task local_ignore w d Hfull Hlive)
    as H1.
  eapply same_tasks_trans; [exact H1|].
  destruct H1 as (Hp & Hh & _).
  apply IH; rewrite ?Hp, ?Hh; assumption.
Qed.

Lemma list_sum_map_le {A} (f g : A -> nat) (l : list A) :
  (forall x, In x l -> (f x <= g x)%nat) ->
  (list_sum (map f l) <= list_sum (map g l))%nat.
Proof.
  induction l as [|x l IH]; intros H; cbn [map]; [apply le_n|].
  change (list_sum (?a :: ?l)) with (a + list_sum l)%nat.
  pose proof (H x (or_introl eq_refl)).
  assert (list_sum (map f l) <= list_sum (map g l))%nat
    by (apply IH; intros y Hy; apply H; right; exact Hy).
  lia.
Qed.

Lemma list_sum_map_zero {A} (f : A -> nat) (l : list A) :
  (forall x, In x l -> f x = 0%nat) -> list_sum (map f l) = 0%nat.
Proof.
  induction l as [|x l IH]; intros H; cbn [map]; [reflexivity|].
  change (list_sum (?a :: ?l)) with (a + list_sum l)%nat.
  rewrite (H x (or_introl eq_refl)), IH; [reflexivity|].
  intros y Hy. apply H. right. exact Hy.
Qed.

Lemma shallow_children env b dir names d :
  shallow env b dir = true -> opendir env dir = Some names -> In d names ->
  is_subdir env dir d = true ->
  exists b', b = S b' /\ shallow env b' (dir +:+ "/" +:+ d) = true.
Proof.
  intros Hs Ho Hin Hd.
  destruct b as [|b']; cbn [shallow] in Hs; rewrite Ho in Hs;
    rewrite forallb_forall in Hs; specialize (Hs d Hin); rewrite Hd in Hs;
    cbn [negb orb] in Hs; [discriminate|eauto].
Qed.

(** A directory pays for its subdirectories. *)
Lemma shallow_cost env b dir names :
  shallow env b dir = true -> opendir env dir = Some names ->
  (list_sum (map (fun d => if is_subdir env dir d
                           then subtree_cost env (b - 1) (dir +:+ "/" +:+ d)
                           else 0%nat) names) + 1
   <= subtree_cost env b dir)%nat.
Proof.
  intros Hs Ho. destruct b as [|b'].
  - rewrite list_sum_map_zero; [cbn [subtree_cost]; lia|].
    intros d Hin. destruct (is_subdir env dir d) eqn:Hd; [|reflexivity].
    destruct (shallow_children env 0 dir names d Hs Ho Hin Hd) as (b' & Hb & _).
    discriminate.
  - replace (S b' - 1)%nat with b' by lia.
    cbn [subtree_cost]. rewrite Ho.
    pose proof (list_sum_map_le
                  (fun d => if is_subdir env dir d
                            then subtree_cost env b' (dir +:+ "/" +:+ d)
                            else 0%nat)
                  (fun d => subtree_cost env b' (dir +:+ "/" +:+ d)) names) as H.
    cbv beta in H.
    assert (Hle : forall x, In x names ->
              ((if is_subdir env dir x
                then subtree_cost env b' (dir +:+ "/" +:+ x) else 0)
               <= subtree_cost env b' (dir +:+ "/" +:+ x))%nat)
      by (intros x _; destruct (is_subdir env dir x); lia).
    specialize (H Hle). lia.
Qed.

Lemma process_entry_shallow env cfg task local_ignore w d_name n :
  ring_ok (pool w) ->
  Forall (shallow_task env n) (pending (pool w)) ->
  (is_subdir env (path task) d_name = true ->
   shallow env (Z.to_nat (Z.of_nat n - (current_depth task + 1)))
     (path task +:+ "/" +:+ d_name) = true) ->
  Forall (shallow_task env n)
    (pending (pool (process_entry env cfg task local_ignore w d_name)))
  /\ (pending_cost env (Z.of_nat n)
        (pending (pool (process_entry env cfg task local_ignore w d_name)))
      <= pending_cost env (Z.of_nat n) (pending (pool w))
         + (if is_subdir env (path task) d_name
            then subtree_cost env
                   (Z.to_nat (Z.of_nat n - (current_depth task + 1)))
                   (path task +:+ "/" +:+ d_name)
            else 0))%nat.
Proof.
  intros Hok Hall Hchild.
  set (c := if is_subdir env (path task) d_name then _ else 0%nat).
  assert (Hc : forall sb,
            String.eqb d_name "." || String.eqb d_name ".." = false ->
            lstat env (path task +:+ "/" +:+ d_name) = Some sb ->
            S_ISDIR (st_mode sb) = true ->
            c = subtree_cost env
                  (Z.to_nat (Z.of_nat n - (current_depth task + 1)))
                  (path task +:+ "/" +:+ d_name)
            /\ shallow env (Z.to_nat (Z.of_nat n - (current_depth task + 1)))
                 (path task +:+ "/" +:+ d_name) = true).
  { intros sb H1 H2 H3.
    assert (Hd : is_subdir env (path task) d_name = true)
      by (unfold is_subdir; rewrite H1, H2; exact H3).
    subst c. rewrite Hd. split; [reflexivity|apply Hchild, Hd]. }
  clearbody c. clear Hchild. unfold process_entry.
  destruct (String.eqb d_name "." || String.eqb d_name "..") eqn:E1;
    [split; [exact Hall|lia]|].
  destruct (lstat env _) as [sb|] eqn:E2; [|split; [exact Hall|lia]].
  destruct (no_hidden cfg && _); [split; [exact Hall|lia]|].
  destruct (existsb _ _); [split; [exact Hall|lia]|].
  destruct (ignore_vcs cfg && _); [split; [exact Hall|lia]|].
  pose proof (entry_filter_same_tasks env cfg d_name
                (path task +:+ "/" +:+ d_name) sb w) as Hf.
  destruct (entry_filter env cfg d_name _ sb w) as [is_match w1]. simpl in Hf.
  set (w2 := if is_match then _ else w1).
  assert (H2 : pool w2 = pool w).
  { subst w2. destruct is_match; [|apply Hf].
    destruct (report_match_same_tasks env cfg (path task +:+ "/" +:+ d_name)
                sb w1) as [-> _]. apply Hf. }
  destruct (S_ISDIR (st_mode sb) && recursion_gate cfg task) eqn:E;
    [|rewrite H2; split; [exact Hall|lia]].
  apply andb_true_iff in E as [Hdir _].
  destruct (Hc sb eq_refl eq_refl Hdir) as [-> Hsh].
  rewrite spawn_child_shared.
  assert (Hok2 : ring_ok (pool w2)) by (rewrite H2; exact Hok).
  destruct (submit_child_pending (shared_set task local_ignore)
              (path task +:+ "/" +:+ d_name) (current_depth task + 1) w2 Hok2)
    as [->| ->]; rewrite H2; [split; [exact Hall|lia]|].
  split.
  - apply Forall_app. split; [exact Hall|].
    constructor; [exact Hsh|constructor].
  - rewrite pending_cost_snoc. apply Nat.add_le_mono_l. apply le_n.
Qed.

Lemma fold_process_entry_shallow env cfg task local_ignore n names : forall w,
  ring_ok (pool w) ->
  Forall (shallow_task env n) (pending (pool w)) ->
  (forall d, In d names -> is_subdir env (path task) d = true ->
     shallow env (Z.to_nat (Z.of_nat n - (current_depth task + 1)))
       (path task +:+ "/" +:+ d) = true) ->
  Forall (shallow_task env n)
    (pending (pool (fold_left (process_entry env cfg task local_ignore)
                      names w)))
  /\ (pending_cost env (Z.of_nat n)
        (pending (pool (fold_left (process_entry env cfg task local_ignore)
                          names w)))
      <= pending_cost env (Z.of_nat n) (pending (pool w))
         + list_sum
             (map (fun d => if is_subdir env (path task) d
                            then subtree_cost env
                                   (Z.to_nat (Z.of_nat n
                                              - (current_depth task + 1)))
                                   (path task +:+ "/" +:+ d)
                            else 0%nat) names))%nat.
Proof.
  induction names as [|d names IH]; intros w Hok Hall Hch; cbn [fold_left map].
  - split; [exact Hall|]. change (list_sum []) with 0%nat. lia.
  - destruct (process_entry_shallow env cfg task local_ignore w d n Hok Hall
                (Hch d (or_introl eq_refl))) as [Hall1 Hcost1].
    pose proof (process_entry_balanced env cfg task local_ignore w d Hok)
      as (Hok1 & _).
    destruct (IH _ Hok1 Hall1 (fun x Hx => Hch x (or_intror Hx)))
      as [Hall2 Hcost2].
    split; [exact Hall2|].
    change (list_sum (?a :: ?l)) with (a + list_sum l)%nat. lia.
Qed.

(** A task of a finite tree pays for the tasks it submits, and they are
    tasks of the tree. *)
Lemma search_directory_shallow env cfg task w n :
  ring_ok (pool w) ->
  Forall (shallow_task env n) (pending (pool w)) ->
  shallow_task env n (Some task) ->
  Forall (shallow_task env n)
    (pending (pool (search_directory env cfg task w)))
  /\ (pending_cost env (Z.of_nat n)
        (pending (pool (search_directory env cfg task w))) + 1
      <= pending_cost env (Z.of_nat n) (pending (pool w))
         + task_cost env (Z.of_nat n) task)%nat.
Proof.
  intros Hok Hall Ht. cbn [shallow_task] in Ht.
  pose proof (subtree_cost_pos env
                (Z.to_nat (Z.of_nat n - current_depth task)) (path task))
    as Hpos.
  unfold search_directory. cbv zeta. cbn [pool set_active_tasks].
  unfold task_cost.
  destruct (negb (max_depth cfg =? -1) && _); [split; [exact Hall|lia]|].
  destruct (opendir env (path task)) as [names|] eqn:Hopen;
    [|cbn [pool set_dirs_scanned]; split; [exact Hall|lia]].
  assert (Hload : exists l w1,
            (if ignore_vcs cfg
             then load_ignore_file env (path task)
                    (set_dirs_scanned (dirs_scanned w + 1) w)
             else (None, set_dirs_scanned (dirs_scanned w + 1) w)) = (l, w1)
            /\ same_tasks_but_heap w w1).
  { destruct (ignore_vcs cfg); [|do 2 eexists; split; [reflexivity|split; reflexivity]].
    unfold load_ignore_file. destruct (fopen_r env _);
      do 2 eexists; (split; [reflexivity|split; reflexivity]). }
  destruct Hload as (l & w1 & -> & Hp1 & _).
  destruct (free_ignore_patterns_same l
              (fold_left (process_entry env cfg task l) names w1)) as [-> _].
  assert (Hch : forall d, In d names ->
            is_subdir env (path task) d = true ->
            shallow env (Z.to_nat (Z.of_nat n - (current_depth task + 1)))
              (path task +:+ "/" +:+ d) = true).
  { intros d Hin Hd.
    destruct (shallow_children env _ (path task) names d Ht Hopen Hin Hd)
      as (b' & Hb & Hs).
    replace (Z.to_nat (Z.of_nat n - (current_depth task + 1))) with b' by lia.
    exact Hs. }
  destruct (fold_process_entry_shallow env cfg task l n names w1
              ltac:(rewrite Hp1; exact Hok) ltac:(rewrite Hp1; exact Hall) Hch)
    as [Hall' Hcost].
  rewrite Hp1 in Hcost. split; [exact Hall'|].
  pose proof (shallow_cost env _ (path task) names Ht Hopen) as Hsc.
  replace (Z.to_nat (Z.of_nat n - (current_depth task + 1)))
    with (Z.to_nat (Z.of_nat n - current_depth task) - 1)%nat in Hcost by lia.
  lia.
Qed.

(** The worker loop on a finite tree returns, with an empty queue and no
    task counted. *)
Lemma run_pool_ends_shallow env cfg n fuel : forall w,
  ring_ok (pool w) -> running w = 0 ->
  Forall (shallow_task env n) (pending (pool w)) ->
  (pending_cost env (Z.of_nat n) (pending (pool w)) + 2 <= fuel)%nat ->
  exists w', run_pool env cfg fuel w = inl w'
             /\ count (pool w') = 0%nat /\ active_tasks w' = 0.
Proof.
  induction fuel as [|f IH]; intros w Hok Hrun Hall Hfuel; [lia|].
  cbn [run_pool].
  destruct (negb (shutdown (pool w)) && (active_tasks w <=? 0)) eqn:Ewake.
  { apply andb_true_iff in Ewake as [_ Ha]. apply Z.leb_le in Ha.
    assert (Hc : count (pool w) = 0%nat) by (unfold running in Hrun; lia).
    destruct f as [|f']; [lia|]. cbn [run_pool pool set_pool begin_shutdown
      shutdown count negb andb]. rewrite Hc. cbn [Nat.eqb].
    eexists. split; [reflexivity|].
    cbn [pool set_pool begin_shutdown count active_tasks].
    split; [exact Hc|]. unfold running in Hrun. lia. }
  destruct (count (pool w) =? 0)%nat eqn:Ecount.
  { apply Nat.eqb_eq in Ecount.
    destruct (shutdown (pool w)) eqn:Es.
    - exists w. split; [reflexivity|]. split; [exact Ecount|].
      unfold running in Hrun. lia.
    - exfalso. unfold running in Hrun. rewrite Ecount in Hrun.
      simpl in Ewake. apply Z.leb_gt in Ewake. lia. }
  apply Nat.eqb_neq in Ecount.
  destruct (take_ok (pool w) Hok ltac:(lia)) as (t & Ht & Hok' & Hc & Hs).
  pose proof (pending_take (pool w) Hok ltac:(lia)) as Hpt.
  destruct (take (pool w)) as [o p]. cbn [fst snd] in *. subst o.
  rewrite Hpt in Hall. apply Forall_cons in Hall as [Hst Hall].
  destruct (search_directory_balanced env cfg t (set_pool p w) Hok')
    as (Hok2 & _ & Hrun2).
  destruct (search_directory_shallow env cfg t (set_pool p w) n Hok' Hall Hst)
    as [Hall2 Hcost].
  cbn [pool set_pool] in Hcost.
  rewrite Hpt, pending_cost_cons in Hfuel.
  apply IH; [exact Hok2| |exact Hall2|lia].
  rewrite Hrun2. unfold running in *. simpl. rewrite Hc. lia.
Qed.

(** C10.  When the submission of a child task fails (the queue is full
    or the pool is shutting down) and the set to share is alive, the
    task counter and the reference count are taken back and the world is
    as it was before: no task for the subdirectory is queued, nothing is
    written to either stream.  Processing any entry in that state leaves
    the queue, the counter and the ignore sets unchanged.  The task goes
    on with the entries left in its directory and ends with the queue as
    it was and its own count given back; the worker loop then runs the
    queued tasks of a finite tree and returns with an empty queue and no
    task counted.  A run of [main] on a finite tree that gets past the
    setup returns 0 after the walk, within a number of worker rounds
    bounded by the size of the tree, whichever submissions fail. *)
Theorem failed_submission_drops_subtree env cfg task local_ignore full_path w :
  count (pool w) = queue_size (pool w) \/ shutdown (pool w) = true ->
  (forall i p, shared_set task local_ignore = Some i ->
               heap w !! i = Some p -> 0 < refcount p) ->
  spawn_child task local_ignore full_path w = w
  /\ (forall d_name,
        same_tasks w (process_entry env cfg task local_ignore w d_name))
  /\ (forall names n fuel,
        ring_ok (pool w) -> running w = 1 ->
        Forall (shallow_task env n) (pending (pool w)) ->
        (pending_cost env (Z.of_nat n) (pending (pool w)) + 2 <= fuel)%nat ->
        let w1 := rest_of_task env cfg task local_ignore names w in
        pool w1 = pool w /\ active_tasks w1 = active_tasks w - 1
        /\ exists w', run_pool env cfg fuel w1 = inl w'
                      /\ count (pool w') = 0%nat /\ active_tasks w' = 0)
  /\ (forall opts positional cfg0 w0 n fuel,
        setup_of env opts positional = Some (cfg0, w0) ->
        shallow env n (root_dir cfg0) = true ->
        (subtree_cost env n (root_dir cfg0) + 2 <= fuel)%nat ->
        exists w', main env opts positional fuel = Exit 0 w').
Proof.
  intros Hfull Hlive. split; [|split; [|split]].
  - apply spawn_child_rejected; assumption.
  - intros d_name. apply process_entry_rejected; assumption.
  - intros names n fuel Hok Hrun Hall Hfuel w1.
    destruct (fold_process_entry_rejected env cfg task local_ignore names w
                Hfull Hlive) as (Hp & _ & Ha).
    destruct (free_ignore_patterns_same local_ignore
                (fold_left (process_entry env cfg task local_ignore) names w))
      as [Hp' Ha'].
    assert (H1 : pool w1 = pool w /\ active_tasks w1 = active_tasks w - 1).
    { subst w1. unfold rest_of_task. cbv zeta.
      cbn [pool active_tasks set_active_tasks].
      rewrite Hp', Ha', Hp, Ha. split; reflexivity. }
    destruct H1 as [H1 H2]. split; [exact H1|]. split; [exact H2|].
    apply (run_pool_ends_shallow env cfg n fuel w1).
    + rewrite H1. exact Hok.
    + unfold running in *. rewrite H1, H2. lia.
    + rewrite H1. exact Hall.
    + rewrite H1. exact Hfuel.
  - intros opts positional cfg0 w0 n fuel Hs Hsh Hfuel.
    destruct (main_setup env opts positional fuel cfg0 w0 Hs) as (-> & l & Hl).
    destruct (setup_pool env l positional cfg0 w0 Hl) as (Hok & Hc & Hsd).
    unfold walk.
    set (u1 := if String.eqb (output_format cfg0) "json" then _ else w0).
    set (u2 := if String.eqb (output_format cfg0) "csv" then _ else u1).
    assert (Hp : pool u2 = pool w0).
    { subst u2 u1.
      destruct (String.eqb _ "json"), (String.eqb _ "csv"); reflexivity. }
    set (t0 := mkTask (root_dir cfg0) 0 None).
    set (u3 := set_pool _ _).
    destruct (seeded_pool (pool w0) t0 Hok Hc Hsd) as [Hok1 Hc1].
    assert (Hnil : pending (pool w0) = [])
      by (unfold pending; rewrite Hc; reflexivity).
    assert (H3 : ring_ok (pool u3) /\ running u3 = 0
                 /\ Forall (shallow_task env n) (pending (pool u3))
                 /\ (pending_cost env (Z.of_nat n) (pending (pool u3)) + 2
                     <= fuel)%nat).
    { subst u3. unfold running.
      cbn [pool set_pool active_tasks set_active_tasks]. rewrite Hp.
      split; [exact Hok1|]. split; [rewrite Hc1; reflexivity|].
      rewrite (pending_add (pool w0) t0 Hok), Hnil.
      destruct (snd (threadpool_add (pool w0) t0) =? 0);
        [|split; [constructor|simpl; lia]].
      cbn [app]. split.
      - constructor; [|constructor]. subst t0.
        cbn [shallow_task current_depth path].
        replace (Z.to_nat (Z.of_nat n - 0)) with n by lia. exact Hsh.
      - rewrite pending_cost_cons. unfold task_cost. subst t0.
        cbn [current_depth path].
        replace (Z.to_nat (Z.of_nat n - 0)) with n by lia.
        change (pending_cost env (Z.of_nat n) []) with 0%nat. lia. }
    destruct H3 as (Hok3 & Hrun3 & Hall3 & Hcost3).
    destruct (run_pool_ends_shallow env cfg0 n fuel u3 Hok3 Hrun3 Hall3 Hcost3)
      as (w4 & -> & _).
    eexists. reflexivity.
Qed.

(** The task of the directory a with the one-slot queue full: the
    submission of a/c is taken back, the task ends and the loop returns;
    and the walk of r with 4097 subdirectories returns 0. *)
Lemma failed_submission_drops_subtree_witness :
  spawn_child (mkTask "a" 0 None) (Some 0%nat) "a/c" crowded_world
  = crowded_world
  /\ (exists w',
        run_pool tree_env any_name 3
          (rest_of_task tree_env any_name (mkTask "a" 0 None) (Some 0%nat)
             ["e.txt"] crowded_world) = inl w'
        /\ count (pool w') = 0%nat /\ active_tasks w' = 0)
  /\ exists w', main (wide_env 4097) walk_r None 4100 = Exit 0 w'.
Proof.
  assert (Hlive : forall i p,
            shared_set (mkTask "a" 0 None) (Some 0%nat) = Some i ->
            heap crowded_world !! i = Some p -> 0 < refcount p)
    by (intros i p [= <-] [= <-]; simpl; lia).
  destruct (failed_submission_drops_subtree tree_env any_name
              (mkTask "a" 0 None) (Some 0%nat) "a/c" crowded_world
              (or_introl eq_refl) Hlive) as (H1 & _ & H3 & _).
  destruct (failed_submission_drops_subtree (wide_env 4097) any_name
              (mkTask "a" 0 None) (Some 0%nat) "a/c" crowded_world
              (or_introl eq_refl) Hlive) as (_ & _ & _ & H4).
  split; [exact H1|]. split.
  - refine (proj2 (proj2 (H3 ["e.txt"] 1%nat 3%nat _ eq_refl _ _))).
    + unfold ring_ok. cbn. repeat split; try lia.
      intros k Hk. assert (k = 0%nat) by lia. subst k. eexists. reflexivity.
    + repeat constructor.
    + vm_compute. apply le_n.
  - evar (cfg : search_config_t). evar (w : world).
    assert (Hs : setup_of (wide_env 4097) walk_r None = Some (cfg, w))
      by (subst cfg w; vm_compute; reflexivity).
    apply (H4 walk_r None cfg w 1%nat 4100%nat Hs).
    + subst cfg. vm_compute. reflexivity.
    + subst cfg. apply Nat.leb_le. vm_compute. reflexivity.
Defined.
